(** * DeepSpectrum: the batching generator and the extraction backends

    A shallow embedding of [src/backend/extractor.py].

    - numpy arrays are records of a dtype, a shape and the row-major data;
      integer elements are in [Z], floats are kept abstract;
    - the generator [_batch_images] is a suspended frame with a program
      point, advanced by [gen_next]; [list_gen] drains it;
    - exceptions are values of [exn], fallible code returns [result];
    - the lists and arrays of a batch and the blobs of a network are
      objects of a store, and [extract_features] runs over it;
    - each class is a module named after it; what the numeric runtimes
      compute (graph evaluation, [predict], the forward pass, image
      resizing) is a field of the model handed to the constructor.

    Definitions come first, the proofs after them. *)

From stdpp Require Import gmap strings list fin_maps sorting.
From Stdlib Require Import ZArith Lia Ascii.

Local Open Scope Z_scope.

(** ** Exceptions and results *)

Inductive exn : Type :=
| StopIteration
| ValueError
| ZeroDivisionError
| TypeError
| IndexError
| AttributeError
| KeyError (key : string)
| AssertionError (msg : string)
| NotImplementedError
| InvalidArgumentError
| Exception (msg : string).

Inductive result (A : Type) : Type :=
| Ok (a : A)
| Raise (e : exn).
Arguments Ok {A} a.
Arguments Raise {A} e.

#[global] Instance result_ret : MRet result := fun A a => Ok a.
#[global] Instance result_bind : MBind result := fun A B k r =>
  match r with
  | Ok a => k a
  | Raise e => Raise e
  end.

(** ** numpy arrays *)

Inductive dtype : Type :=
| uint8 | int8 | uint16 | int16 | uint32 | int32 | uint64 | int64
| float32 | float64.

Section Extractor.

(** Floating-point numbers stay abstract: the code only moves them around
    and hands them to the numeric runtimes. *)
Variable F : Type.

(** Timestamps are opaque to the extractor. *)
Variable TS : Type.

Inductive scalar : Type :=
| SInt (z : Z)
| SFloat (f : F).

Record ndarray : Type := NdArray {
  nd_dtype : dtype;
  nd_shape : list nat;
  nd_data : list scalar
}.

(** The C conversion of a float to [unsigned char] that numpy's unsafe
    cast performs. Whatever it yields is stored in one byte; the proofs
    that need it assume [0 <= float_to_uint8 f < 256]. *)
Variable float_to_uint8 : F -> Z.

(** Unsafe cast of one element to [np.uint8]. *)
Definition to_uint8 (s : scalar) : scalar :=
  match s with
  | SInt z => SInt (z mod 256)
  | SFloat f => SInt (float_to_uint8 f)
  end.

Definition shape_eqb (s1 s2 : list nat) : bool :=
  bool_decide (s1 = s2).

(** [np.array(arrays, dtype=np.uint8)] on a Python list of arrays: the
    arrays are stacked along a new first axis and every element is cast;
    arrays of different shapes cannot be stacked into a uint8 array. *)
Definition np_array_uint8 (arrays : list ndarray) : result ndarray :=
  match arrays with
  | [] => Ok (NdArray uint8 [0%nat] [])
  | a :: rest =>
      if forallb (fun b => shape_eqb (nd_shape a) (nd_shape b)) rest
      then Ok (NdArray uint8 (length arrays :: nd_shape a)
                 (concat (map (fun b => map to_uint8 (nd_data b)) arrays)))
      else Raise ValueError
  end.

(** ** The batching generator *)

(** One element of the input stream: [(name, ts, image)]. *)
Definition plot_tuple : Type := string * TS * ndarray.

(** One emitted batch: [(name_batch, ts_batch, image_batch)]. *)
Definition batch : Type := list string * list TS * ndarray.

(** Where a generator frame is suspended. *)
Inductive gen_pc : Type :=
| Unstarted          (* created, body not yet entered *)
| InLoop             (* suspended at the [yield] inside the [for] loop *)
| AtTail             (* suspended at the [yield] after the loop *)
| Closed.            (* returned or raised *)

(** The frame of [_batch_images]: the input iterator, the locals and the
    program point. *)
Record generator : Type := Generator {
  g_pc : gen_pc;
  g_images : list plot_tuple;
  g_batch_size : Z;
  current_name_batch : list string;
  current_ts_batch : list TS;
  current_image_batch : list ndarray;
  g_index : Z
}.

(** Calling the generator function runs none of its body. *)
Definition _batch_images (images : list plot_tuple) (batch_size : Z) : generator :=
  Generator Unstarted images batch_size [] [] [] 0.

Definition close (g : generator) : generator :=
  Generator Closed (g_images g) (g_batch_size g) (current_name_batch g)
    (current_ts_batch g) (current_image_batch g) (g_index g).

(** What one [next()] gives back. *)
Inductive signal : Type :=
| Yield (b : batch)
| Throw (e : exn).

(** The [for] loop from its head, up to the next [yield], [return] or
    exception. *)
Fixpoint loop_from (images : list plot_tuple) (batch_size : Z)
    (names : list string) (tss : list TS) (imgs : list ndarray)
    (index : Z) : signal * generator :=
  match images with
  | [] =>
      match names with
      | [] => (Throw StopIteration, Generator Closed [] batch_size names tss imgs index)
      | _ :: _ =>
          match np_array_uint8 imgs with
          | Ok image_batch =>
              (Yield (names, tss, image_batch),
               Generator AtTail [] batch_size names tss imgs index)
          | Raise e => (Throw e, Generator Closed [] batch_size names tss imgs index)
          end
      end
  | (name, ts, image) :: rest =>
      let names' := names ++ [name] in
      let tss' := tss ++ [ts] in
      let imgs' := imgs ++ [image] in
      if batch_size =? 0
      then (Throw ZeroDivisionError, Generator Closed rest batch_size names' tss' imgs' index)
      else if (index + 1) mod batch_size =? 0
      then
        match np_array_uint8 imgs' with
        | Ok image_batch =>
            (Yield (names', tss', image_batch),
             Generator InLoop rest batch_size [] [] [] index)
        | Raise e => (Throw e, Generator Closed rest batch_size names' tss' imgs' index)
        end
      else loop_from rest batch_size names' tss' imgs' (index + 1)
  end.

(** [next(g)]. *)
Definition gen_next (g : generator) : signal * generator :=
  match g_pc g with
  | Unstarted =>
      loop_from (g_images g) (g_batch_size g) (current_name_batch g)
        (current_ts_batch g) (current_image_batch g) (g_index g)
  | InLoop =>
      loop_from (g_images g) (g_batch_size g) (current_name_batch g)
        (current_ts_batch g) (current_image_batch g) (g_index g + 1)
  | AtTail => (Throw StopIteration, close g)
  | Closed => (Throw StopIteration, g)
  end.

(** Draining a generator, as [list(g)] or a [for] loop does: the batches
    yielded, and the exception that ended the iteration ([StopIteration]
    when the generator returned). *)
Fixpoint drain (fuel : nat) (g : generator) : option (list batch * exn) :=
  match fuel with
  | O => None
  | S fuel' =>
      match gen_next g with
      | (Yield b, g') =>
          match drain fuel' g' with
          | Some (bs, e) => Some (b :: bs, e)
          | None => None
          end
      | (Throw e, _) => Some ([], e)
      end
  end.

(** The same, by recursion on the input list. *)
Fixpoint run_loop (images : list plot_tuple) (batch_size : Z)
    (names : list string) (tss : list TS) (imgs : list ndarray)
    (index : Z) : list batch * exn :=
  match images with
  | [] =>
      match names with
      | [] => ([], StopIteration)
      | _ :: _ =>
          match np_array_uint8 imgs with
          | Ok image_batch => ([(names, tss, image_batch)], StopIteration)
          | Raise e => ([], e)
          end
      end
  | (name, ts, image) :: rest =>
      let names' := names ++ [name] in
      let tss' := tss ++ [ts] in
      let imgs' := imgs ++ [image] in
      if batch_size =? 0
      then ([], ZeroDivisionError)
      else if (index + 1) mod batch_size =? 0
      then
        match np_array_uint8 imgs' with
        | Ok image_batch =>
            let '(bs, e) := run_loop rest batch_size [] [] [] (index + 1) in
            ((names', tss', image_batch) :: bs, e)
        | Raise e => ([], e)
        end
      else run_loop rest batch_size names' tss' imgs' (index + 1)
  end.

Definition list_gen (g : generator) : list batch * exn :=
  match g_pc g with
  | Unstarted =>
      run_loop (g_images g) (g_batch_size g) (current_name_batch g)
        (current_ts_batch g) (current_image_batch g) (g_index g)
  | InLoop =>
      run_loop (g_images g) (g_batch_size g) (current_name_batch g)
        (current_ts_batch g) (current_image_batch g) (g_index g + 1)
  | AtTail | Closed => ([], StopIteration)
  end.

End Extractor.

Arguments SInt {F} z.
Arguments SFloat {F} f.
Arguments NdArray {F} nd_dtype nd_shape nd_data.
Arguments nd_dtype {F} n.
Arguments nd_shape {F} n.
Arguments nd_data {F} n.
Arguments to_uint8 {F} float_to_uint8 s.
Arguments np_array_uint8 {F} float_to_uint8 arrays.
Arguments Generator {F TS}.
Arguments g_pc {F TS} g.
Arguments g_images {F TS} g.
Arguments g_batch_size {F TS} g.
Arguments current_name_batch {F TS} g.
Arguments current_ts_batch {F TS} g.
Arguments current_image_batch {F TS} g.
Arguments g_index {F TS} g.
Arguments _batch_images {F TS} images batch_size.
Arguments close {F TS} g.
Arguments Yield {F TS} b.
Arguments Throw {F TS} e.
Arguments loop_from {F TS} float_to_uint8 images batch_size names tss imgs index.
Arguments gen_next {F TS} float_to_uint8 g.
Arguments drain {F TS} float_to_uint8 fuel g.
Arguments run_loop {F TS} float_to_uint8 images batch_size names tss imgs index.
Arguments list_gen {F TS} float_to_uint8 g.

(** ** Observations on batches *)

Definition batch_names {F TS : Type} (b : batch F TS) : list string := b.1.1.
Definition batch_ts {F TS : Type} (b : batch F TS) : list TS := b.1.2.
Definition batch_images {F TS : Type} (b : batch F TS) : ndarray F := b.2.

Definition batch_len {F TS : Type} (b : batch F TS) : nat := length (batch_names b).

Definition tuple_name {F TS : Type} (t : plot_tuple F TS) : string := t.1.1.
Definition tuple_ts {F TS : Type} (t : plot_tuple F TS) : TS := t.1.2.
Definition tuple_image {F TS : Type} (t : plot_tuple F TS) : ndarray F := t.2.

(** [ceil(n / d)] for a positive [d]. *)
Definition ceil_div (n d : Z) : Z := (n + d - 1) / d.

(** A list of batch sizes that is [batch_size] everywhere except possibly
    at its last position, which holds between one and [batch_size]. *)
Fixpoint chunked (batch_size : Z) (sizes : list nat) : Prop :=
  match sizes with
  | [] => True
  | n :: rest =>
      match rest with
      | [] => 1 <= Z.of_nat n <= batch_size
      | _ :: _ => Z.of_nat n = batch_size /\ chunked batch_size rest
      end
  end.

(** The batch that a group of buffered tuples is turned into. *)
Definition batch_of_group {F TS : Type} (float_to_uint8 : F -> Z)
    (group : list (plot_tuple F TS)) (b : batch F TS) : Prop :=
  group <> [] /\
  batch_names b = map tuple_name group /\
  batch_ts b = map tuple_ts group /\
  np_array_uint8 float_to_uint8 (map tuple_image group) = Ok (batch_images b).

(** A uint8 element: an integer that fits one unsigned byte. *)
Definition is_uint8 {F : Type} (s : scalar F) : Prop :=
  match s with
  | SInt z => 0 <= z < 256
  | SFloat _ => False
  end.

(** ** Objects, references and the store

    The lists and arrays of a batch are mutable Python objects. Code that
    may write to them runs over a store; a reference is a position in
    it. *)

Abbreviation loc := nat.

Inductive obj (F TS : Type) : Type :=
| ONames (names : list string)
| OTimes (tss : list TS)
| OArray (a : ndarray F).

Arguments ONames {F TS} names.
Arguments OTimes {F TS} tss.
Arguments OArray {F TS} a.

Abbreviation store F TS := (list (obj F TS)).

(** Computations over the store that may raise. *)
Definition M (F TS A : Type) : Type := store F TS -> result A * store F TS.

Section Store.

Context {F TS : Type}.

Definition ret {A : Type} (a : A) : M F TS A := fun h => (Ok a, h).

Definition raise {A : Type} (e : exn) : M F TS A := fun h => (Raise e, h).

Definition mbind_M {A B : Type} (k : A -> M F TS B) (m : M F TS A) : M F TS B :=
  fun h =>
    match m h with
    | (Ok a, h') => k a h'
    | (Raise e, h') => (Raise e, h')
    end.

Definition lift {A : Type} (r : result A) : M F TS A := fun h => (r, h).

(** A new object, at a reference nothing else holds. *)
Definition alloc (o : obj F TS) : M F TS loc := fun h => (Ok (length h), h ++ [o]).

(** The object at [l]; a reference that was never allocated has none. *)
Definition load (l : loc) : M F TS (obj F TS) :=
  fun h =>
    match h !! l with
    | Some o => (Ok o, h)
    | None => (Raise AttributeError, h)
    end.

(** Overwrite the object at [l] in place. *)
Definition write (l : loc) (o : obj F TS) : M F TS unit :=
  fun h => (Ok tt, <[l := o]> h).

End Store.

#[global] Instance M_ret {F TS} : MRet (M F TS) := fun A a => ret a.
#[global] Instance M_bind {F TS} : MBind (M F TS) := fun A B k m => mbind_M k m.

Section Objects.

Context {F TS : Type}.

Definition load_names (l : loc) : M F TS (list string) :=
  o ← load l;
  match o with
  | ONames names => ret names
  | _ => raise TypeError
  end.

Definition load_times (l : loc) : M F TS (list TS) :=
  o ← load l;
  match o with
  | OTimes tss => ret tss
  | _ => raise TypeError
  end.

Definition load_array (l : loc) : M F TS (ndarray F) :=
  o ← load l;
  match o with
  | OArray a => ret a
  | _ => raise TypeError
  end.

(** ** More of numpy *)

Definition product (dims : list nat) : nat := foldr Nat.mul 1%nat dims.

(** [a.size]. *)
Definition nd_size (a : ndarray F) : nat := product (nd_shape a).

(** An array whose data fills its shape. *)
Definition well_formed (a : ndarray F) : Prop :=
  length (nd_data a) = nd_size a.

(** The sub-arrays along the first axis, as iterating over [a] gives
    them; a 0-d array cannot be iterated. *)
Definition nd_rows (a : ndarray F) : result (list (ndarray F)) :=
  match nd_shape a with
  | [] => Raise TypeError
  | n :: inner =>
      Ok (map (fun i => NdArray (nd_dtype a) inner
                          (take (product inner) (drop (i * product inner) (nd_data a))))
              (seq 0 n))
  end.

(** Reshaping to [[-1, dim]], where [dim] is the product of all
    dimensions but the first. *)
Definition flatten_rows (a : ndarray F) : result (ndarray F) :=
  let dim := product (tail (nd_shape a)) in
  if (dim =? 0)%nat then Raise ValueError
  else if (nd_size a mod dim =? 0)%nat
       then Ok (NdArray (nd_dtype a) [(nd_size a / dim)%nat; dim] (nd_data a))
       else Raise ValueError.

(** [np.reshape(a, [-1, np.prod(a.shape[1:])])]. For an array of at most
    one dimension [np.prod] of the empty tuple is the float [1.0], which
    [np.reshape] does not take for a dimension. *)
Definition np_flatten_rows (a : ndarray F) : result (ndarray F) :=
  match tail (nd_shape a) with
  | [] => Raise TypeError
  | _ :: _ => flatten_rows a
  end.

(** [np.array(arrays)]: stacking with the dtype of the first array. *)
Definition np_array (arrays : list (ndarray F)) : result (ndarray F) :=
  match arrays with
  | [] => Ok (NdArray float64 [0%nat] [])
  | a :: rest =>
      if forallb (fun b => shape_eqb (nd_shape a) (nd_shape b)) rest
      then Ok (NdArray (nd_dtype a) (length arrays :: nd_shape a)
                 (concat (map nd_data arrays)))
      else Raise ValueError
  end.

(** [a[:, :, :, ::-1]]: the elements in reverse order along the fourth
    axis, whatever follows it; an array of fewer than four axes cannot be
    indexed so. With [m] the number of elements under one position of the
    fourth axis, [d3] its length: the element at position [j] of that
    axis comes from position [d3 - 1 - j]. *)
Definition reverse_axis3 (a : ndarray F) : result (ndarray F) :=
  match nd_shape a with
  | _ :: _ :: _ :: d3 :: rest =>
      let m := product rest in
      Ok (NdArray (nd_dtype a) (nd_shape a)
            (map (fun i => default (SInt 0)
                    (nd_data a !! (i / (d3 * m) * (d3 * m)
                                   + (d3 - 1 - i mod (d3 * m) / m) * m
                                   + i mod m)%nat))
               (seq 0 (length (nd_data a)))))
  | _ => Raise IndexError
  end.

Definition is_floating (d : dtype) : bool :=
  match d with
  | float32 | float64 => true
  | _ => false
  end.

(** ** Feature records *)

(** [FeatureTuple(name, timestamp, features)]; a namedtuple is a tuple. *)
Definition FeatureTuple : Type := string * TS * ndarray F.

(** [zip(name_batch, ts_batch, feature_batch)], read off the store. Three
    of the classes wrap it in a lazy [map]; its elements are taken here
    as the store has them when the method returns. *)
Definition zip_features (name_batch ts_batch feature_batch : loc)
    : M F TS (list FeatureTuple) :=
  names ← load_names name_batch;
  tss ← load_times ts_batch;
  features ← load_array feature_batch;
  rows ← lift (nd_rows features);
  ret (zip_with (fun nt row => (nt.1, nt.2, row)) (zip names tss) rows).

(** A batch as the caller holds it: references to the two lists and to
    the image array. *)
Definition batch_ref : Type := loc * loc * loc.

(** The three fresh objects of a batch the generator yields. *)
Definition alloc_batch (b : batch F TS) : M F TS batch_ref :=
  name_batch ← alloc (ONames b.1.1);
  ts_batch ← alloc (OTimes b.1.2);
  image_batch ← alloc (OArray b.2);
  ret (name_batch, ts_batch, image_batch).

End Objects.

(** ** Python strings

    Strings are byte strings; [\w] is read over ASCII. *)

(** [needle in hay]. *)
Fixpoint py_in (needle hay : string) : bool :=
  String.prefix needle hay ||
  match hay with
  | EmptyString => false
  | String _ hay' => py_in needle hay'
  end.

(** [s.split(sep)] for a one-character separator. *)
Fixpoint py_split (sep : Ascii.ascii) (s : string) : list string :=
  match s with
  | EmptyString => [EmptyString]
  | String c s' =>
      if Ascii.eqb c sep then EmptyString :: py_split sep s'
      else match py_split sep s' with
           | [] => [String c EmptyString]
           | h :: t => String c h :: t
           end
  end.

(** [l[-1]] on the result of a split, which is never empty. *)
Definition py_last (l : list string) : string := default EmptyString (last l).

(** [s[:-k]]. *)
Definition py_drop_end (k : nat) (s : string) : string :=
  String.substring 0 (String.length s - k) s.

Definition is_word_char (c : Ascii.ascii) : bool :=
  let n := Ascii.nat_of_ascii c in
  ((48 <=? n) && (n <=? 57) || (65 <=? n) && (n <=? 90) ||
   (97 <=? n) && (n <=? 122) || (n =? 95))%nat.

Fixpoint word_prefix (s : string) : string :=
  match s with
  | EmptyString => EmptyString
  | String c s' => if is_word_char c then String c (word_prefix s') else EmptyString
  end.

(** [re.match(r'^(\w+)/*', s)]: [Some] of group 1, or [None]. *)
Definition re_match_prefix (s : string) : option string :=
  match word_prefix s with
  | EmptyString => None
  | p => Some p
  end.

(** [s.endswith(suffix)]. *)
Definition py_endswith (s suffix : string) : bool :=
  (String.length suffix <=? String.length s)%nat &&
  String.eqb (String.substring (String.length s - String.length suffix)
                (String.length suffix) s) suffix.

(** No occurrence of the character [sep]. *)
Definition no_sep (sep : Ascii.ascii) (s : string) : Prop :=
  forall pre post, s <> pre +:+ String sep post.

(** What follows the last ["/"] of a name, the whole name when it has
    none. *)
Definition trailing_segment (name : string) : string :=
  py_last (py_split "/"%char name).

Definition str_le (a b : string) : Prop := Is_true (String.leb a b).

#[global] Instance str_le_dec a b : Decision (str_le a b) := Is_true_dec _.

(** [sorted(l)] on strings. *)
Definition py_sorted (l : list string) : list string := merge_sort str_le l.

(** [repr] of a string without quotes, backslashes or control characters,
    and of a list of such strings. *)
Definition py_repr_str (s : string) : string := "'" +:+ s +:+ "'".

Definition py_repr_list (l : list string) : string :=
  "[" +:+ String.concat ", " (map py_repr_str l) +:+ "]".

(** ** The base class *)

Module Extractor.

(** What the subclasses share: the batch generator held in [self.images],
    and the method [extract_features] each of them overrides. *)
Class ExtractorClass (F TS Self : Type) : Type := {
  images : Self -> generator F TS;
  set_images : Self -> generator F TS -> Self;
  extract_features : Self -> batch_ref -> M F TS (list (@FeatureTuple F TS))
}.

Section Methods.

Context {F TS : Type}.
Variable float_to_uint8 : F -> Z.

(** An instance of the base class itself. *)
Record t : Type := Make { base_images : generator F TS }.

Definition __init__ (images : list (plot_tuple F TS)) (batch_size : Z) : t :=
  Make (_batch_images images batch_size).

Definition base_extract_features (self : t) (images : batch_ref)
    : M F TS (list (@FeatureTuple F TS)) :=
  raise NotImplementedError.

(** What [len] may be applied to here: an object of the store, or a
    generator. *)
Inductive pyval : Type :=
| VRef (l : loc)
| VGenerator (g : generator F TS).

(** The builtin [len]. *)
Definition py_len (v : pyval) : M F TS Z :=
  match v with
  | VGenerator _ => raise TypeError
  | VRef l =>
      o ← load l;
      match o with
      | ONames names => ret (Z.of_nat (length names))
      | OTimes tss => ret (Z.of_nat (length tss))
      | OArray a =>
          match nd_shape a with
          | [] => raise TypeError
          | n :: _ => ret (Z.of_nat n)
          end
      end
  end.

Context {Self : Type} `{!ExtractorClass F TS Self}.

Definition __len__ (self : Self) : M F TS Z :=
  py_len (VGenerator (images self)).

Definition __iter__ (self : Self) : Self := self.

(** [self.extract_features(next(self.images))]: the batch is pulled
    first, then handed over. The generator advances whatever happens
    next. *)
Definition __next__ (self : Self) : M F TS (list (@FeatureTuple F TS)) * Self :=
  match gen_next float_to_uint8 (images self) with
  | (Yield b, g') =>
      (tuple_batch ← alloc_batch b;
       extract_features (set_images self g') tuple_batch,
       set_images self g')
  | (Throw e, g') => (raise e, set_images self g')
  end.

End Methods.

#[global] Instance base_class {F TS : Type} : ExtractorClass F TS (@t F TS) := {
  images := base_images;
  set_images := fun self g => Make g;
  extract_features := base_extract_features
}.

End Extractor.

(** ** The graph-based backend *)

Module TensorFlowExtractor.

(** A node of the computation graph: its name and how many tensors it
    outputs. *)
Record operation : Type := Operation {
  op_name : string;
  op_outputs : nat
}.

(** A tensor of the extractor's graph: an output of a node, or the
    flattening the constructor builds on top of one,
    [tf.reshape(t, [-1, tf.reduce_prod(tf.shape(t)[1:])])]. *)
Inductive tensor : Type :=
| NodeOutput (name : string)
| FlattenRows (t : tensor).

Definition ignored_tensor_endings : list string :=
  ["weights"; "bias"; "MatMul"; "BiasAdd"; "read"; "size"; "prob"; "stack";
   "strided_slice"; "shape"; "axis"; "input"; "concat"; "Conv2D"; "split";
   "norm"]%string.

Definition __ignore_tensor (tensor_name : string) : bool :=
  existsb (fun ending => py_in ending tensor_name) ignored_tensor_endings.

(** The spec's reading of the filter: the name ends in one of the
    listed strings. *)
Definition ends_in_ignored_suffix (tensor_name : string) : bool :=
  existsb (fun ending => py_endswith tensor_name ending) ignored_tensor_endings.

(** The name of the first output of a node. *)
Definition tensor_of (op : operation) : string := op_name op +:+ ":0".

(** [graph.get_tensor_by_name(name)]: the first output of the node called
    like [name] without its [":0"]; a node without outputs has none. *)
Definition get_tensor_by_name (ops : list operation) (name : string) : result tensor :=
  if existsb (fun op => String.eqb (tensor_of op) name && (0 <? op_outputs op)%nat) ops
  then Ok (NodeOutput name)
  else Raise (KeyError name).

(** The dict comprehension of [__input_and_layers]: later names overwrite
    earlier ones with the same label. *)
Fixpoint layer_dict_of (ops : list operation) (tensor_names : list string)
    (acc : gmap string tensor) : result (gmap string tensor) :=
  match tensor_names with
  | [] => Ok acc
  | tensor_name :: rest =>
      t ← get_tensor_by_name ops tensor_name;
      layer_dict_of ops rest
        (<[py_drop_end 2 (py_last (py_split "/"%char tensor_name)) := t]> acc)
  end.

(** One entry of the layer dict, as the proofs state it: the trailing
    segment of the node's name mapped to its first output. *)
Definition add_layer (acc : gmap string tensor) (op : operation) : gmap string tensor :=
  <[trailing_segment (op_name op) := NodeOutput (tensor_of op)]> acc.

Definition __input_and_layers (ops : list operation)
    : result (tensor * gmap string tensor) :=
  let tensor_names :=
    map tensor_of (filter (fun op => __ignore_tensor (op_name op) = false) ops) in
  first ← match tensor_names with
          | [] => Raise IndexError
          | n :: _ => Ok n
          end;
  prefix ← match re_match_prefix first with
           | None => Raise AttributeError
           | Some p => Ok p
           end;
  layer_dict ← layer_dict_of ops tensor_names ∅;
  input ← get_tensor_by_name ops (prefix +:+ "/input:0");
  Ok (input, layer_dict).

(** [tf.import_graph_def(graph_def, name="extractor")]: every node is
    imported under the name scope [extractor]. *)
Definition __load_graph (graph_def : list operation) : list operation :=
  map (fun op => Operation ("extractor/" +:+ op_name op) (op_outputs op)) graph_def.

(** The message of the constructor's [assert]:
    ['\'{}\' is not a valid layer. Available layers are: {}'.format(
       self.layer, sorted(list(self.layers.keys())))]. *)
Definition invalid_layer_message (layer : string) (layers : gmap string tensor) : string :=
  "'" +:+ layer +:+ "' is not a valid layer. Available layers are: "
    +:+ py_repr_list (py_sorted (elements (dom layers))).

Section Instance.

Context {F TS : Type}.

(** The frozen graph stored at [model_path]: its nodes, and what the
    numeric runtime computes for a tensor of the imported graph when
    the input placeholder is fed an array. *)
Record frozen_graph : Type := FrozenGraph {
  fg_nodes : list operation;
  fg_eval : string -> ndarray F -> result (ndarray F)
}.

Record t : Type := Make {
  images : generator F TS;
  batch_size : Z;
  graph : list operation;
  session : string -> ndarray F -> result (ndarray F);
  layer : string;
  input : tensor;
  features : tensor;
  layers : gset string
}.

(** The constructor, with assertions enabled. [self.layers] ends up as
    the keys of the layer dict. *)
Definition __init__ (images : list (plot_tuple F TS)) (model_path : frozen_graph)
    (layer : string) (batch_size : Z) (gpu : bool) : result t :=
  let self_images := _batch_images images batch_size in
  let graph := __load_graph (fg_nodes model_path) in
  '(input, layers) ← __input_and_layers graph;
  match layers !! layer with
  | None => Raise (AssertionError (invalid_layer_message layer layers))
  | Some net_output =>
      Ok (Make self_images batch_size graph (fg_eval model_path) layer input
            (FlattenRows net_output) (dom layers))
  end.

(** [tf.reshape(a, [-1, dim])] in the runtime. *)
Definition tf_reshape_rows (a : ndarray F) : result (ndarray F) :=
  match flatten_rows a with
  | Ok b => Ok b
  | Raise _ => Raise InvalidArgumentError
  end.

Fixpoint eval_tensor (run : string -> ndarray F -> result (ndarray F))
    (fetch : tensor) (feed : ndarray F) : result (ndarray F) :=
  match fetch with
  | NodeOutput name => run name feed
  | FlattenRows t' => a ← eval_tensor run t' feed; tf_reshape_rows a
  end.

(** [session.run(fetch, feed_dict={input: feed})]: the fed array is read,
    the value comes back as a new array. *)
Definition session_run (run : string -> ndarray F -> result (ndarray F))
    (fetch : tensor) (feed : loc) : M F TS loc :=
  a ← load_array feed;
  v ← lift (eval_tensor run fetch a);
  alloc (OArray v).

Definition extract_features (self : t) (tuple_batch : batch_ref)
    : M F TS (list (@FeatureTuple F TS)) :=
  let '(name_batch, ts_batch, image_batch) := tuple_batch in
  feature_batch ← session_run (session self) (features self) image_batch;
  zip_features name_batch ts_batch feature_batch.

(** [feature_batch] of [extract_features], as a function of the image
    array of the batch. *)
Definition feature_batch (self : t) (image_batch : ndarray F) : result (ndarray F) :=
  eval_tensor (session self) (features self) image_batch.

End Instance.

#[global] Instance class {F TS : Type} : Extractor.ExtractorClass F TS (@t F TS) := {
  Extractor.images := images;
  Extractor.set_images := fun self g =>
    Make g (batch_size self) (graph self) (session self) (layer self)
      (input self) (features self) (layers self);
  Extractor.extract_features := extract_features
}.

End TensorFlowExtractor.

(** ** The prepackaged-module backend *)

Module TensorflowHubExtractor.

Section Instance.

Context {F TS : Type}.

(** The module stored at [model_path]: the image size it expects, and for
    each output of its [image_feature_vector] signature what the runtime
    computes when the extractor's placeholder is fed an array (channel
    reversal and resizing included). *)
Record hub_module : Type := HubModule {
  expected_image_size : nat * nat;
  outputs : gmap string (ndarray F -> result (ndarray F))
}.

(** [features] and [session] are attributes that only exist once they
    have been assigned. *)
Record t : Type := Make {
  images : generator F TS;
  batch_size : Z;
  layer : string;
  image_size : nat * nat;
  layers : gset string;
  features : option string;
  session : option (gmap string (ndarray F -> result (ndarray F)))
}.

Definition __init__ (images : list (plot_tuple F TS)) (model_path : hub_module)
    (layer : string) (batch_size : Z) (gpu : bool) : result t :=
  let self_images := _batch_images images batch_size in
  let __layers := outputs model_path in
  if decide (is_Some (__layers !! layer))
  then Ok (Make self_images batch_size layer (expected_image_size model_path)
             (dom __layers) (Some layer) (Some __layers))
  else Ok (Make self_images batch_size layer (expected_image_size model_path)
             (dom __layers) None None).

Definition extract_features (self : t) (tuple_batch : batch_ref)
    : M F TS (list (@FeatureTuple F TS)) :=
  let '(name_batch, ts_batch, image_batch) := tuple_batch in
  session ← lift (from_option Ok (Raise AttributeError) (session self));
  features ← lift (from_option Ok (Raise AttributeError) (features self));
  a ← load_array image_batch;
  v ← lift (from_option (fun f => f a) (Raise (KeyError features)) (session !! features));
  feature_batch ← alloc (OArray v);
  zip_features name_batch ts_batch feature_batch.

(** [feature_batch] of [extract_features], as a function of the image
    array of the batch. *)
Definition feature_batch (self : t) (image_batch : ndarray F) : result (ndarray F) :=
  session ← from_option Ok (Raise AttributeError) (session self);
  features ← from_option Ok (Raise AttributeError) (features self);
  from_option (fun f => f image_batch) (Raise (KeyError features)) (session !! features).

End Instance.

#[global] Instance class {F TS : Type} : Extractor.ExtractorClass F TS (@t F TS) := {
  Extractor.images := images;
  Extractor.set_images := fun self g =>
    Make g (batch_size self) (layer self) (image_size self) (layers self)
      (features self) (session self);
  Extractor.extract_features := extract_features
}.

End TensorflowHubExtractor.

(** ** The named-architecture backend *)

Module KerasExtractor.

Definition model_keys : list string :=
  ["vgg16"; "vgg19"; "resnet50"; "xception"; "inception_v3"; "densenet121";
   "densenet169"; "densenet201"; "mobilenet"; "mobilenet_v2"; "nasnet_large";
   "nasnet_mobile"; "inception_resnet_v2"]%string.

(** The entries of [self.preprocessors]: the class's own channel
    reversal, a [preprocess_input] function of the library, or (for
    [inception_v3]) the module object itself. *)
Inductive preprocessor : Type :=
| preprocess_vgg
| preprocess_input (model_key : string)
| module_object.

Definition preprocessors (model_key : string) : option preprocessor :=
  if decide (model_key = "vgg16" \/ model_key = "vgg19")%string then Some preprocess_vgg
  else if decide (model_key = "inception_v3"%string) then Some module_object
  else if decide (model_key ∈ model_keys) then Some (preprocess_input model_key)
  else None.

Section Instance.

Context {F TS : Type}.

(** A model of the zoo: the names of its layers, the spatial size of its
    input ([model.input.shape[1:-1]]) and what [predict] returns when the
    output is taken at a layer. *)
Record keras_model : Type := KerasModel {
  km_layers : list string;
  km_input_size : nat * nat;
  km_predict : string -> ndarray F -> result (ndarray F)
}.

(** The library, [self.tf] and [PIL]:
    - [applications key weights] builds a model of the zoo;
    - [preprocess_value key a] is the array [preprocess_input] returns;
    - [preprocess_residue key a] is what the argument holds afterwards
      when it is a float array, which [preprocess_input] works on in
      place (an array of another dtype is copied first);
    - [pil_resize] is [Image.fromarray(image, mode='RGB').resize(size)]. *)
Record library : Type := Library {
  applications : string -> string -> result keras_model;
  preprocess_value : string -> ndarray F -> ndarray F;
  preprocess_residue : string -> ndarray F -> ndarray F;
  pil_resize : ndarray F -> nat * nat -> result (ndarray F)
}.

(** The entries of [self.models]: a constructor, or (for
    [inception_v3]) the module object itself. *)
Definition models (tf : library) (model_key : string)
    : option (option (string -> result keras_model)) :=
  if decide (model_key = "inception_v3"%string) then Some None
  else if decide (model_key ∈ model_keys) then Some (Some (applications tf model_key))
  else None.

Record t : Type := Make {
  images : generator F TS;
  tf : library;
  batch_size : Z;
  layer : string;
  layers : list string;
  model : keras_model;
  preprocess : preprocessor
}.

(** The message of the constructor's [assert]:
    [f'Invalid layer key. Available layers: {self.layers}']. *)
Definition invalid_layer_message (layers : list string) : string :=
  "Invalid layer key. Available layers: " +:+ py_repr_list layers.

Definition __init__ (tf : library) (images : list (plot_tuple F TS))
    (model_key layer weights_path : string) (batch_size : Z) (gpu : bool)
    : result t :=
  let self_images := _batch_images images batch_size in
  entry ← from_option Ok (Raise (KeyError model_key)) (models tf model_key);
  base_model ← match entry with
               | Some build => build weights_path
               | None => Raise TypeError
               end;
  let layers := km_layers base_model in
  if decide (layer ∈ layers)
  then
    preprocess ← from_option Ok (Raise (KeyError model_key)) (preprocessors model_key);
    Ok (Make self_images tf batch_size layer layers base_model preprocess)
  else Raise (AssertionError (invalid_layer_message layers)).

(** [x[:, :, :, ::-1]]: a view, the argument is not touched. *)
Definition __preprocess_vgg (x : loc) : M F TS loc :=
  a ← load_array x;
  reversed ← lift (reverse_axis3 a);
  alloc (OArray reversed).

Definition __resize (tf : library) (x : loc) (target_size : nat * nat) : M F TS loc :=
  a ← load_array x;
  match nd_shape a with
  | _ :: h :: w :: _ =>
      if decide ((h, w) = target_size) then ret x
      else
        rows ← lift (nd_rows a);
        resized ← lift (mapM (fun image => pil_resize tf image target_size) rows);
        stacked ← lift (np_array resized);
        alloc (OArray stacked)
  | _ => raise IndexError
  end.

(** Calling [self.preprocess]. *)
Definition call_preprocess (tf : library) (p : preprocessor) (x : loc) : M F TS loc :=
  match p with
  | preprocess_vgg => __preprocess_vgg x
  | module_object => raise TypeError
  | preprocess_input key =>
      a ← load_array x;
      if is_floating (nd_dtype a)
      then _ ← write x (OArray (preprocess_residue tf key a));
           alloc (OArray (preprocess_value tf key a))
      else alloc (OArray (preprocess_value tf key a))
  end.

Definition predict (self : t) (x : loc) : M F TS loc :=
  a ← load_array x;
  v ← lift (km_predict (model self) (layer self) a);
  alloc (OArray v).

Definition extract_features (self : t) (tuple_batch : batch_ref)
    : M F TS (list (@FeatureTuple F TS)) :=
  let '(name_batch, ts_batch, image_batch) := tuple_batch in
  image_batch ← __resize (tf self) image_batch (km_input_size (model self));
  image_batch ← call_preprocess (tf self) (preprocess self) image_batch;
  feature_batch ← predict self image_batch;
  a ← load_array feature_batch;
  flat ← lift (np_flatten_rows a);
  feature_batch ← alloc (OArray flat);
  zip_features name_batch ts_batch feature_batch.

(** The array [__resize] returns, the array [self.preprocess] returns and
    [feature_batch] of [extract_features], as functions of the array
    they are given. *)
Definition resized (tf : library) (x : ndarray F) (target_size : nat * nat)
    : result (ndarray F) :=
  match nd_shape x with
  | _ :: h :: w :: _ =>
      if decide ((h, w) = target_size) then Ok x
      else
        rows ← nd_rows x;
        resized ← mapM (fun image => pil_resize tf image target_size) rows;
        np_array resized
  | _ => Raise IndexError
  end.

Definition preprocessed (tf : library) (p : preprocessor) (x : ndarray F)
    : result (ndarray F) :=
  match p with
  | preprocess_vgg => reverse_axis3 x
  | module_object => Raise TypeError
  | preprocess_input key => Ok (preprocess_value tf key x)
  end.

Definition feature_batch (self : t) (image_batch : ndarray F) : result (ndarray F) :=
  image_batch ← resized (tf self) image_batch (km_input_size (model self));
  image_batch ← preprocessed (tf self) (preprocess self) image_batch;
  feature_batch ← km_predict (model self) (layer self) image_batch;
  np_flatten_rows feature_batch.

End Instance.

#[global] Instance class {F TS : Type} : Extractor.ExtractorClass F TS (@t F TS) := {
  Extractor.images := images;
  Extractor.set_images := fun self g =>
    Make g (tf self) (batch_size self) (layer self) (layers self) (model self)
      (preprocess self);
  Extractor.extract_features := extract_features
}.

End KerasExtractor.

(** ** The legacy-network backend *)

Module CaffeExtractor.

Section Instance.

Context {F TS : Type}.

(** The numeric side of the library, [self.caffe]: float32 arithmetic and
    the interpolating [resize_image]. *)
Record caffe_module : Type := CaffeModule {
  float_of_Z : Z -> F;
  fzero : F;
  fmul : F -> F -> F;
  fsub : F -> F -> F;
  resize_image : ndarray F -> list nat -> ndarray F
}.

(** The network described by [def_path] and [weights_path]: its blobs in
    definition order with their initial arrays, what the forward pass
    leaves in each blob other than [data] as a function of [data], and
    the pixel mean the network was trained with. *)
Record net_def : Type := NetDef {
  nd_blobs : list (string * ndarray F);
  nd_layers : list (string * (ndarray F -> ndarray F));
  nd_pixel_mean : list F
}.

(** A loaded network: its blobs are arrays of the store. *)
Record net : Type := Net {
  blobs : list (string * loc);
  layer_fns : list (string * (ndarray F -> ndarray F))
}.

(** [caffe.io.Transformer]: the shape of the input blob and the steps
    that have been set. *)
Record transformer : Type := Transformer {
  inputs : list nat;
  transpose : option (list nat);
  channel_swap : option (list nat);
  raw_scale : option F;
  mean : option (list F);
  input_scale : option F
}.

Definition new_transformer (data_shape : list nat) : transformer :=
  Transformer data_shape None None None None None.

Definition set_transpose (tr : transformer) (order : list nat) : result transformer :=
  if decide (length order = (length (inputs tr) - 1)%nat)
  then Ok (Transformer (inputs tr) (Some order) (channel_swap tr) (raw_scale tr)
             (mean tr) (input_scale tr))
  else Raise (Exception
         "Transpose order needs to have the same number of dimensions as the input.").

Definition set_channel_swap (tr : transformer) (order : list nat) : result transformer :=
  if decide (inputs tr !! 1%nat = Some (length order))
  then Ok (Transformer (inputs tr) (transpose tr) (Some order) (raw_scale tr)
             (mean tr) (input_scale tr))
  else Raise (Exception
         "Channel swap needs to have the same number of dimensions as the input channels.").

(** [data.astype(np.float32, copy=False)]. *)
Definition astype_float32 (caffe : caffe_module) (a : ndarray F) : ndarray F :=
  NdArray float32 (nd_shape a)
    (map (fun s => match s with
                   | SInt z => SFloat (float_of_Z caffe z)
                   | SFloat f => SFloat f
                   end) (nd_data a)).

(** [a.transpose(order)] on a 3-d array. *)
Definition nd_transpose (order : list nat) (a : ndarray F) : result (ndarray F) :=
  match nd_shape a, order with
  | [d0; d1; d2], [p0; p1; p2] =>
      match [d0; d1; d2] !! p0, [d0; d1; d2] !! p1, [d0; d1; d2] !! p2 with
      | Some e0, Some e1, Some e2 =>
          if decide (NoDup order) then
            let source i0 i1 i2 axis :=
              if (p0 =? axis)%nat then i0 else if (p1 =? axis)%nat then i1 else i2 in
            Ok (NdArray (nd_dtype a) [e0; e1; e2]
                  (i0 ← seq 0 e0; i1 ← seq 0 e1; i2 ← seq 0 e2;
                   [default (SInt 0)
                      (nd_data a !! (source i0 i1 i2 0 * d1 * d2
                                     + source i0 i1 i2 1 * d2
                                     + source i0 i1 i2 2)%nat)]))
          else Raise ValueError
      | _, _, _ => Raise ValueError
      end
  | _, _ => Raise ValueError
  end.

(** [a[order, :, :]]: the sub-arrays along the first axis picked in the
    given order. *)
Definition nd_pick (order : list nat) (a : ndarray F) : result (ndarray F) :=
  match nd_shape a with
  | [] => Raise IndexError
  | n :: inner =>
      if forallb (fun k => k <? n)%nat order
      then Ok (NdArray (nd_dtype a) (length order :: inner)
                 (k ← order; take (product inner) (drop (k * product inner) (nd_data a))))
      else Raise IndexError
  end.

Definition map_floats (f : F -> F) (a : ndarray F) : ndarray F :=
  NdArray (nd_dtype a) (nd_shape a)
    (map (fun s => match s with
                   | SFloat x => SFloat (f x)
                   | SInt z => SInt z
                   end) (nd_data a)).

(** [a -= mean] for a per-channel mean, on a channel-first array. *)
Definition subtract_mean (caffe : caffe_module) (mean : list F) (a : ndarray F)
    : ndarray F :=
  NdArray (nd_dtype a) (nd_shape a)
    (imap (fun i s =>
             match s, mean !! (i / product (tail (nd_shape a)))%nat with
             | SFloat x, Some m => SFloat (fsub caffe x m)
             | _, _ => s
             end) (nd_data a)).

(** The first step of [preprocess]: an image whose height and width are
    not those of the input blob is resized. *)
Definition fit (caffe : caffe_module) (tr : transformer) (caffe_in : ndarray F)
    : ndarray F :=
  let in_dims := drop 2 (inputs tr) in
  if decide (take 2 (nd_shape caffe_in) = in_dims) then caffe_in
  else resize_image caffe caffe_in in_dims.

(** [transformer.preprocess('data', data)]: every step that has been set
    is applied, in this order. *)
Definition preprocess (caffe : caffe_module) (tr : transformer) (data : ndarray F)
    : result (ndarray F) :=
  let caffe_in := astype_float32 caffe data in
  let caffe_in := fit caffe tr caffe_in in
  caffe_in ← match transpose tr with
             | Some order => nd_transpose order caffe_in
             | None => Ok caffe_in
             end;
  caffe_in ← match channel_swap tr with
             | Some order => nd_pick order caffe_in
             | None => Ok caffe_in
             end;
  let caffe_in := match raw_scale tr with
                  | Some r => map_floats (fun x => fmul caffe x r) caffe_in
                  | None => caffe_in
                  end in
  let caffe_in := match mean tr with
                  | Some m => subtract_mean caffe m caffe_in
                  | None => caffe_in
                  end in
  let caffe_in := match input_scale tr with
                  | Some r => map_floats (fun x => fmul caffe x r) caffe_in
                  | None => caffe_in
                  end in
  Ok caffe_in.

(** The transformer the constructor ends up with for an input blob of
    shape [(n0, 3, h, w)]: transposition and channel swap, nothing
    else. *)
Definition built (n0 h w : nat) : transformer :=
  Transformer [n0; 3; h; w]%nat (Some [2; 0; 1]%nat) (Some [2; 1; 0]%nat)
    None None None.


Record t : Type := Make {
  images : generator F TS;
  caffe : caffe_module;
  layer : string;
  self_net : net;
  self_transformer : transformer;
  layers : list string
}.

Fixpoint assoc (name : string) (kvs : list (string * loc)) : option loc :=
  match kvs with
  | [] => None
  | (k, v) :: rest => if decide (k = name) then Some v else assoc name rest
  end.

(** [net.blobs[name]]. *)
Definition blob (n : net) (name : string) : result loc :=
  from_option Ok (Raise (KeyError name)) (assoc name (blobs n)).

(** [caffe.Net(def_path, weights_path, caffe.TEST)]: the blobs are
    allocated. *)
Fixpoint alloc_blobs (bs : list (string * ndarray F)) : M F TS (list (string * loc)) :=
  match bs with
  | [] => ret []
  | (name, a) :: rest =>
      l ← alloc (OArray a);
      ls ← alloc_blobs rest;
      ret ((name, l) :: ls)
  end.

Definition load_net (d : net_def) : M F TS net :=
  ls ← alloc_blobs (nd_blobs d);
  ret (Net ls (nd_layers d)).

Definition __init__ (caffe : caffe_module) (images : list (plot_tuple F TS))
    (def_and_weights : net_def) (layer : string) (batch_size : Z) (gpu : bool)
    : M F TS t :=
  let self_images := _batch_images images batch_size in
  n ← load_net def_and_weights;
  data ← lift (blob n "data");
  a ← load_array data;
  tr ← lift (set_transpose (new_transformer (nd_shape a)) [2; 0; 1]%nat);
  tr ← lift (set_channel_swap tr [2; 1; 0]%nat);
  ret (Make self_images caffe layer n tr (map fst (blobs n))).

(** [net.forward()]: every blob the layers compute is overwritten. *)
Fixpoint forward (n : net) (fns : list (string * (ndarray F -> ndarray F)))
    (data : ndarray F) : M F TS unit :=
  match fns with
  | [] => ret tt
  | (name, f) :: rest =>
      l ← lift (blob n name);
      _ ← write l (OArray (f data));
      forward n rest data
  end.

Definition extract_features (self : t) (tuple_batch : batch_ref)
    : M F TS (list (@FeatureTuple F TS)) :=
  let '(name_batch, ts_batch, image_batch) := tuple_batch in
  data ← lift (blob (self_net self) "data");
  d ← load_array data;
  batch ← load_array image_batch;
  match nd_shape d, nd_shape batch with
  | [_; c; h; w], n :: _ =>
      (* blobs['data'].reshape(n, c, h, w); net.reshape() *)
      _ ← write data (OArray (NdArray float32 [n; c; h; w]
                          (replicate (n * c * h * w) (SFloat (fzero (caffe self))))));
      rows ← lift (nd_rows batch);
      image_batch ← lift (mapM (preprocess (caffe self) (self_transformer self)) rows);
      (* blobs['data'].data[...] = image_batch *)
      stacked ← lift (np_array image_batch);
      _ ← (if decide (nd_shape stacked = [n; c; h; w])
           then write data (OArray (NdArray float32 [n; c; h; w] (nd_data stacked)))
           else raise ValueError);
      d ← load_array data;
      _ ← forward (self_net self) (layer_fns (self_net self)) d;
      feature_batch ← lift (blob (self_net self) (layer self));
      zip_features name_batch ts_batch feature_batch
  | _, _ => raise IndexError
  end.

(** What the forward pass computes for the blob [name]. *)
Fixpoint layer_fn (name : string) (fns : list (string * (ndarray F -> ndarray F)))
    : option (ndarray F -> ndarray F) :=
  match fns with
  | [] => None
  | (k, f) :: rest => if decide (k = name) then Some f else layer_fn name rest
  end.

(** A network in which every blob has one name, no two layers compute
    the same blob, and one of them computes the requested layer. *)
Definition computes_layer (self : t) : Prop :=
  NoDup (map fst (layer_fns (self_net self))) /\
  is_Some (layer_fn (layer self) (layer_fns (self_net self))) /\
  forall n1 n2 l,
    assoc n1 (blobs (self_net self)) = Some l ->
    assoc n2 (blobs (self_net self)) = Some l -> n1 = n2.

(** [feature_batch] of [extract_features] on such a network, as a
    function of the image array of the batch: what the layer computes
    from the input blob, filled with the preprocessed images. *)
Definition feature_batch (self : t) (image_batch : ndarray F) : result (ndarray F) :=
  rows ← nd_rows image_batch;
  image_batch ← mapM (preprocess (caffe self) (self_transformer self)) rows;
  stacked ← np_array image_batch;
  f ← from_option Ok (Raise (KeyError (layer self)))
        (layer_fn (layer self) (layer_fns (self_net self)));
  Ok (f (NdArray float32 (nd_shape stacked) (nd_data stacked))).

End Instance.

#[global] Instance class {F TS : Type} : Extractor.ExtractorClass F TS (@t F TS) := {
  Extractor.images := images;
  Extractor.set_images := fun self g =>
    Make g (caffe self) (layer self) (self_net self) (self_transformer self)
      (layers self);
  Extractor.extract_features := extract_features
}.

End CaffeExtractor.

(** ** The four backends as one type *)

Section Backends.

Context {F TS : Type}.

Inductive backend : Type :=
| GraphBackend (self : @TensorFlowExtractor.t F TS)
| HubBackend (self : @TensorflowHubExtractor.t F TS)
| KerasBackend (self : @KerasExtractor.t F TS)
| CaffeBackend (self : @CaffeExtractor.t F TS).

Definition backend_extract (b : backend) (tuple_batch : batch_ref)
    : M F TS (list (@FeatureTuple F TS)) :=
  match b with
  | GraphBackend self => Extractor.extract_features self tuple_batch
  | HubBackend self => Extractor.extract_features self tuple_batch
  | KerasBackend self => Extractor.extract_features self tuple_batch
  | CaffeBackend self => Extractor.extract_features self tuple_batch
  end.

(** The references a backend keeps its own arrays at: the blobs of a
    loaded network. *)
Definition owned (b : backend) (l : loc) : Prop :=
  match b with
  | CaffeBackend self =>
      l ∈ map snd (CaffeExtractor.blobs (CaffeExtractor.self_net self))
  | _ => False
  end.

(** ** Reasoning about computations over the store *)

(** [triple P m Q E]: from a store satisfying [P], [m] ends with a value
    and a store related by [Q], or raises in a store satisfying [E]. *)
Definition triple {A : Type} (P : store F TS -> Prop) (m : M F TS A)
    (Q : A -> store F TS -> Prop) (E : store F TS -> Prop) : Prop :=
  forall h, P h ->
    match m h with
    | (Ok a, h') => Q a h'
    | (Raise _, h') => E h'
    end.

(** [frame W h0 h]: [h] extends [h0] and agrees with it at every
    reference outside [W]. *)
Definition frame (W : loc -> Prop) (h0 h : store F TS) : Prop :=
  (length h0 <= length h)%nat /\
  forall l, (l < length h0)%nat -> ~ W l -> h !! l = h0 !! l.

(** A computation that keeps the frame, whether it returns or raises. *)
Definition keeps (W : loc -> Prop) (h0 : store F TS) {A : Type} (m : M F TS A) : Prop :=
  triple (frame W h0) m (fun _ h => frame W h0 h) (frame W h0).

End Backends.

(** ** Iterating a backend *)

Section BackendsNext.

Context {F TS : Type}.
Variable float_to_uint8 : F -> Z.

(** [self.images] of a backend. *)
Definition backend_images (b : @backend F TS) : generator F TS :=
  match b with
  | GraphBackend self => Extractor.images self
  | HubBackend self => Extractor.images self
  | KerasBackend self => Extractor.images self
  | CaffeBackend self => Extractor.images self
  end.

(** [next(extractor)] for a backend: the method [__next__] of the base
    class, which every backend inherits. *)
Definition backend_next (b : @backend F TS)
    : M F TS (list (@FeatureTuple F TS)) * @backend F TS :=
  match b with
  | GraphBackend self =>
      let '(m, self') := Extractor.__next__ float_to_uint8 self in (m, GraphBackend self')
  | HubBackend self =>
      let '(m, self') := Extractor.__next__ float_to_uint8 self in (m, HubBackend self')
  | KerasBackend self =>
      let '(m, self') := Extractor.__next__ float_to_uint8 self in (m, KerasBackend self')
  | CaffeBackend self =>
      let '(m, self') := Extractor.__next__ float_to_uint8 self in (m, CaffeBackend self')
  end.

End BackendsNext.

Section BackendsFeatures.

Context {F TS : Type}.

(** The feature array of a backend, as a function of the image array of
    a batch. *)
Definition backend_features (b : @backend F TS) (image_batch : ndarray F)
    : result (ndarray F) :=
  match b with
  | GraphBackend self => TensorFlowExtractor.feature_batch self image_batch
  | HubBackend self => TensorflowHubExtractor.feature_batch self image_batch
  | KerasBackend self => KerasExtractor.feature_batch self image_batch
  | CaffeBackend self => CaffeExtractor.feature_batch self image_batch
  end.

(** For the legacy backend [backend_features] is what the blob of the
    requested layer holds after the forward pass when the network is one
    in which that layer is computed by one layer and every blob has one
    name; the other backends have no such condition. *)
Definition backend_computes_layer (b : @backend F TS) : Prop :=
  match b with
  | CaffeBackend self => CaffeExtractor.computes_layer self
  | _ => True
  end.

End BackendsFeatures.

Section BackendsDrain.

Context {F TS : Type}.
Variable float_to_uint8 : F -> Z.

(** Iterating a backend, as [for features in extractor] does: [next] is
    called until it raises. The record lists it returned, the exception
    that ended the iteration and the store it left. *)
Fixpoint backend_drain (fuel : nat) (b : @backend F TS) (h : store F TS)
    : option (list (list (@FeatureTuple F TS)) * exn * store F TS) :=
  match fuel with
  | O => None
  | S fuel' =>
      let '(m, b') := backend_next float_to_uint8 b in
      match m h with
      | (Ok fs, h1) =>
          match backend_drain fuel' b' h1 with
          | Some (outs, e, h2) => Some (fs :: outs, e, h2)
          | None => None
          end
      | (Raise e, h1) => Some ([], e, h1)
      end
  end.

End BackendsDrain.

(** ** Sample data

    Floats and timestamps are instantiated with [Z]; the sample cast keeps
    the low byte. *)

Module Sample.

Definition cast (f : Z) : Z := f mod 256.

Definition pixel (r g b : Z) : ndarray Z :=
  NdArray int16 [1; 1; 3]%nat [SInt r; SInt g; SInt b].

Definition five : list (plot_tuple Z Z) :=
  [("a"%string, 0, pixel 300 (-1) 7);
   ("b"%string, 1, pixel 1 2 3);
   ("c"%string, 2, pixel 255 256 257);
   ("d"%string, 3, pixel 0 0 0);
   ("e"%string, 4, pixel 9 8 7)].

(** Two images of different shapes. *)
Definition ragged : list (plot_tuple Z Z) :=
  [("a"%string, 0, pixel 1 2 3);
   ("b"%string, 1, NdArray uint8 [1; 2; 3]%nat
                     [SInt 1; SInt 2; SInt 3; SInt 4; SInt 5; SInt 6])].

(** A frozen graph with an input placeholder, a fully connected layer
    and a node whose name holds [norm] in the middle. The runtime gives
    the fed array back for every tensor. *)
Definition graph_def : list TensorFlowExtractor.operation :=
  [TensorFlowExtractor.Operation "input" 1;
   TensorFlowExtractor.Operation "fc7/weights" 1;
   TensorFlowExtractor.Operation "normalize/Relu" 1;
   TensorFlowExtractor.Operation "fc7/fc7" 1]%string.

Definition frozen : @TensorFlowExtractor.frozen_graph Z :=
  TensorFlowExtractor.FrozenGraph graph_def (fun _ a => Ok a).

(** A hub module with the single output [default]. *)
Definition hub : @TensorflowHubExtractor.hub_module Z :=
  TensorflowHubExtractor.HubModule (1, 1)%nat
    {[ "default"%string := fun a : ndarray Z => Ok a ]}.

(** A zoo whose models have three layers and predict the fed array. *)
Definition zoo_model : @KerasExtractor.keras_model Z :=
  KerasExtractor.KerasModel ["input_1"; "fc2"; "block1_conv1"]%string (1, 1)%nat
    (fun _ a => Ok a).

Definition keras : @KerasExtractor.library Z :=
  KerasExtractor.Library (fun _ _ => Ok zoo_model) (fun _ a => a) (fun _ a => a)
    (fun a _ => Ok a).

(** A library whose [preprocess_input] takes one off every element. *)
Definition shifted (a : ndarray Z) : ndarray Z :=
  NdArray float32 (nd_shape a)
    (map (fun s => match s with
                   | SInt z => SFloat (z - 1)
                   | SFloat f => SFloat (f - 1)
                   end) (nd_data a)).

Definition keras_shifting : @KerasExtractor.library Z :=
  KerasExtractor.Library (fun _ _ => Ok zoo_model) (fun _ a => shifted a)
    (fun _ a => shifted a) (fun a _ => Ok a).

(** A batch whose image array is of a float dtype. *)
Definition float_batch : ndarray Z :=
  NdArray float32 [2; 1; 1; 3]%nat
    [SFloat 44; SFloat 255; SFloat 7; SFloat 1; SFloat 2; SFloat 3].

Definition float_store : store Z Z :=
  [ONames ["a"; "b"]%string; OTimes [0; 1]; OArray float_batch].

(** A network over 1x1 images with three channels: the input blob, a
    pooling blob [pool5] that keeps the input's layout, and a fully
    connected layer [fc7] that sums each image up. The mean of its
    training set is (104, 117, 123). *)
Definition caffe : @CaffeExtractor.caffe_module Z :=
  CaffeExtractor.CaffeModule (fun z => z) 0 Z.mul Z.sub (fun a _ => a).

Definition scalar_value (s : scalar Z) : Z :=
  match s with
  | SInt z => z
  | SFloat f => f
  end.

Fixpoint sums (k fuel : nat) (data : list (scalar Z)) : list (scalar Z) :=
  match fuel with
  | O => []
  | S fuel' =>
      match data with
      | [] => []
      | _ :: _ =>
          SFloat (foldr Z.add 0 (map scalar_value (take k data)))
            :: sums k fuel' (drop k data)
      end
  end.

Definition fc7 (data : ndarray Z) : ndarray Z :=
  NdArray float32 [default 0%nat (head (nd_shape data)); 1%nat]
    (sums 3 (length (nd_data data)) (nd_data data)).

Definition net_def : @CaffeExtractor.net_def Z :=
  CaffeExtractor.NetDef
    [("data"%string, NdArray float32 [1; 3; 1; 1]%nat [SFloat 0; SFloat 0; SFloat 0]);
     ("pool5"%string, NdArray float32 [1; 3; 1; 1]%nat [SFloat 0; SFloat 0; SFloat 0]);
     ("fc7"%string, NdArray float32 [1; 1]%nat [SFloat 0])]
    [("pool5"%string, fun data => data); ("fc7"%string, fc7)]
    [104; 117; 123].

(** The extractor the legacy constructor returns for this network and
    the layer [fc7], with its three blobs at the references 0, 1 and 2;
    and a store in which the first batch of [five] has been allocated
    after them. *)
Definition caffe_self : @CaffeExtractor.t Z Z :=
  CaffeExtractor.Make (_batch_images five 2) caffe "fc7"
    (CaffeExtractor.Net
       [("data"%string, 0%nat); ("pool5"%string, 1%nat); ("fc7"%string, 2%nat)]
       (CaffeExtractor.nd_layers net_def))
    (CaffeExtractor.built 1 1 1)
    ["data"; "pool5"; "fc7"]%string.

Definition image_batch : ndarray Z :=
  NdArray uint8 [2; 1; 1; 3]%nat [SInt 44; SInt 255; SInt 7; SInt 1; SInt 2; SInt 3].

Definition caffe_store : store Z Z :=
  map (fun kv => OArray kv.2) (CaffeExtractor.nd_blobs net_def)
    ++ [ONames ["a"; "b"]%string; OTimes [0; 1]; OArray image_batch].

(** A frozen graph in which two nodes end in [Relu], and one without any
    node called [input]. *)
Definition graph_relu : list TensorFlowExtractor.operation :=
  [TensorFlowExtractor.Operation "input" 1;
   TensorFlowExtractor.Operation "conv1/Relu" 1;
   TensorFlowExtractor.Operation "conv2/Relu" 1]%string.

Definition frozen_relu : @TensorFlowExtractor.frozen_graph Z :=
  TensorFlowExtractor.FrozenGraph graph_relu (fun _ a => Ok a).

Definition frozen_headless : @TensorFlowExtractor.frozen_graph Z :=
  TensorFlowExtractor.FrozenGraph [TensorFlowExtractor.Operation "fc7/fc7" 1]
    (fun _ a => Ok a).

End Sample.

(** * Proofs *)

Section BatchingProofs.

Context {F TS : Type}.
Variable float_to_uint8 : F -> Z.

Abbreviation np_stack := (np_array_uint8 float_to_uint8).
Abbreviation run := (run_loop float_to_uint8).
Abbreviation batch_of := (batch_of_group float_to_uint8).

Lemma ceil_div_spec n d :
  0 < d -> (ceil_div n d - 1) * d < n <= ceil_div n d * d.
Proof.
  intros Hd. unfold ceil_div.
  pose proof (Z.div_mod (n + d - 1) d ltac:(lia)) as Hdm.
  pose proof (Z.mod_pos_bound (n + d - 1) d Hd) as Hb.
  nia.
Qed.

Lemma ceil_div_unique n d m :
  0 < d -> (m - 1) * d < n <= m * d -> m = ceil_div n d.
Proof.
  intros Hd Hm. pose proof (ceil_div_spec n d Hd) as Hc. nia.
Qed.

Lemma chunked_cons_full bs n sizes :
  1 <= bs -> Z.of_nat n = bs -> chunked bs sizes -> chunked bs (n :: sizes).
Proof.
  intros Hbs Hn Hc. destruct sizes as [|m rest]; simpl in *; [lia | auto].
Qed.

(** Sizes that are chunked and add up to [total] are determined by
    [total]: their number is the ceiling, the last one the remainder. *)
Lemma chunked_count bs sizes :
  1 <= bs -> chunked bs sizes ->
  Z.of_nat (length sizes) = ceil_div (Z.of_nat (sum_list sizes)) bs /\
  (forall r, last sizes = Some r ->
     Z.of_nat r = (Z.of_nat (sum_list sizes) - 1) mod bs + 1).
Proof.
  intros Hbs. induction sizes as [|n rest IH]; intros Hc.
  - split; [|intros r Hr; discriminate].
    simpl. unfold ceil_div. symmetry. apply Z.div_small. lia.
  - destruct rest as [|m rest'].
    + simpl in Hc. split.
      * change (sum_list [n]) with (n + 0)%nat.
        apply ceil_div_unique; [lia|].
        change (Z.of_nat (length [n])) with 1. lia.
      * intros r [= <-]. change (sum_list [n]) with (n + 0)%nat.
        rewrite Z.mod_small by lia. lia.
    + destruct Hc as [Hn Hc]. destruct (IH Hc) as [IHlen IHlast]. split.
      * change (sum_list (n :: m :: rest')) with (n + sum_list (m :: rest'))%nat.
        change (length (n :: m :: rest')) with (S (length (m :: rest'))).
        apply ceil_div_unique; [lia|].
        pose proof (ceil_div_spec (Z.of_nat (sum_list (m :: rest'))) bs ltac:(lia)).
        lia.
      * intros r Hr. change (last (n :: m :: rest')) with (last (m :: rest')) in Hr.
        rewrite (IHlast r Hr).
        change (sum_list (n :: m :: rest')) with (n + sum_list (m :: rest'))%nat.
        f_equal.
        replace (Z.of_nat (n + sum_list (m :: rest')) - 1)
          with (Z.of_nat (sum_list (m :: rest')) - 1 + 1 * bs) by lia.
        now rewrite Z.mod_add by lia.
Qed.

Lemma mod_succ index bs :
  1 <= bs -> 0 <= index ->
  (index + 1) mod bs =
    if index mod bs + 1 =? bs then 0 else index mod bs + 1.
Proof.
  intros Hbs Hi.
  pose proof (Z.mod_pos_bound index bs ltac:(lia)) as Hb.
  pose proof (Z.div_mod index bs ltac:(lia)) as Hdm.
  destruct (Z.eqb_spec (index mod bs + 1) bs) as [He|Hne].
  - symmetry. apply (Z.mod_unique_pos _ _ (index / bs + 1)); lia.
  - symmetry. apply (Z.mod_unique_pos _ _ (index / bs)); lia.
Qed.

(** *** Stacking *)

Lemma np_stack_raises arrays e : np_stack arrays = Raise e -> e = ValueError.
Proof.
  destruct arrays as [|a rest]; simpl; [discriminate|].
  destruct (forallb _ rest); [discriminate|]. now intros [= <-].
Qed.

Lemma np_stack_ok arrays a :
  arrays <> [] -> np_stack arrays = Ok a ->
  nd_dtype a = uint8 /\
  nd_shape a = length arrays :: from_option nd_shape [] (head arrays) /\
  nd_data a = concat (map (fun b => map (to_uint8 float_to_uint8) (nd_data b)) arrays).
Proof.
  destruct arrays as [|a0 rest]; [done|]. intros _. simpl.
  destruct (forallb _ rest); [|discriminate]. now intros [= <-].
Qed.

Lemma np_stack_uniform shp arrays :
  arrays <> [] -> Forall (fun a => nd_shape a = shp) arrays ->
  np_stack arrays =
    Ok (NdArray uint8 (length arrays :: shp)
          (concat (map (fun b => map (to_uint8 float_to_uint8) (nd_data b)) arrays))).
Proof.
  destruct arrays as [|a rest]; [done|]. intros _ Hall.
  apply Forall_cons in Hall as [Ha Hrest]. simpl.
  replace (forallb _ rest) with true; [now rewrite Ha|].
  symmetry. apply forallb_forall. intros b Hb.
  apply bool_decide_eq_true. rewrite Ha. symmetry.
  rewrite Forall_forall in Hrest. apply Hrest. now apply list_elem_of_In.
Qed.

(** *** The loop *)

Lemma buffers_snoc (buf : list (plot_tuple F TS)) name ts image :
  map tuple_name buf ++ [name] = map tuple_name (buf ++ [(name, ts, image)]) /\
  map tuple_ts buf ++ [ts] = map tuple_ts (buf ++ [(name, ts, image)]) /\
  map tuple_image buf ++ [image] = map tuple_image (buf ++ [(name, ts, image)]).
Proof. now rewrite !map_app. Qed.

(** The batches cover a prefix of the buffered and pending tuples, group
    by group and in order, and all of them when the generator returns. *)
Lemma run_loop_cover (pending : list (plot_tuple F TS)) : forall bs buf index out e,
  run pending bs (map tuple_name buf) (map tuple_ts buf) (map tuple_image buf) index
    = (out, e) ->
  exists groups leftover,
    buf ++ pending = concat groups ++ leftover /\
    Forall2 batch_of groups out /\
    (e = StopIteration -> leftover = []).
Proof.
  induction pending as [|[[name ts] image] rest IH]; intros bs buf index out e Hrun.
  - simpl in Hrun. destruct buf as [|t buf'].
    + injection Hrun as <- <-. exists [], []. now split; [|split; [constructor|]].
    + cbn [map] in Hrun.
      destruct (np_stack (tuple_image t :: map tuple_image buf')) as [a|e'] eqn:Hst.
      * injection Hrun as <- <-. exists [t :: buf'], []. split; [|split].
        -- simpl. now rewrite !app_nil_r.
        -- constructor; [|constructor]. now split; [|split; [|split]].
        -- done.
      * injection Hrun as <- <-. exists [], (t :: buf'). split; [|split].
        -- simpl. now rewrite app_nil_r.
        -- constructor.
        -- apply np_stack_raises in Hst. now rewrite Hst.
  - cbn [run_loop] in Hrun.
    destruct (buffers_snoc buf name ts image) as (Hn & Ht & Hi).
    rewrite Hn, Ht, Hi in Hrun.
    destruct (bs =? 0).
    { injection Hrun as <- <-. exists [], (buf ++ (name, ts, image) :: rest).
      now split; [|split; [constructor|]]. }
    destruct ((index + 1) mod bs =? 0).
    + destruct (np_stack _) as [a|e'] eqn:Hst.
      * destruct (run rest bs [] [] [] (index + 1)) as [out' e1] eqn:Hrest.
        injection Hrun as <- <-.
        destruct (IH bs [] (index + 1) out' e1 Hrest) as (groups & leftover & Heq & Hall & Hdone).
        exists ((buf ++ [(name, ts, image)]) :: groups), leftover. split; [|split].
        -- simpl in Heq. simpl. rewrite <- !app_assoc, <- Heq. done.
        -- constructor; [|done]. split; [|now split; [|split]].
           now destruct buf.
        -- done.
      * injection Hrun as <- <-. exists [], (buf ++ (name, ts, image) :: rest).
        split; [done|]. split; [constructor|].
        apply np_stack_raises in Hst. now rewrite Hst.
    + destruct (IH bs (buf ++ [(name, ts, image)]) (index + 1) out e Hrun)
        as (groups & leftover & Heq & Hall & Hdone).
      exists groups, leftover. split; [|done].
      now rewrite <- Heq, <- app_assoc.
Qed.

(** Every batch but the last is full, the last holds at least one tuple. *)
Lemma run_loop_sizes (pending : list (plot_tuple F TS)) : forall bs buf index out e,
  1 <= bs -> 0 <= index -> Z.of_nat (length buf) = index mod bs ->
  run pending bs (map tuple_name buf) (map tuple_ts buf) (map tuple_image buf) index
    = (out, e) ->
  chunked bs (map batch_len out).
Proof.
  induction pending as [|[[name ts] image] rest IH];
    intros bs buf index out e Hbs Hindex Hlen Hrun.
  - simpl in Hrun. destruct buf as [|t buf'].
    + now injection Hrun as <- <-.
    + cbn [map] in Hrun.
      destruct (np_stack _) as [a|e'].
      * injection Hrun as <- <-. cbn.
        rewrite length_map.
        pose proof (Z.mod_pos_bound index bs ltac:(lia)).
        cbn [length] in Hlen. lia.
      * now injection Hrun as <- <-.
  - cbn [run_loop] in Hrun.
    destruct (buffers_snoc buf name ts image) as (Hn & Ht & Hi).
    rewrite Hn, Ht, Hi in Hrun.
    pose proof (mod_succ index bs Hbs Hindex) as Hsucc.
    pose proof (Z.mod_pos_bound index bs ltac:(lia)) as Hbound.
    destruct (Z.eqb_spec bs 0) as [?|_]; [lia|].
    destruct (Z.eqb_spec ((index + 1) mod bs) 0) as [Hz|Hnz].
    + destruct (np_stack _) as [a|e'].
      * destruct (run rest bs [] [] [] (index + 1)) as [out' e1] eqn:Hrest.
        injection Hrun as <- <-. cbn [map].
        apply chunked_cons_full; [done| |].
        -- cbn. rewrite length_map, length_app. cbn [length].
           destruct (Z.eqb_spec (index mod bs + 1) bs); lia.
        -- apply (IH bs [] (index + 1) out' e1); [lia|lia| |done].
           now rewrite Hz.
      * now injection Hrun as <- <-.
    + apply (IH bs (buf ++ [(name, ts, image)]) (index + 1) out e); [lia|lia| |done].
      rewrite length_app. cbn [length].
      destruct (Z.eqb_spec (index mod bs + 1) bs); lia.
Qed.

(** With a usable batch size and images of one shape nothing is raised. *)
Lemma run_loop_returns shp (pending : list (plot_tuple F TS)) : forall bs buf index,
  bs <> 0 ->
  Forall (fun t => nd_shape (tuple_image t) = shp) (buf ++ pending) ->
  (run pending bs (map tuple_name buf) (map tuple_ts buf) (map tuple_image buf) index).2
    = StopIteration.
Proof.
  induction pending as [|[[name ts] image] rest IH]; intros bs buf index Hbs Hall.
  - simpl. destruct buf as [|t buf']; [done|]. cbn [map].
    rewrite app_nil_r in Hall.
    change (tuple_image t :: map tuple_image buf') with (map tuple_image (t :: buf')).
    rewrite (np_stack_uniform shp); [done|done|].
    now apply Forall_fmap.
  - cbn [run_loop].
    destruct (buffers_snoc buf name ts image) as (Hn & Ht & Hi).
    rewrite Hn, Ht, Hi.
    destruct (Z.eqb_spec bs 0) as [?|_]; [done|].
    assert (Hall' : Forall (fun t => nd_shape (tuple_image t) = shp)
                      ((buf ++ [(name, ts, image)]) ++ rest))
      by now rewrite <- app_assoc.
    destruct ((index + 1) mod bs =? 0).
    + rewrite (np_stack_uniform shp).
      * specialize (IH bs [] (index + 1) Hbs). cbn [map app] in IH.
        destruct (run rest bs [] [] [] (index + 1)) as [out' e1].
        apply IH. now apply Forall_app in Hall' as [_ ?].
      * now destruct buf.
      * apply Forall_fmap. now apply Forall_app in Hall' as [? _].
    + now apply IH.
Qed.

(** *** Stepping the generator agrees with draining it *)

Lemma drain_loop (pending : list (plot_tuple F TS)) :
  forall bs names tss imgs index fuel,
  (length pending < fuel)%nat ->
  match loop_from float_to_uint8 pending bs names tss imgs index with
  | (Yield b, g') =>
      match drain float_to_uint8 fuel g' with
      | Some (out, e) => Some (b :: out, e)
      | None => None
      end
  | (Throw e, _) => Some ([], e)
  end = Some (run pending bs names tss imgs index).
Proof.
  induction pending as [|[[name ts] image] rest IH];
    intros bs names tss imgs index fuel Hfuel.
  - simpl. destruct names as [|n names']; [done|].
    destruct (np_stack imgs) as [a|e']; [|done].
    destruct fuel as [|fuel']; [simpl in Hfuel; lia|]. done.
  - cbn [loop_from run_loop].
    destruct (bs =? 0); [done|].
    cbn [length] in Hfuel.
    destruct ((index + 1) mod bs =? 0).
    + destruct (np_stack _) as [a|e']; [|done].
      destruct fuel as [|fuel']; [lia|].
      cbn [drain]. unfold gen_next. cbn [g_pc g_images g_batch_size
        current_name_batch current_ts_batch current_image_batch g_index].
      rewrite (IH bs [] [] [] (index + 1) fuel') by lia.
      now destruct (run rest bs [] [] [] (index + 1)).
    + apply IH. lia.
Qed.

(** Pulling batches one [next()] at a time yields what [list_gen]
    computes, for every number of pulls above the length of the input. *)
Lemma drain_list_gen (images : list (plot_tuple F TS)) bs fuel :
  (length images + 1 < fuel)%nat ->
  drain float_to_uint8 fuel (_batch_images images bs)
    = Some (list_gen float_to_uint8 (_batch_images images bs)).
Proof.
  intros Hfuel. destruct fuel as [|fuel']; [lia|].
  cbn [drain]. unfold gen_next, list_gen, _batch_images.
  cbn [g_pc g_images g_batch_size current_name_batch current_ts_batch
       current_image_batch g_index].
  apply drain_loop. lia.
Qed.

(** *** Consequences for a fresh generator *)

Lemma batch_of_len group (b : batch F TS) :
  batch_of group b -> batch_len b = length group.
Proof. intros (_ & Hn & _). unfold batch_len. now rewrite Hn, length_map. Qed.

Lemma groups_sizes groups (out : list (batch F TS)) :
  Forall2 batch_of groups out -> map batch_len out = map length groups.
Proof.
  induction 1 as [|g b groups out Hb _ IH]; [done|].
  cbn [map]. now rewrite IH, (batch_of_len g b).
Qed.

Lemma groups_names groups (out : list (batch F TS)) :
  Forall2 batch_of groups out ->
  concat (map batch_names out) = map tuple_name (concat groups) /\
  concat (map batch_ts out) = map tuple_ts (concat groups).
Proof.
  induction 1 as [|g b groups out (_ & Hn & Ht & _) _ [IHn IHt]]; [done|].
  cbn [map concat]. now rewrite !map_app, IHn, IHt, Hn, Ht.
Qed.

Lemma sum_list_lengths {A} (groups : list (list A)) :
  sum_list (map length groups) = length (concat groups).
Proof.
  induction groups as [|g groups IH]; [done|].
  cbn [map concat]. rewrite length_app, <- IH. done.
Qed.

Lemma chunked_full bs sizes i n :
  chunked bs sizes -> (i + 1 < length sizes)%nat -> sizes !! i = Some n ->
  Z.of_nat n = bs.
Proof.
  revert i. induction sizes as [|m rest IH]; intros i Hc Hi Hn; [done|].
  destruct rest as [|m' rest']; [cbn in Hi; lia|].
  destruct Hc as [Hm Hc]. destruct i as [|i].
  - now injection Hn as <-.
  - apply (IH i); [done| |done]. cbn [length] in *. lia.
Qed.

Lemma fresh_cover (images : list (plot_tuple F TS)) bs :
  exists groups leftover,
    images = concat groups ++ leftover /\
    Forall2 batch_of groups (list_gen float_to_uint8 (_batch_images images bs)).1 /\
    ((list_gen float_to_uint8 (_batch_images images bs)).2 = StopIteration ->
     leftover = []).
Proof.
  unfold list_gen, _batch_images. cbn [g_pc g_images g_batch_size
    current_name_batch current_ts_batch current_image_batch g_index].
  destruct (run images bs [] [] [] 0) as [out e] eqn:Hrun.
  exact (run_loop_cover images bs [] 0 out e Hrun).
Qed.

Lemma fresh_returns shp (images : list (plot_tuple F TS)) bs :
  bs <> 0 ->
  Forall (fun t => nd_shape (tuple_image t) = shp) images ->
  (list_gen float_to_uint8 (_batch_images images bs)).2 = StopIteration.
Proof.
  intros Hbs Hall. exact (run_loop_returns shp images bs [] 0 Hbs Hall).
Qed.

Lemma fresh_sizes (images : list (plot_tuple F TS)) bs :
  1 <= bs ->
  chunked bs (map batch_len (list_gen float_to_uint8 (_batch_images images bs)).1).
Proof.
  intros Hbs. unfold list_gen, _batch_images. cbn [g_pc g_images g_batch_size
    current_name_batch current_ts_batch current_image_batch g_index].
  destruct (run images bs [] [] [] 0) as [out e] eqn:Hrun.
  apply (run_loop_sizes images bs [] 0 out e); [done|lia| |done].
  now rewrite Z.mod_0_l by lia.
Qed.

(** The generator runs to its end when the batch size is not zero and the
    images share one shape. *)
Lemma batch_images_returns (shp : list nat) (images : list (plot_tuple F TS))
    (batch_size : Z) :
  batch_size <> 0 ->
  Forall (fun t => nd_shape (tuple_image t) = shp) images ->
  (list_gen float_to_uint8 (_batch_images images batch_size)).2 = StopIteration.
Proof. apply fresh_returns. Qed.

(** Without any assumption the identifiers emitted are an initial part of
    the input's, in input order. *)
Lemma batch_images_order_prefix (images : list (plot_tuple F TS)) (batch_size : Z) :
  let batches := (list_gen float_to_uint8 (_batch_images images batch_size)).1 in
  concat (map batch_names batches) `prefix_of` map tuple_name images /\
  concat (map batch_ts batches) `prefix_of` map tuple_ts images.
Proof.
  intros batches.
  destruct (fresh_cover images batch_size) as (groups & leftover & Heq & Hall & _).
  fold batches in Hall.
  destruct (groups_names groups batches Hall) as [Hn Ht].
  rewrite Hn, Ht. rewrite Heq at 1 2. rewrite !map_app.
  split; eexists; reflexivity.
Qed.

(** The cast stores a value of an unsigned byte. *)
Lemma to_uint8_range s :
  (forall f, 0 <= float_to_uint8 f < 256) -> is_uint8 (to_uint8 float_to_uint8 s).
Proof.
  intros Hrange. destruct s as [z|f]; simpl; [|apply Hrange].
  apply Z.mod_pos_bound. lia.
Qed.

(** C9. Whatever the dtypes of the input images and whatever the batch
    size, the batches emitted stand for successive groups of input
    tuples, and the image array of each batch has dtype [uint8] and holds
    the elements of its group's images, in order, each cast to an
    unsigned byte: an integer [z] is stored as [z mod 2^8]. *)
Theorem batch_images_uint8 (images : list (plot_tuple F TS)) (batch_size : Z) :
  (forall f, 0 <= float_to_uint8 f < 256) ->
  exists groups,
    concat groups `prefix_of` images /\
    Forall2 (fun group b =>
        nd_dtype (batch_images b) = uint8 /\
        nd_data (batch_images b)
          = map (to_uint8 float_to_uint8)
              (concat (map (fun t => nd_data (tuple_image t)) group)) /\
        Forall is_uint8 (nd_data (batch_images b)))
      groups (list_gen float_to_uint8 (_batch_images images batch_size)).1 /\
    (forall z, to_uint8 float_to_uint8 (SInt z) = SInt (z mod 2 ^ 8)).
Proof.
  intros Hrange.
  destruct (fresh_cover images batch_size) as (groups & leftover & Heq & Hall & _).
  exists groups. split; [now exists leftover|]. split; [|done].
  clear Heq.
  induction Hall as [|g b groups' out (Hne & _ & _ & Hst) _ IH]; [constructor|].
  constructor; [|done].
  apply np_stack_ok in Hst as (Hdt & _ & Hdata); [|now destruct g].
  assert (Hd : nd_data (batch_images b)
               = map (to_uint8 float_to_uint8)
                   (concat (map (fun t => nd_data (tuple_image t)) g))).
  { rewrite Hdata. clear. induction g as [|t g IH]; [done|].
    cbn [map concat]. now rewrite map_app, IH. }
  split; [done|]. split; [done|].
  rewrite Hd. apply Forall_fmap, Forall_forall. intros s _.
  now apply to_uint8_range.
Qed.

End BatchingProofs.

(** ** The batching generator on sample streams *)

(** Five tuples in batches of two: groups [a,b], [c,d], [e]. *)
Example five_by_two :
  list_gen Sample.cast (_batch_images Sample.five 2) =
    ([(["a"; "b"]%string, [0; 1],
       NdArray uint8 [2; 1; 1; 3]%nat
         [SInt 44; SInt 255; SInt 7; SInt 1; SInt 2; SInt 3]);
      (["c"; "d"]%string, [2; 3],
       NdArray uint8 [2; 1; 1; 3]%nat
         [SInt 255; SInt 0; SInt 1; SInt 0; SInt 0; SInt 0]);
      (["e"]%string, [4],
       NdArray uint8 [1; 1; 1; 3]%nat [SInt 9; SInt 8; SInt 7])],
     StopIteration).
Proof. reflexivity. Qed.

(** One tuple, default batch size: one batch of one. *)
Example one_by_256 :
  (list_gen Sample.cast (_batch_images (take 1 Sample.five) 256)).1 =
    [(["a"]%string, [0], NdArray uint8 [1; 1; 1; 3]%nat [SInt 44; SInt 255; SInt 7])].
Proof. reflexivity. Qed.

(** Images that cannot be stacked end the iteration with [ValueError]. *)
Example ragged_raises :
  list_gen Sample.cast (_batch_images Sample.ragged 2) = ([], ValueError).
Proof. reflexivity. Qed.

(** A batch size of zero ends it with [ZeroDivisionError]. *)
Example zero_batch_size_raises :
  list_gen Sample.cast (_batch_images Sample.five 0) = ([], ZeroDivisionError).
Proof. reflexivity. Qed.

(** C1 as the spec words it fails on a stream of two images of different
    shapes with batches of two: stacking raises, no batch is emitted,
    where [ceil (2 / 2)] is one. *)
Lemma batch_images_count_ragged :
  list_gen Sample.cast (_batch_images Sample.ragged 2) = ([], ValueError) /\
  Z.of_nat (length (list_gen Sample.cast (_batch_images Sample.ragged 2)).1)
    <> ceil_div (Z.of_nat (length Sample.ragged)) 2.
Proof. split; [reflexivity|]. vm_compute. discriminate. Qed.

Lemma batch_images_uint8_witness :
  exists groups : list (list (plot_tuple Z Z)),
    concat groups `prefix_of` Sample.five.
Proof.
  destruct (batch_images_uint8 Sample.cast Sample.five 2) as (groups & Hpre & _).
  - intros f. apply Z.mod_pos_bound. lia.
  - exists groups. exact Hpre.
Defined.


(** ** Python strings *)

Section Strings.

Lemma append_cons c s t : String c s +:+ t = String c (s +:+ t).
Proof. reflexivity. Qed.

Lemma append_nil t : EmptyString +:+ t = t.
Proof. reflexivity. Qed.

Lemma prefix_spec n h : String.prefix n h = true <-> exists post, h = n +:+ post.
Proof.
  revert h. induction n as [|c n IH]; intros h.
  - destruct h; simpl; split; eauto.
  - destruct h as [|d h]; simpl.
    + split; [discriminate|]. intros [post Hpost]. discriminate.
    + destruct (Ascii.ascii_dec c d) as [->|Hne].
      * rewrite IH. split; intros [post Hpost]; exists post; rewrite ?append_cons in *; congruence.
      * split; [discriminate|]. intros [post Hpost]. rewrite append_cons in Hpost. congruence.
Qed.

Lemma py_in_spec n h :
  py_in n h = true <-> exists pre post, h = pre +:+ n +:+ post.
Proof.
  induction h as [|d h IH]; cbn [py_in].
  - rewrite orb_false_r, prefix_spec. split.
    + intros [post Hpost]. exists EmptyString, post. done.
    + intros (pre & post & Heq). destruct pre; [|discriminate]. eauto.
  - rewrite orb_true_iff, prefix_spec, IH. split.
    + intros [[post Hpost]|(pre & post & Hpost)].
      * exists EmptyString, post. done.
      * exists (String d pre), post. rewrite append_cons. congruence.
    + intros (pre & post & Heq). destruct pre as [|c pre].
      * left. eauto.
      * right. rewrite append_cons in Heq. injection Heq as -> ->. eauto.
Qed.

Lemma no_sep_tail sep c s : no_sep sep (String c s) -> c <> sep /\ no_sep sep s.
Proof.
  intros H. split.
  - intros ->. apply (H EmptyString s). done.
  - intros pre post ->. apply (H (String c pre) post). done.
Qed.

Lemma py_split_no_sep sep s : no_sep sep s -> py_split sep s = [s].
Proof.
  induction s as [|c s IH]; intros H; [done|].
  apply no_sep_tail in H as [Hc Hs]. simpl.
  rewrite (proj2 (Ascii.eqb_neq c sep) Hc), (IH Hs). done.
Qed.

Lemma py_split_app sep s t :
  no_sep sep t ->
  exists init lst,
    py_split sep s = init ++ [lst] /\ py_split sep (s +:+ t) = init ++ [lst +:+ t].
Proof.
  intros Ht. induction s as [|c s (init & lst & IH1 & IH2)].
  - exists [], EmptyString. split; [done|]. simpl. by apply py_split_no_sep.
  - simpl. destruct (Ascii.eqb c sep).
    + exists (EmptyString :: init), lst. rewrite IH1, IH2. done.
    + rewrite IH1, IH2. destruct init as [|i init].
      * exists [], (String c lst). done.
      * exists (String c i :: init), lst. done.
Qed.

Lemma py_last_snoc init lst : py_last (init ++ [lst]) = lst.
Proof. unfold py_last. by rewrite last_snoc. Qed.

Lemma length_append s t : String.length (s +:+ t) = (String.length s + String.length t)%nat.
Proof. induction s; rewrite ?append_cons, ?append_nil; simpl; congruence. Qed.

Lemma substring_append s t : String.substring 0 (String.length s) (s +:+ t) = s.
Proof.
  induction s as [|c s IH]; rewrite ?append_cons, ?append_nil; simpl.
  - by destruct t.
  - by rewrite IH.
Qed.

Lemma py_drop_end_append s t : py_drop_end (String.length t) (s +:+ t) = s.
Proof.
  unfold py_drop_end. rewrite length_append.
  replace (String.length s + String.length t - String.length t)%nat
    with (String.length s) by lia.
  apply substring_append.
Qed.

Lemma no_slash_colon0 : no_sep "/"%char ":0".
Proof.
  intros pre post H. destruct pre as [|c pre]; [discriminate|].
  injection H as _ H. destruct pre as [|c' pre]; [discriminate|].
  injection H as _ H. by destruct pre.
Qed.

Lemma label_of_tensor_name name :
  py_drop_end 2 (py_last (py_split "/"%char (name +:+ ":0"))) = trailing_segment name.
Proof.
  destruct (py_split_app "/"%char name ":0" no_slash_colon0) as (init & lst & H1 & H2).
  unfold trailing_segment. rewrite H1, H2, !py_last_snoc.
  apply (py_drop_end_append lst ":0").
Qed.

Lemma py_split_nonempty sep s : py_split sep s <> [].
Proof.
  destruct s as [|c s]; [done|]. simpl.
  destruct (Ascii.eqb c sep); [done|]. by destruct (py_split sep s).
Qed.

Lemma py_split_shape sep s :
  exists init lst,
    py_split sep s = init ++ [lst] /\ no_sep sep lst /\
    (init = [] /\ s = lst \/ init <> [] /\ exists pre, s = pre +:+ String sep lst).
Proof.
  induction s as [|c s (init & lst & Hsplit & Hlst & Hs)].
  - exists [], EmptyString. split; [done|]. split; [|by left].
    intros pre post H. by destruct pre.
  - cbn [py_split]. rewrite Hsplit. destruct (Ascii.eqb_spec c sep) as [->|Hc].
    + exists (EmptyString :: init), lst. split; [done|]. split; [done|]. right. split; [done|].
      destruct Hs as [[_ ->]|[_ [pre ->]]].
      * by exists EmptyString.
      * by exists (String sep pre).
    + destruct init as [|i init].
      * exists [], (String c lst). split; [done|].
        destruct Hs as [[_ ->]|[? _]]; [|done]. split; [|by left].
        intros pre post H. destruct pre as [|c' pre].
        -- rewrite append_nil in H. congruence.
        -- rewrite append_cons in H. injection H as _ H. by apply (Hlst pre post).
      * exists (String c i :: init), lst. split; [done|]. split; [done|].
        right. split; [done|]. destruct Hs as [[? _]|[_ [pre ->]]]; [done|].
        by exists (String c pre).
Qed.

Lemma trailing_segment_spec name :
  no_sep "/"%char (trailing_segment name) /\
  (name = trailing_segment name \/
   exists pre, name = pre +:+ String "/" (trailing_segment name)).
Proof.
  destruct (py_split_shape "/"%char name) as (init & lst & Hsplit & Hlst & Hs).
  unfold trailing_segment. rewrite Hsplit, py_last_snoc. split; [done|].
  destruct Hs as [[_ ->]|[_ Hpre]]; [by left|by right].
Qed.

End Strings.

(** ** Layer discovery in the graph-based backend *)

Section LayerDiscovery.

Import TensorFlowExtractor.

Lemma get_tensor_by_name_ok ops op :
  op ∈ ops -> (0 < op_outputs op)%nat ->
  get_tensor_by_name ops (tensor_of op) = Ok (NodeOutput (tensor_of op)).
Proof.
  intros Hin Hout. unfold get_tensor_by_name.
  replace (existsb _ ops) with true; [done|].
  symmetry. apply existsb_exists. exists op. split; [by apply list_elem_of_In|].
  apply andb_true_iff. split; [apply String.eqb_refl|by apply Nat.ltb_lt].
Qed.

Lemma layer_dict_of_ok ops kept : forall acc,
  Forall (fun op => op ∈ ops /\ (0 < op_outputs op)%nat) kept ->
  layer_dict_of ops (map tensor_of kept) acc = Ok (foldl add_layer acc kept).
Proof.
  induction kept as [|op kept IH]; intros acc Hall; [done|].
  apply Forall_cons in Hall as [[Hin Hout] Hall].
  cbn [map layer_dict_of]. rewrite (get_tensor_by_name_ok ops op Hin Hout).
  unfold mbind, result_bind.
  change (py_drop_end 2 (py_last (py_split "/" (tensor_of op))))
    with (py_drop_end 2 (py_last (py_split "/" (op_name op +:+ ":0")))).
  rewrite label_of_tensor_name. by apply IH.
Qed.

Lemma foldl_add_layer_lookup kept : forall acc label t,
  foldl add_layer acc kept !! label = Some t ->
  acc !! label = Some t \/
  exists op, op ∈ kept /\ trailing_segment (op_name op) = label /\
             t = NodeOutput (tensor_of op).
Proof.
  induction kept as [|op kept IH]; intros acc label t Hl; [by left|].
  cbn [foldl] in Hl. apply IH in Hl as [Hl|(op' & Hin & Hseg & Ht)].
  - unfold add_layer in Hl. apply lookup_insert_Some in Hl as [[<- <-]|[_ Hl]].
    + right. exists op. split; [apply list_elem_of_here|done].
    + by left.
  - right. exists op'. split; [by apply list_elem_of_further|done].
Qed.

Lemma foldl_add_layer_keys kept : forall acc label,
  is_Some (acc !! label) \/
  (exists op, op ∈ kept /\ trailing_segment (op_name op) = label) ->
  is_Some (foldl add_layer acc kept !! label).
Proof.
  induction kept as [|op kept IH]; intros acc label H.
  - destruct H as [H|(op & Hin & _)]; [done|]. by apply elem_of_nil in Hin.
  - cbn [foldl]. apply IH. destruct H as [H|(op' & Hin & Hseg)].
    + left. unfold add_layer. rewrite lookup_insert_is_Some. 
      destruct (decide (trailing_segment (op_name op) = label)); auto.
    + apply elem_of_cons in Hin as [->|Hin].
      * left. unfold add_layer. rewrite Hseg. rewrite lookup_insert_eq. eauto.
      * right. eauto.
Qed.

(** C5, as the code has it. For a frozen graph that has a node [input]
    with an output, at least one node that is kept, and an output on
    every node that is kept, layer discovery returns the placeholder
    [extractor/input:0] and a dict whose keys are exactly the trailing
    segments of the names of the kept nodes, each mapped to the first
    output of such a node; a node is dropped exactly when its name
    contains one of the listed strings anywhere. *)
Theorem layer_discovery (graph_def : list operation) :
  let ops := __load_graph graph_def in
  let kept := filter (fun op => __ignore_tensor (op_name op) = false) ops in
  kept <> [] ->
  Forall (fun op => (0 < op_outputs op)%nat) kept ->
  (exists op, op ∈ graph_def /\ op_name op = "input"%string /\ (0 < op_outputs op)%nat) ->
  exists layers,
    __input_and_layers ops = Ok (NodeOutput "extractor/input:0", layers) /\
    (forall label,
       is_Some (layers !! label) <->
       exists op, op ∈ ops /\ __ignore_tensor (op_name op) = false /\
                  trailing_segment (op_name op) = label) /\
    (forall label t,
       layers !! label = Some t ->
       exists op, op ∈ ops /\ __ignore_tensor (op_name op) = false /\
                  trailing_segment (op_name op) = label /\
                  t = NodeOutput (op_name op +:+ ":0")) /\
    (forall name,
       __ignore_tensor name = true <->
       exists ending pre post,
         ending ∈ ignored_tensor_endings /\ name = pre +:+ ending +:+ post).
Proof.
  intros ops kept Hne Hout (inp & Hinp & Hname & Hinpout).
  assert (Hfilter : forall op, op ∈ kept <->
            __ignore_tensor (op_name op) = false /\ op ∈ ops)
    by (intros op; exact (list_elem_of_filter
          (fun op => __ignore_tensor (op_name op) = false) ops op)).
  assert (Hkept : Forall (fun op => op ∈ ops /\ (0 < op_outputs op)%nat) kept).
  { apply Forall_forall. intros op Hop. split.
    - by apply Hfilter in Hop as [_ ?].
    - rewrite Forall_forall in Hout. by apply Hout. }
  assert (Hrun : __input_and_layers ops
                 = Ok (NodeOutput "extractor/input:0", foldl add_layer ∅ kept)).
  { unfold __input_and_layers. fold kept. fold tensor_of.
    pose proof (layer_dict_of_ok ops kept ∅ Hkept) as Hdict.
    clearbody kept. destruct kept as [|op0 kept']; [done|].
    assert (Hop0 : op0 ∈ ops) by (apply Hfilter, list_elem_of_here).
    apply list_elem_of_fmap in Hop0 as (raw & -> & _).
    cbn [map] in Hdict |- *.
    unfold mbind at 1, result_bind at 1.
    change (re_match_prefix _) with (Some "extractor"%string).
    unfold mbind at 1, result_bind at 1.
    rewrite Hdict. unfold mbind at 1, result_bind at 1.
    assert (Hin' : Operation ("extractor/" +:+ op_name inp) (op_outputs inp) ∈ ops).
    { apply list_elem_of_fmap. by exists inp. }
    pose proof (get_tensor_by_name_ok ops _ Hin' Hinpout) as Hget.
    unfold tensor_of in Hget. cbn [op_name] in Hget. rewrite Hname in Hget.
    change ("extractor" +:+ "/input:0") with (("extractor/" +:+ "input") +:+ ":0").
    by rewrite Hget. }
  exists (foldl add_layer ∅ kept). split; [done|]. split; [|split].
  - intros label. split.
    + intros [t Ht]. apply foldl_add_layer_lookup in Ht as [Ht|(op & Hin & Hseg & _)].
      * by rewrite lookup_empty in Ht.
      * apply Hfilter in Hin as [Hign Hin]. eauto.
    + intros (op & Hin & Hign & Hseg). apply foldl_add_layer_keys. right.
      exists op. split; [|done]. by apply Hfilter.
  - intros label t Ht.
    apply foldl_add_layer_lookup in Ht as [Ht|(op & Hin & Hseg & ->)].
    + by rewrite lookup_empty in Ht.
    + apply Hfilter in Hin as [Hign Hin]. exists op. done.
  - intros name. unfold __ignore_tensor. rewrite existsb_exists. split.
    + intros (ending & Hin & Hsub). apply py_in_spec in Hsub as (pre & post & ->).
      exists ending, pre, post. split; [by apply list_elem_of_In|done].
    + intros (ending & pre & post & Hin & ->). exists ending.
      split; [by apply list_elem_of_In|]. apply py_in_spec. eauto.
Qed.

End LayerDiscovery.

(** ** Preprocessing in the legacy-network backend *)



Section Preprocess.

Import CaffeExtractor.

Context {F TS : Type} (caffe : @caffe_module F).







End Preprocess.


(** ** Extraction leaves the batch alone *)

Section Triples.

Local Open Scope nat_scope.

Context {F TS : Type}.

Lemma triple_bind {A B} P (m : M F TS A) (k : A -> M F TS B) Q R E :
  triple P m Q E -> (forall a, triple (Q a) (k a) R E) ->
  triple P (m ≫= k) R E.
Proof.
  intros Hm Hk h HP. specialize (Hm h HP).
  unfold mbind, M_bind, mbind_M. destruct (m h) as [[a|e] h']; [|done].
  by apply Hk.
Qed.

Lemma triple_weaken {A} (P P' : store F TS -> Prop) (m : M F TS A) (Q Q' : A -> store F TS -> Prop) E :
  triple P' m Q' E -> (forall h, P h -> P' h) -> (forall a h, Q' a h -> Q a h) ->
  triple P m Q E.
Proof.
  intros Hm HP HQ h Hh. specialize (Hm h (HP h Hh)).
  destruct (m h) as [[a|e] h']; auto.
Qed.

Lemma triple_ret {A} (P : store F TS -> Prop) (a : A) E :
  triple P (mret a) (fun r h => r = a /\ P h) E.
Proof. intros h HP. by split. Qed.

Lemma triple_raise {A} (P : store F TS -> Prop) e (Q : A -> _) :
  triple P (raise e) Q P.
Proof. intros h HP. done. Qed.

Lemma triple_lift {A} (P : store F TS -> Prop) (r : result A) :
  triple P (lift r) (fun a h => r = Ok a /\ P h) P.
Proof. intros h HP. unfold lift. by destruct r. Qed.

Lemma frame_refl W (h0 : store F TS) : frame W h0 h0.
Proof. by split. Qed.

Lemma frame_alloc W (h0 h : store F TS) o :
  frame W h0 h -> frame W h0 (h ++ [o]).
Proof.
  intros [Hlen Hl]. split; [rewrite length_app; lia|].
  intros l Hlt HW. rewrite lookup_app_l by lia. by apply Hl.
Qed.

Lemma frame_write W (h0 h : store F TS) l o :
  frame W h0 h -> length h0 <= l \/ W l -> frame W h0 (<[l := o]> h).
Proof.
  intros [Hlen Hl] Hw. split; [by rewrite length_insert|].
  intros l' Hlt HW. rewrite list_lookup_insert_ne; [by apply Hl|].
  intros ->. destruct Hw; [lia|done].
Qed.

Section Framed.
Variable W : loc -> Prop.
Variable h0 : store F TS.
Abbreviation I := (frame W h0).
Abbreviation safe := (keeps W h0).

Lemma triple_load l :
  triple I (load l) (fun o h => I h /\ h !! l = Some o) I.
Proof. intros h HI. unfold load. destruct (h !! l) eqn:E; [split|]; assumption. Qed.

Lemma triple_alloc o :
  triple I (alloc o) (fun l h => I h /\ (length h0 <= l)%nat /\ h !! l = Some o) I.
Proof.
  intros h HI. unfold alloc. split; [by apply frame_alloc|].
  split; [by destruct HI|]. rewrite lookup_app_r by done.
  by rewrite Nat.sub_diag.
Qed.

Lemma triple_write l o :
  (length h0 <= l)%nat \/ W l -> triple I (write l o) (fun _ h => I h) I.
Proof. intros Hw h HI. by apply frame_write. Qed.

Lemma triple_load_array l :
  triple I (load_array l) (fun a h => I h /\ h !! l = Some (OArray a)) I.
Proof.
  unfold load_array. eapply triple_bind; [apply triple_load|].
  intros [names|tss|a]; try (intros h [HI _]; exact HI).
  intros h [HI Hl]. done.
Qed.

Lemma triple_load_names l :
  triple I (load_names l) (fun _ h => I h) I.
Proof.
  unfold load_names. eapply triple_bind; [apply triple_load|].
  intros [names|tss|a] h [HI _]; exact HI.
Qed.

Lemma triple_load_times l :
  triple I (load_times l) (fun _ h => I h) I.
Proof.
  unfold load_times. eapply triple_bind; [apply triple_load|].
  intros [names|tss|a] h [HI _]; exact HI.
Qed.

Lemma keeps_bind {A B} (m : M F TS A) (k : A -> M F TS B) :
  safe m -> (forall a, safe (k a)) -> safe (m ≫= k).
Proof. intros Hm Hk. eapply triple_bind; [apply Hm|apply Hk]. Qed.

Lemma keeps_ret {A} (a : A) : safe (mret a).
Proof. intros h HI. done. Qed.

Lemma keeps_raise {A} e : safe (raise e : M F TS A).
Proof. intros h HI. done. Qed.

Lemma keeps_lift {A} (r : result A) : safe (lift r).
Proof. intros h HI. unfold lift. by destruct r. Qed.

Lemma keeps_alloc o : safe (alloc o).
Proof. intros h HI. by apply frame_alloc. Qed.

Lemma keeps_load_array l : safe (load_array l).
Proof. eapply triple_weaken; [apply triple_load_array|done|]. by intros a h [? _]. Qed.

Lemma keeps_zip_features n t f : safe (zip_features n t f).
Proof.
  unfold zip_features.
  apply keeps_bind; [apply triple_load_names|intros names].
  apply keeps_bind; [apply triple_load_times|intros tss].
  apply keeps_bind; [apply keeps_load_array|intros a].
  apply keeps_bind; [apply keeps_lift|intros rows].
  apply keeps_ret.
Qed.

Lemma keeps_tf (self : TensorFlowExtractor.t) tuple_batch :
  safe (TensorFlowExtractor.extract_features self tuple_batch).
Proof.
  destruct tuple_batch as [[name_batch ts_batch] image_batch].
  unfold TensorFlowExtractor.extract_features, TensorFlowExtractor.session_run.
  apply keeps_bind; [|intros f; apply keeps_zip_features].
  apply keeps_bind; [apply keeps_load_array|intros a].
  apply keeps_bind; [apply keeps_lift|intros v]. apply keeps_alloc.
Qed.

Lemma keeps_hub (self : TensorflowHubExtractor.t) tuple_batch :
  safe (TensorflowHubExtractor.extract_features self tuple_batch).
Proof.
  destruct tuple_batch as [[name_batch ts_batch] image_batch].
  unfold TensorflowHubExtractor.extract_features.
  apply keeps_bind; [apply keeps_lift|intros s].
  apply keeps_bind; [apply keeps_lift|intros f].
  apply keeps_bind; [apply keeps_load_array|intros a].
  apply keeps_bind; [apply keeps_lift|intros v].
  apply keeps_bind; [apply keeps_alloc|intros fb]. apply keeps_zip_features.
Qed.

Lemma triple_resize tf x target_size :
  triple I (KerasExtractor.__resize tf x target_size)
    (fun x' h => I h /\ (x' = x \/ (length h0 <= x')%nat)) I.
Proof.
  unfold KerasExtractor.__resize.
  eapply triple_bind; [apply keeps_load_array|intros a]. cbn beta.
  destruct (nd_shape a) as [|? [|hh [|ww ?]]]; try apply triple_raise.
  destruct (decide ((hh, ww) = target_size)).
  - eapply triple_weaken; [apply triple_ret|done|]. intros x' h [-> HI]. auto.
  - eapply triple_bind; [apply keeps_lift|intros rows].
    eapply triple_bind; [apply keeps_lift|intros resized].
    eapply triple_bind; [apply keeps_lift|intros stacked].
    eapply triple_weaken; [apply triple_alloc|done|]. intros x' h (HI & Hx & _). auto.
Qed.

Lemma keeps_call_preprocess tf p x a0 :
  h0 !! x = Some (OArray a0) -> ~ W x -> is_floating (nd_dtype a0) = false ->
  forall x', x' = x \/ (length h0 <= x')%nat ->
  safe (KerasExtractor.call_preprocess tf p x').
Proof.
  intros Hx0 HWx Ha0 x' Hx'. destruct p as [|key|]; cbn [KerasExtractor.call_preprocess].
  - unfold KerasExtractor.__preprocess_vgg.
    apply keeps_bind; [apply keeps_load_array|intros a].
    apply keeps_bind; [apply keeps_lift|intros reversed]. apply keeps_alloc.
  - eapply triple_bind; [apply triple_load_array|intros a]. cbn beta.
    destruct (is_floating (nd_dtype a)) eqn:Hfl.
    + intros h [HI Hl].
      assert (Hfresh : (length h0 <= x')%nat).
      { destruct Hx' as [->|?]; [|done]. exfalso.
        destruct (decide (x < length h0)%nat) as [Hlt|Hge].
        - destruct HI as [_ HI]. rewrite (HI x Hlt HWx), Hx0 in Hl.
          injection Hl as <-. congruence.
        - apply lookup_lt_Some in Hx0. lia. }
      revert h HI Hl. 
      cut (safe (write x' (OArray (KerasExtractor.preprocess_residue tf key a))
                  ≫= fun _ => alloc (OArray (KerasExtractor.preprocess_value tf key a)))).
      { intros Hk h HI _. by apply Hk. }
      apply keeps_bind; [apply triple_write; auto|intros _; apply keeps_alloc].
    + intros h [HI _]. by apply keeps_alloc.
  - apply keeps_raise.
Qed.

Lemma keeps_keras (self : KerasExtractor.t) name_batch ts_batch image_batch a0 :
  h0 !! image_batch = Some (OArray a0) -> ~ W image_batch ->
  is_floating (nd_dtype a0) = false ->
  safe (KerasExtractor.extract_features self (name_batch, ts_batch, image_batch)).
Proof.
  intros Hx0 HWx Ha0. unfold KerasExtractor.extract_features.
  eapply triple_bind; [apply triple_resize|intros x]. cbn beta.
  intros h [HI Hx]. revert h HI.
  change (safe (KerasExtractor.call_preprocess (KerasExtractor.tf self)
                   (KerasExtractor.preprocess self) x ≫= fun image_batch0 =>
                 KerasExtractor.predict self image_batch0 ≫= fun feature_batch =>
                 load_array feature_batch ≫= fun a =>
                 lift (np_flatten_rows a) ≫= fun flat =>
                 alloc (OArray flat) ≫= fun feature_batch0 =>
                 zip_features name_batch ts_batch feature_batch0)).
  apply keeps_bind; [by apply (keeps_call_preprocess _ _ image_batch a0)|intros y].
  apply keeps_bind.
  { unfold KerasExtractor.predict.
    apply keeps_bind; [apply keeps_load_array|intros a].
    apply keeps_bind; [apply keeps_lift|intros v]. apply keeps_alloc. }
  intros fb.
  apply keeps_bind; [apply keeps_load_array|intros a].
  apply keeps_bind; [apply keeps_lift|intros flat].
  apply keeps_bind; [apply keeps_alloc|intros fb']. apply keeps_zip_features.
Qed.

Lemma keeps_write_owned l o : W l -> safe (write l o).
Proof. intros HW. apply triple_write. auto. Qed.

Lemma keeps_lift_bind {A B} (r : result A) (k : A -> M F TS B) :
  (forall a, r = Ok a -> safe (k a)) -> safe (lift r ≫= k).
Proof.
  intros Hk. eapply triple_bind; [apply triple_lift|intros a].
  intros h [Hr HI]. by apply Hk.
Qed.

Lemma keeps_forward (n : CaffeExtractor.net) fns data :
  (forall name l, CaffeExtractor.blob n name = Ok l -> W l) ->
  safe (CaffeExtractor.forward n fns data).
Proof.
  intros Hown. induction fns as [|[name f] fns IH]; cbn [CaffeExtractor.forward].
  - apply keeps_ret.
  - apply keeps_lift_bind. intros l Hl.
    apply keeps_bind; [|intros _; apply IH].
    apply keeps_write_owned. by apply (Hown name).
Qed.

Lemma keeps_caffe (self : CaffeExtractor.t) tuple_batch :
  (forall name l, CaffeExtractor.blob (CaffeExtractor.self_net self) name = Ok l -> W l) ->
  safe (CaffeExtractor.extract_features self tuple_batch).
Proof.
  intros Hown. destruct tuple_batch as [[name_batch ts_batch] image_batch].
  unfold CaffeExtractor.extract_features.
  apply keeps_lift_bind. intros data Hdata.
  apply keeps_bind; [apply keeps_load_array|intros d].
  apply keeps_bind; [apply keeps_load_array|intros batch].
  destruct (nd_shape d) as [|? [|c [|hh [|ww [|? ?]]]]]; try apply keeps_raise.
  destruct (nd_shape batch) as [|nb ?]; try apply keeps_raise.
  apply keeps_bind; [apply keeps_write_owned; by apply (Hown "data"%string)|intros _].
  apply keeps_bind; [apply keeps_lift|intros rows].
  apply keeps_bind; [apply keeps_lift|intros imgs].
  apply keeps_bind; [apply keeps_lift|intros stacked].
  apply keeps_bind.
  { destruct (decide _); [|apply keeps_raise].
    apply keeps_write_owned. by apply (Hown "data"%string). }
  intros _.
  apply keeps_bind; [apply keeps_load_array|intros d'].
  apply keeps_bind; [by apply keeps_forward|intros _].
  apply keeps_lift_bind. intros fb _. apply keeps_zip_features.
Qed.

End Framed.
End Triples.

Section BackendFrames.

Local Open Scope nat_scope.

Context {F TS : Type}.

Lemma assoc_owned name kvs l :
  CaffeExtractor.assoc name kvs = Some l -> l ∈ map snd kvs.
Proof.
  induction kvs as [|[k v] kvs IH]; cbn [CaffeExtractor.assoc map]; [done|].
  destruct (decide (k = name)).
  - intros [= <-]. apply list_elem_of_here.
  - intros H. apply list_elem_of_further. by apply IH.
Qed.

Lemma backend_keeps (b : backend) (h0 : store F TS) name_batch ts_batch image_batch a :
  h0 !! image_batch = Some (OArray a) -> ~ owned b image_batch ->
  is_floating (nd_dtype a) = false ->
  keeps (owned b) h0 (backend_extract b (name_batch, ts_batch, image_batch)).
Proof.
  intros Hi Hown Hfl. destruct b as [self|self|self|self]; cbn [backend_extract].
  - apply keeps_tf.
  - apply keeps_hub.
  - by apply (keeps_keras _ _ self name_batch ts_batch image_batch a).
  - apply keeps_caffe. intros name l Hb. cbn [owned].
    unfold CaffeExtractor.blob in Hb.
    destruct (CaffeExtractor.assoc name _) as [l'|] eqn:Ha; [|done].
    injection Hb as <-. by apply (assoc_owned name).
Qed.

End BackendFrames.

(** ** The shape of the feature records *)

Section Flatten.

Local Open Scope nat_scope.

Context {F TS : Type}.

Lemma flatten_rows_flat (a b : ndarray F) rows :
  flatten_rows a = Ok b -> nd_rows b = Ok rows ->
  Forall (fun r => nd_shape r = [product (tail (nd_shape a))]) rows.
Proof.
  unfold flatten_rows, nd_rows.
  destruct (product (tail (nd_shape a)) =? 0)%nat; [discriminate|].
  destruct (nd_size a mod _ =? 0)%nat; [|discriminate].
  intros [= <-]. cbn [nd_shape]. intros [= <-].
  apply Forall_forall. intros r Hr. apply list_elem_of_fmap in Hr as (i & -> & _). done.
Qed.

Lemma zip_features_rows name_batch ts_batch feature_batch (h h' : store F TS) fs v :
  h !! feature_batch = Some (OArray v) ->
  zip_features name_batch ts_batch feature_batch h = (Ok fs, h') ->
  exists names tss rows,
    h !! name_batch = Some (ONames names) /\ h !! ts_batch = Some (OTimes tss) /\
    nd_rows v = Ok rows /\
    fs = zip_with (fun nt row => (nt.1, nt.2, row)) (zip names tss) rows.
Proof.
  intros Hv. unfold zip_features, load_names, load_times, load_array, load, lift.
  unfold mbind, M_bind, mbind_M, ret, raise.
  destruct (h !! name_batch) as [[names| |]|]; try discriminate.
  destruct (h !! ts_batch) as [[|tss|]|]; try discriminate.
  rewrite Hv. destruct (nd_rows v) as [rows|]; [|discriminate].
  intros [= <- <-]. by exists names, tss, rows.
Qed.

Lemma zip_features_pairs (names : list string) (tss : list TS) (rows : list (ndarray F)) k f :
  zip_with (fun nt row => (nt.1, nt.2, row)) (zip names tss) rows !! k = Some f ->
  names !! k = Some f.1.1 /\ tss !! k = Some f.1.2 /\ rows !! k = Some f.2.
Proof.
  intros Hk. apply lookup_zip_with_Some in Hk as ([n t] & row & -> & Hnt & Hrow).
  apply lookup_zip_with_Some in Hnt as (n' & t' & [= <- <-] & Hn & Ht). done.
Qed.

(** The graph-based backend returns flat vectors of one dimension. *)
Lemma tf_features_flat (self : TensorFlowExtractor.t) tuple_batch (h h' : store F TS) fs t :
  TensorFlowExtractor.features self = TensorFlowExtractor.FlattenRows t ->
  TensorFlowExtractor.extract_features self tuple_batch h = (Ok fs, h') ->
  exists D, Forall (fun f : @FeatureTuple F TS => nd_shape f.2 = [D]) fs.
Proof.
  intros Hfeat. destruct tuple_batch as [[name_batch ts_batch] image_batch].
  unfold TensorFlowExtractor.extract_features, TensorFlowExtractor.session_run.
  rewrite Hfeat. cbn [TensorFlowExtractor.eval_tensor].
  unfold load_array, load, lift, alloc.
  unfold mbind, M_bind, mbind_M, ret, raise.
  destruct (h !! image_batch) as [[| |a]|]; try discriminate.
  destruct (TensorFlowExtractor.eval_tensor _ t a) as [raw|]; [|discriminate].
  unfold result_bind, TensorFlowExtractor.tf_reshape_rows.
  destruct (flatten_rows raw) as [v|] eqn:Hflat; [|discriminate].
  intros Hzip. apply (zip_features_rows _ _ _ _ _ _ v) in Hzip
    as (names & tss & rows & _ & _ & Hrows & ->).
  2:{ rewrite lookup_app_r by done. by rewrite Nat.sub_diag. }
  exists (product (tail (nd_shape raw))).
  pose proof (flatten_rows_flat raw v rows Hflat Hrows) as Hall.
  apply Forall_forall. intros f Hf. apply list_elem_of_lookup in Hf as [k Hk].
  apply zip_features_pairs in Hk as (_ & _ & Hrow).
  rewrite Forall_forall in Hall. apply Hall. by apply list_elem_of_lookup_2 in Hrow.
Qed.

Lemma tf_init_features (images : list (plot_tuple F TS)) model_path layer batch_size gpu self :
  TensorFlowExtractor.__init__ images model_path layer batch_size gpu = Ok self ->
  exists t, TensorFlowExtractor.features self = TensorFlowExtractor.FlattenRows t.
Proof.
  unfold TensorFlowExtractor.__init__. unfold mbind, result_bind.
  destruct (TensorFlowExtractor.__input_and_layers _) as [[input layers]|]; [|discriminate].
  destruct (layers !! layer) as [t|]; [|discriminate].
  intros [= <-]. by exists t.
Qed.

(** So does the named-architecture backend. *)
Lemma keras_features_flat (self : KerasExtractor.t) tuple_batch (h h' : store F TS) fs :
  KerasExtractor.extract_features self tuple_batch h = (Ok fs, h') ->
  exists D, Forall (fun f : @FeatureTuple F TS => nd_shape f.2 = [D]) fs.
Proof.
  destruct tuple_batch as [[name_batch ts_batch] image_batch].
  unfold KerasExtractor.extract_features.
  unfold mbind at 1, M_bind at 1, mbind_M at 1.
  destruct (KerasExtractor.__resize _ _ _ h) as [[x|] h1]; [|discriminate].
  unfold mbind at 1, M_bind at 1, mbind_M at 1.
  destruct (KerasExtractor.call_preprocess _ _ _ h1) as [[y|] h2]; [|discriminate].
  unfold mbind at 1, M_bind at 1, mbind_M at 1.
  destruct (KerasExtractor.predict _ _ h2) as [[fb|] h3]; [|discriminate].
  unfold load_array at 1, load, lift, alloc.
  unfold mbind, M_bind, mbind_M, ret, raise.
  destruct (h3 !! fb) as [[| |raw]|]; try discriminate.
  unfold np_flatten_rows. destruct (tail (nd_shape raw)) as [|d ds] eqn:Htail;
    [discriminate|]. clear Htail.
  destruct (flatten_rows raw) as [v|] eqn:Hflat; [|discriminate].
  intros Hzip. apply (zip_features_rows _ _ _ _ _ _ v) in Hzip
    as (names & tss & rows & _ & _ & Hrows & ->).
  2:{ rewrite lookup_app_r by done. by rewrite Nat.sub_diag. }
  exists (product (tail (nd_shape raw))).
  pose proof (flatten_rows_flat raw v rows Hflat Hrows) as Hall.
  apply Forall_forall. intros f Hf. apply list_elem_of_lookup in Hf as [k Hk].
  apply zip_features_pairs in Hk as (_ & _ & Hrow).
  rewrite Forall_forall in Hall. apply Hall. by apply list_elem_of_lookup_2 in Hrow.
Qed.

End Flatten.

(** ** The constructors and [len] *)

Section Construction.

Context {F TS : Type}.
Variable float_to_uint8 : F -> Z.

(** C10. For an instance of any class of extractors and any store,
    [__len__] raises [TypeError] and leaves the store as it was: it
    applies [len] to the generator held in [self.images]. No store makes
    it return a number. *)
Theorem len_raises_TypeError {Self : Type} `{!Extractor.ExtractorClass F TS Self}
    (self : Self) (h : store F TS) :
  Extractor.__len__ self h = (Raise TypeError, h) /\
  (forall n h', Extractor.__len__ self h <> (Ok n, h')).
Proof.
  split; [reflexivity|]. intros n h'. unfold Extractor.__len__. simpl. discriminate.
Qed.

(** The graph-based constructor rejects an unknown layer with a message
    that names it and lists the known layers in sorted order. *)
Lemma tf_invalid_layer (images : list (plot_tuple F TS))
    (model_path : TensorFlowExtractor.frozen_graph) (layer : string)
    (batch_size : Z) (gpu : bool) input layers :
  TensorFlowExtractor.__input_and_layers
    (TensorFlowExtractor.__load_graph (TensorFlowExtractor.fg_nodes model_path))
    = Ok (input, layers) ->
  layers !! layer = None ->
  exists msg,
    TensorFlowExtractor.__init__ images model_path layer batch_size gpu
      = Raise (AssertionError msg) /\
    msg = ("'" +:+ layer +:+ "' is not a valid layer. Available layers are: "
           +:+ py_repr_list (py_sorted (elements (dom layers))))%string /\
    py_in layer msg = true /\
    Sorted str_le (py_sorted (elements (dom layers))) /\
    py_sorted (elements (dom layers)) ≡ₚ elements (dom layers).
Proof.
  intros Hlayers Hnone. eexists. split; [|split; [reflexivity|]].
  - unfold TensorFlowExtractor.__init__. rewrite Hlayers.
    unfold mbind, result_bind. by rewrite Hnone.
  - split; [|split].
    + apply py_in_spec. exists "'"%string. eexists. reflexivity.
    + apply Sorted_merge_sort. intros a b. unfold str_le.
      destruct (String.leb_total a b) as [->| ->]; [by left|by right].
    + apply merge_sort_Permutation.
Qed.

(** The named-architecture constructor rejects an unknown layer
    too. *)
Lemma keras_invalid_layer tf (images : list (plot_tuple F TS))
    (model_key layer weights_path : string) (batch_size : Z) (gpu : bool)
    build base_model :
  KerasExtractor.models tf model_key = Some (Some build) ->
  build weights_path = Ok base_model ->
  layer ∉ KerasExtractor.km_layers base_model ->
  KerasExtractor.__init__ tf images model_key layer weights_path batch_size gpu
    = Raise (AssertionError
        (KerasExtractor.invalid_layer_message (KerasExtractor.km_layers base_model))).
Proof.
  intros Hmodels Hbuild Hlayer. unfold KerasExtractor.__init__.
  rewrite Hmodels. unfold mbind, result_bind. cbn [from_option].
  rewrite Hbuild. by rewrite decide_False.
Qed.

(** C4, what the prepackaged-module constructor does with a layer its
    module does not have: it returns an instance, with the generator
    untouched and no session; the first [next] pulls a batch and only
    then fails, with [AttributeError]. *)
Theorem hub_absent_layer_accepted (images : list (plot_tuple F TS))
    (model_path : TensorflowHubExtractor.hub_module)
    (layer : string) (batch_size : Z) (gpu : bool) :
  TensorflowHubExtractor.outputs model_path !! layer = None ->
  exists self,
    TensorflowHubExtractor.__init__ images model_path layer batch_size gpu = Ok self /\
    TensorflowHubExtractor.images self = _batch_images images batch_size /\
    TensorflowHubExtractor.session self = None /\
    (forall b g' h,
       gen_next float_to_uint8 (_batch_images images batch_size) = (Yield b, g') ->
       ((Extractor.__next__ float_to_uint8 self).1 h).1 = Raise AttributeError /\
       Extractor.images (Extractor.__next__ float_to_uint8 self).2 = g').
Proof.
  intros Habsent. unfold TensorflowHubExtractor.__init__.
  rewrite Habsent. rewrite decide_False by (intros [? ?]; discriminate).
  eexists. split; [reflexivity|]. split; [reflexivity|]. split; [reflexivity|].
  intros b g' h Hnext. unfold Extractor.__next__.
  cbn [Extractor.images TensorflowHubExtractor.class TensorflowHubExtractor.images].
  rewrite Hnext. split; reflexivity.
Qed.

(** The legacy constructor never looks at the layer: what it returns for
    one layer name it returns for any other, up to the stored name. *)
Lemma caffe_init_ignores_layer caffe (images : list (plot_tuple F TS)) d
    (layer layer' : string) (batch_size : Z) (gpu : bool) (h : store F TS) :
  match CaffeExtractor.__init__ caffe images d layer batch_size gpu h,
        CaffeExtractor.__init__ caffe images d layer' batch_size gpu h with
  | (Ok self, h1), (Ok self', h1') =>
      h1 = h1' /\ CaffeExtractor.layers self = CaffeExtractor.layers self' /\
      CaffeExtractor.layer self = layer /\ CaffeExtractor.layer self' = layer'
  | (Raise e, h1), (Raise e', h1') => e = e' /\ h1 = h1'
  | _, _ => False
  end.
Proof.
  unfold CaffeExtractor.__init__, mbind, M_bind, mbind_M, lift, ret.
  destruct (CaffeExtractor.load_net d h) as [[n|e] h1]; [|by split].
  destruct (CaffeExtractor.blob n "data") as [data|e]; [|by split].
  destruct (load_array data h1) as [[a|e] h2]; [|by split].
  destruct (CaffeExtractor.set_transpose _ _) as [tr|e]; [|by split].
  destruct (CaffeExtractor.set_channel_swap _ _) as [tr'|e]; [|by split].
  by repeat split.
Qed.

End Construction.

(** ** The backends on sample data *)

(** C6 at the named-architecture constructor: the message of the failed
    [assert] does not contain the rejected layer name, and lists the
    layers in the order of the model, which is not sorted. *)
Theorem keras_invalid_layer_message :
  @KerasExtractor.__init__ Z Z Sample.keras Sample.five "vgg16" "nope" "imagenet" 2 true
    = Raise (AssertionError
        "Invalid layer key. Available layers: ['input_1', 'fc2', 'block1_conv1']") /\
  py_in "nope"
    "Invalid layer key. Available layers: ['input_1', 'fc2', 'block1_conv1']" = false /\
  py_sorted ["input_1"; "fc2"; "block1_conv1"]%string
    = ["block1_conv1"; "fc2"; "input_1"]%string.
Proof. vm_compute. done. Qed.

(** The graph-based constructor on the same request. *)
Example tf_invalid_layer_message :
  @TensorFlowExtractor.__init__ Z Z Sample.five Sample.frozen "nope" 2 true
    = Raise (AssertionError
        "'nope' is not a valid layer. Available layers are: ['fc7']").
Proof. vm_compute. done. Qed.

(** C3 at the legacy backend, with features taken at the pooling blob:
    construction and the first [next] succeed, and each feature record
    carries a three-dimensional array, not a flat vector. *)
Theorem caffe_features_not_flat :
  match @CaffeExtractor.__init__ Z Z Sample.caffe Sample.five Sample.net_def
          "pool5" 2 true [] with
  | (Ok self, h) =>
      ((Extractor.__next__ Sample.cast self).1 h).1
        = Ok [("a"%string, 0, NdArray float32 [3; 1; 1]%nat [SFloat 7; SFloat 255; SFloat 44]);
              ("b"%string, 1, NdArray float32 [3; 1; 1]%nat [SFloat 3; SFloat 2; SFloat 1])]
  | _ => False
  end.
Proof. vm_compute. done. Qed.

(** The same network read at its fully connected layer gives flat
    vectors. *)
Example caffe_features_fc7 :
  match @CaffeExtractor.__init__ Z Z Sample.caffe Sample.five Sample.net_def
          "fc7" 2 true [] with
  | (Ok self, h) =>
      ((Extractor.__next__ Sample.cast self).1 h).1
        = Ok [("a"%string, 0, NdArray float32 [1]%nat [SFloat 306]);
              ("b"%string, 1, NdArray float32 [1]%nat [SFloat 6])]
  | _ => False
  end.
Proof. vm_compute. done. Qed.

(** The legacy backend with a layer the network does not have: the
    constructor returns, the failure comes out of the first [next]. *)
Example caffe_absent_layer :
  match @CaffeExtractor.__init__ Z Z Sample.caffe Sample.five Sample.net_def
          "nope" 2 true [] with
  | (Ok self, h) =>
      ((Extractor.__next__ Sample.cast self).1 h).1 = Raise (KeyError "nope") /\
      g_pc (Extractor.images (Extractor.__next__ Sample.cast self).2) = InLoop
  | _ => False
  end.
Proof. vm_compute. done. Qed.

Lemma hub_absent_layer_accepted_witness :
  exists self,
    @TensorflowHubExtractor.__init__ Z Z Sample.five Sample.hub "nope" 2 true = Ok self /\
    TensorflowHubExtractor.session self = None.
Proof.
  destruct (hub_absent_layer_accepted Sample.cast Sample.five Sample.hub "nope" 2 true)
    as (self & Hinit & _ & Hsession & _).
  - reflexivity.
  - exists self. split; [exact Hinit | exact Hsession].
Defined.

(** C5 as the spec words it fails on the sample graph: the node
    [extractor/normalize/Relu] ends in none of the listed strings, yet it
    is dropped, and the dict has no layer [Relu]. *)
Lemma layer_discovery_suffix_counterexample :
  TensorFlowExtractor.ends_in_ignored_suffix "extractor/normalize/Relu" = false /\
  TensorFlowExtractor.__ignore_tensor "extractor/normalize/Relu" = true /\
  exists layers,
    TensorFlowExtractor.__input_and_layers
      (TensorFlowExtractor.__load_graph Sample.graph_def)
      = Ok (TensorFlowExtractor.NodeOutput "extractor/input:0", layers) /\
    layers !! "Relu"%string = None /\
    layers !! "fc7"%string = Some (TensorFlowExtractor.NodeOutput "extractor/fc7/fc7:0").
Proof.
  split; [reflexivity|]. split; [reflexivity|].
  eexists. split; [vm_compute; reflexivity|]. split; reflexivity.
Qed.

Lemma layer_discovery_witness :
  exists layers,
    TensorFlowExtractor.__input_and_layers
      (TensorFlowExtractor.__load_graph Sample.graph_def)
      = Ok (TensorFlowExtractor.NodeOutput "extractor/input:0", layers).
Proof.
  destruct (layer_discovery Sample.graph_def) as (layers & Hrun & _).
  - vm_compute. discriminate.
  - vm_compute. repeat constructor.
  - exists (TensorFlowExtractor.Operation "input" 1). split; [|split].
    + apply list_elem_of_here.
    + reflexivity.
    + simpl. lia.
  - exists layers. exact Hrun.
Defined.



(** An image array of a float dtype, which [_batch_images] never emits,
    is not covered: the library's [preprocess_input] works on it in
    place. *)
Example keras_float_array_overwritten :
  match @KerasExtractor.__init__ Z Z Sample.keras_shifting Sample.five
          "resnet50" "fc2" "imagenet" 2 true with
  | Ok self =>
      (Extractor.extract_features self (0, 1, 2)%nat Sample.float_store).2 !! 2%nat
        = Some (OArray (Sample.shifted Sample.float_batch))
  | Raise _ => False
  end.
Proof. reflexivity. Qed.

(** The sample extractor is what the constructor returns. *)
Example caffe_self_constructed :
  (@CaffeExtractor.__init__ Z Z Sample.caffe Sample.five Sample.net_def "fc7" 2 true []).1
    = Ok Sample.caffe_self.
Proof. reflexivity. Qed.

(** * More about the generator *)

Section BatchingMore.

Context {F TS : Type}.
Variable float_to_uint8 : F -> Z.

Abbreviation np_stack := (np_array_uint8 float_to_uint8).
Abbreviation run := (run_loop float_to_uint8).
Abbreviation batch_of := (batch_of_group float_to_uint8).
Abbreviation batches_of images bs := (list_gen float_to_uint8 (_batch_images images bs)).

Lemma mod_opp_eqb a b : (a mod (- b) =? 0) = (a mod b =? 0).
Proof.
  destruct (Z.eq_dec b 0) as [->|Hb]; [reflexivity|].
  destruct (Z.eqb_spec (a mod b) 0) as [H|H].
  - apply Z.eqb_eq. by apply Z.mod_opp_r_z.
  - apply Z.eqb_neq. intros H'. apply H.
    rewrite <- (Z.opp_involutive b). apply Z.mod_opp_r_z; [lia|done].
Qed.

Lemma run_loop_opp (pending : list (plot_tuple F TS)) : forall bs names tss imgs index,
  run pending (- bs) names tss imgs index = run pending bs names tss imgs index.
Proof.
  induction pending as [|[[name ts] image] rest IH]; intros bs names tss imgs index.
  - reflexivity.
  - cbn [run_loop]. rewrite mod_opp_eqb.
    replace (- bs =? 0) with (bs =? 0)
      by (destruct (Z.eqb_spec bs 0), (Z.eqb_spec (- bs) 0); lia).
    destruct (bs =? 0); [reflexivity|].
    destruct ((index + 1) mod bs =? 0).
    + destruct (np_stack _); [|reflexivity]. by rewrite IH.
    + apply IH.
Qed.

Lemma run_loop_index (pending : list (plot_tuple F TS)) : forall bs names tss imgs i j,
  (i - j) mod bs = 0 ->
  run pending bs names tss imgs i = run pending bs names tss imgs j.
Proof.
  induction pending as [|[[name ts] image] rest IH]; intros bs names tss imgs i j Hij.
  - reflexivity.
  - cbn [run_loop]. destruct (Z.eqb_spec bs 0) as [|Hbs]; [reflexivity|].
    assert (Hstep : (i + 1 - (j + 1)) mod bs = 0) by (by replace (i + 1 - (j + 1)) with (i - j) by lia).
    assert (Hmod : (i + 1) mod bs = (j + 1) mod bs).
    { apply Z.mod_divide in Hij as [c Hc]; [|done].
      replace (i + 1) with (j + 1 + c * bs) by lia. by rewrite Z_mod_plus_full. }
    rewrite Hmod. destruct ((j + 1) mod bs =? 0).
    + destruct (np_stack _); [|reflexivity]. by rewrite (IH bs [] [] [] (i + 1) (j + 1)).
    + by apply IH.
Qed.

Lemma run_loop_fill (pending : list (plot_tuple F TS)) : forall bs buf index,
  1 <= bs -> 0 <= index -> Z.of_nat (length buf) = index mod bs ->
  buf ++ pending <> [] ->
  let k := (Z.to_nat bs - length buf)%nat in
  let group := buf ++ take k pending in
  run pending bs (map tuple_name buf) (map tuple_ts buf) (map tuple_image buf) index =
    match np_stack (map tuple_image group) with
    | Ok a =>
        let '(out, e) := run (drop k pending) bs [] [] [] 0 in
        ((map tuple_name group, map tuple_ts group, a) :: out, e)
    | Raise e => ([], e)
    end.
Proof.
  induction pending as [|[[name ts] image] rest IH]; intros bs buf index Hbs Hindex Hlen Hne k group.
  - unfold group. rewrite take_nil, drop_nil, app_nil_r in *.
    destruct buf as [|t buf]; [done|]. cbn [run_loop map].
    by destruct (np_stack _).
  - cbn [run_loop].
    destruct (Z.eqb_spec bs 0) as [|_]; [lia|].
    destruct (buffers_snoc buf name ts image) as (Hn & Ht & Hi).
    rewrite Hn, Ht, Hi.
    pose proof (mod_succ index bs Hbs Hindex) as Hsucc.
    pose proof (Z.mod_pos_bound index bs ltac:(lia)) as Hbound.
    destruct (Z.eqb_spec (index mod bs + 1) bs) as [Hfull|Hpart].
    + rewrite Hsucc. cbn [Z.eqb].
      assert (Hk : k = 1%nat) by (unfold k; lia).
      unfold group. rewrite Hk. cbn [take drop].
      destruct (np_stack _); [|reflexivity].
      rewrite (run_loop_index rest bs [] [] [] (index + 1) 0); [done|].
      by rewrite Z.sub_0_r.
    + rewrite Hsucc.
      destruct (Z.eqb_spec (index mod bs + 1) 0) as [|_]; [lia|].
      specialize (IH bs (buf ++ [(name, ts, image)]) (index + 1) Hbs ltac:(lia)).
      rewrite length_app in IH. cbn [length] in IH.
      rewrite IH; [|rewrite Hsucc; lia|by destruct buf].
      assert (Hk : k = S (Z.to_nat bs - (length buf + 1))%nat) by (unfold k; lia).
      unfold group. rewrite Hk. cbn [take drop]. by rewrite <- !app_assoc.
Qed.

(** X1. Batching composes: for a batch size of at least one and a stream
    that is not empty, the batches of the stream are the batch stacked
    from its first [batch_size] tuples (all of them when there are fewer),
    followed by the batches of the rest of the stream; when that first
    group cannot be stacked, nothing is emitted and the stacking error
    ends the run. The images need the same shape only within a batch. *)
Theorem batch_images_unfold (images : list (plot_tuple F TS)) (batch_size : Z) :
  1 <= batch_size -> images <> [] ->
  let first := take (Z.to_nat batch_size) images in
  batches_of images batch_size =
    match np_stack (map tuple_image first) with
    | Ok image_batch =>
        let '(batches, e) := batches_of (drop (Z.to_nat batch_size) images) batch_size in
        ((map tuple_name first, map tuple_ts first, image_batch) :: batches, e)
    | Raise e => ([], e)
    end.
Proof.
  intros Hbs Hne first.
  pose proof (run_loop_fill images batch_size [] 0 Hbs ltac:(lia)) as H.
  cbn [length map app] in H. rewrite Z.mod_0_l, Nat.sub_0_r in H by lia.
  exact (H eq_refl Hne).
Qed.

(** X2. The batch size is never validated: a negative batch size gives
    the batches, and the ending, of its absolute value. *)
Theorem batch_images_negative_batch_size (images : list (plot_tuple F TS)) (batch_size : Z) :
  batches_of images (- batch_size) = batches_of images batch_size /\
  batches_of images batch_size = batches_of images (Z.abs batch_size).
Proof.
  assert (H : batches_of images (- batch_size) = batches_of images batch_size)
    by apply run_loop_opp.
  split; [exact H|].
  destruct (Z.abs_spec batch_size) as [[_ ->]|[_ ->]]; [done|].
  symmetry. apply run_loop_opp.
Qed.

Lemma run_loop_exn (pending : list (plot_tuple F TS)) : forall bs names tss imgs index,
  let r := run pending bs names tss imgs index in
  r.2 = StopIteration \/ r.2 = ValueError \/
  (r.2 = ZeroDivisionError /\ bs = 0 /\ r.1 = []).
Proof.
  induction pending as [|[[name ts] image] rest IH]; intros bs names tss imgs index.
  - cbn [run_loop]. destruct names; [by left|].
    destruct (np_stack imgs) eqn:Hstack; [by left|].
    right; left. by apply np_stack_raises in Hstack.
  - cbn [run_loop]. destruct (Z.eqb_spec bs 0) as [Hz|Hnz]; [by right; right|].
    destruct ((index + 1) mod bs =? 0); [|apply IH].
    destruct (np_stack _) eqn:Hstack.
    + specialize (IH bs [] [] [] (index + 1)).
      destruct (run rest bs [] [] [] (index + 1)) as [out e]. cbn [fst snd] in *.
      destruct IH as [?|[?|(? & ? & ?)]]; [by left|by right; left|done].
    + right; left. by apply np_stack_raises in Hstack.
Qed.

(** X3. How a run of the generator can end: by returning
    ([StopIteration]), with [ValueError] or with [ZeroDivisionError],
    and nothing else. It ends with [ZeroDivisionError] exactly when the
    batch size is zero and the stream is not empty, and a batch size of
    zero emits no batch. It ends with [ValueError] only when two images
    of the stream differ in shape. *)
Theorem batch_images_failures (images : list (plot_tuple F TS)) (batch_size : Z) :
  let r := batches_of images batch_size in
  (r.2 = StopIteration \/ r.2 = ValueError \/ r.2 = ZeroDivisionError) /\
  (r.2 = ZeroDivisionError <-> batch_size = 0 /\ images <> []) /\
  (batch_size = 0 -> r.1 = []) /\
  (r.2 = ValueError ->
   exists t1 t2, t1 ∈ images /\ t2 ∈ images /\
     nd_shape (tuple_image t1) <> nd_shape (tuple_image t2)).
Proof.
  intros r.
  pose proof (run_loop_exn images batch_size [] [] [] 0) as Hexn.
  change (run images batch_size [] [] [] 0) with r in Hexn. cbv zeta in Hexn.
  split; [|split; [|split]].
  - destruct Hexn as [?|[?|(? & _)]]; auto.
  - split.
    + intros He. destruct Hexn as [Hs|[Hv|(_ & Hz & _)]]; [congruence|congruence|].
      split; [done|]. intros ->. subst r. by rewrite Hz in He.
    + intros [-> Hne]. subst r. by destruct images as [|[[? ?] ?] ?].
  - intros ->. subst r. by destruct images as [|[[? ?] ?] ?].
  - intros Hv. destruct (head images) as [t0|] eqn:Hhead.
    2:{ apply head_None in Hhead. subst r. rewrite Hhead in Hv. discriminate. }
    assert (Ht0 : t0 ∈ images).
    { destruct images as [|t rest]; [done|]. injection Hhead as ->. apply list_elem_of_here. }
    destruct (decide (Forall (fun t => nd_shape (tuple_image t) = nd_shape (tuple_image t0))
                        images)) as [Hall|Hnot].
    + destruct (Z.eq_dec batch_size 0) as [Hz|Hnz].
      * subst r batch_size. by destruct images as [|[[? ?] ?] ?].
      * pose proof (fresh_returns float_to_uint8 _ images batch_size Hnz Hall).
        subst r. congruence.
    + apply not_Forall_Exists in Hnot; [|intros t; apply _].
      apply Exists_exists in Hnot as (t & Ht & Hshape).
      by exists t, t0.
Qed.

Lemma chunked_bounds bs sizes :
  chunked bs sizes -> Forall (fun n => 1 <= Z.of_nat n <= bs) sizes.
Proof.
  induction sizes as [|n [|m rest] IH]; intros Hc; [constructor| |].
  - constructor; [exact Hc|constructor].
  - destruct Hc as [Hn Hc]. specialize (IH Hc).
    constructor; [|done]. inversion IH; subst. lia.
Qed.

(** X4. Every batch that is emitted, whatever the stream and the batch
    size, and whether or not the run fails later: it holds at least one
    sample and at most [|batch_size|], as many timestamps as identifiers,
    and an image array of dtype [uint8] whose first dimension is the
    number of samples. *)
Theorem batch_images_invariant (images : list (plot_tuple F TS)) (batch_size : Z) :
  Forall (fun b =>
      1 <= Z.of_nat (batch_len b) <= Z.abs batch_size /\
      length (batch_ts b) = batch_len b /\
      nd_dtype (batch_images b) = uint8 /\
      exists inner, nd_shape (batch_images b) = batch_len b :: inner)
    (batches_of images batch_size).1.
Proof.
  destruct (Z.eq_dec batch_size 0) as [->|Hnz].
  { by destruct images as [|[[? ?] ?] ?]. }
  replace (batches_of images batch_size) with (batches_of images (Z.abs batch_size)).
  2:{ destruct (Z.abs_spec batch_size) as [[_ ->]|[_ ->]]; [done|]. apply run_loop_opp. }
  assert (Hbs : 1 <= Z.abs batch_size) by lia.
  pose proof (fresh_sizes float_to_uint8 images _ Hbs) as Hsizes.
  apply chunked_bounds in Hsizes. rewrite Forall_fmap in Hsizes.
  destruct (fresh_cover float_to_uint8 images (Z.abs batch_size))
    as (groups & leftover & _ & Hgroups & _).
  apply Forall_forall. intros b Hb.
  rewrite Forall_forall in Hsizes. split; [exact (Hsizes b Hb)|].
  apply list_elem_of_lookup in Hb as [i Hb].
  destruct (Forall2_lookup_r _ _ _ _ _ Hgroups Hb) as (group & _ & Hne & Hnames & Hts & Hstack).
  assert (Hlen : batch_len b = length group).
  { unfold batch_len. by rewrite Hnames, length_map. }
  split; [by rewrite Hts, length_map|].
  apply np_stack_ok in Hstack as (Hdt & Hshape & _); [|by destruct group].
  split; [done|]. rewrite Hshape, length_map, <- Hlen. by eexists.
Qed.

Lemma loop_from_consumes (pending : list (plot_tuple F TS)) : forall bs buf index b g',
  loop_from float_to_uint8 pending bs (map tuple_name buf) (map tuple_ts buf)
    (map tuple_image buf) index = (Yield b, g') ->
  exists taken,
    pending = taken ++ g_images g' /\ batch_of (buf ++ taken) b /\
    g_batch_size g' = bs /\
    (g_pc g' = InLoop /\ current_name_batch g' = [] /\ current_ts_batch g' = [] /\
       current_image_batch g' = [] \/
     g_pc g' = AtTail /\ g_images g' = []).
Proof.
  induction pending as [|[[name ts] image] rest IH]; intros bs buf index b g'.
  - cbn [loop_from]. destruct buf as [|t buf]; [discriminate|]. cbn [map].
    destruct (np_stack _) eqn:Hstack; [|discriminate]. intros [= <- <-].
    exists []. rewrite (app_nil_r (t :: buf)). split; [done|].
    split; [|split; [done|by right]].
    by split; [|split; [|split]].
  - cbn [loop_from]. destruct (bs =? 0); [discriminate|].
    destruct (buffers_snoc buf name ts image) as (Hn & Ht & Hi).
    rewrite Hn, Ht, Hi.
    destruct ((index + 1) mod bs =? 0).
    + destruct (np_stack _) eqn:Hstack; [|discriminate]. intros [= <- <-].
      exists [(name, ts, image)]. split; [done|]. split; [|split; [done|by left]].
      split; [by destruct buf|]. by split; [|split].
    + intros Hloop. apply IH in Hloop as (taken & -> & Hb & Hbs & Hpc).
      exists ((name, ts, image) :: taken). rewrite <- app_assoc in Hb. by split; [|split].
Qed.

(** X5. The generator reads no further than it has to. A [next] that
    yields a batch, from a generator whose buffers are empty, has taken
    from the input exactly the tuples of that batch, in order, and left
    the rest of the input in place; the generator is then suspended
    inside the loop with empty buffers again, or after the loop with the
    input used up. *)
Theorem gen_next_consumes (g : generator F TS) (b : batch F TS) (g' : generator F TS) :
  current_name_batch g = [] -> current_ts_batch g = [] -> current_image_batch g = [] ->
  gen_next float_to_uint8 g = (Yield b, g') ->
  exists group,
    g_images g = group ++ g_images g' /\ batch_of group b /\
    g_batch_size g' = g_batch_size g /\
    (g_pc g' = InLoop /\ current_name_batch g' = [] /\ current_ts_batch g' = [] /\
       current_image_batch g' = [] \/
     g_pc g' = AtTail /\ g_images g' = []).
Proof.
  intros Hn Ht Hi. unfold gen_next. rewrite Hn, Ht, Hi.
  destruct (g_pc g); [| |discriminate|discriminate]; intros Hstep;
    by apply (loop_from_consumes _ _ []) in Hstep.
Qed.

Lemma concat_nonempty_length {A} (groups : list (list A)) :
  Forall (fun group => group <> []) groups -> (length groups <= length (concat groups))%nat.
Proof.
  induction 1 as [|group groups Hne _ IH]; [done|].
  cbn [concat length]. rewrite length_app. destruct group; [done|]. cbn [length]. lia.
Qed.

(** X6. Iterating the generator ends: over a stream of [N] tuples,
    [N + 2] calls of [next] reach the end of the iteration, with the
    batches and the exception [list_gen] gives; at most [N] batches are
    emitted. *)
Theorem batch_images_terminates (images : list (plot_tuple F TS)) (batch_size : Z) :
  drain float_to_uint8 (S (S (length images))) (_batch_images images batch_size)
    = Some (batches_of images batch_size) /\
  (length (batches_of images batch_size).1 <= length images)%nat.
Proof.
  split; [apply drain_list_gen; lia|].
  destruct (fresh_cover float_to_uint8 images batch_size)
    as (groups & leftover & Himages & Hgroups & _).
  rewrite <- (Forall2_length _ _ _ Hgroups).
  rewrite Himages, length_app.
  etrans; [apply concat_nonempty_length|lia].
  apply Forall_forall. intros group Hin. apply list_elem_of_lookup in Hin as [i Hi].
  by destruct (Forall2_lookup_l _ _ _ _ _ Hgroups Hi) as (b & _ & Hne & _).
Qed.

Lemma loop_from_throw (pending : list (plot_tuple F TS)) : forall bs names tss imgs index e g',
  loop_from float_to_uint8 pending bs names tss imgs index = (Throw e, g') ->
  g_pc g' = Closed.
Proof.
  induction pending as [|[[name ts] image] rest IH]; intros bs names tss imgs index e g'.
  - cbn [loop_from]. destruct names; [by intros [= <- <-]|].
    destruct (np_stack _); [discriminate|]. by intros [= <- <-].
  - cbn [loop_from]. destruct (bs =? 0); [by intros [= <- <-]|].
    destruct ((index + 1) mod bs =? 0); [|apply IH].
    destruct (np_stack _); [discriminate|]. by intros [= <- <-].
Qed.

Lemma gen_next_throw (g : generator F TS) e g' :
  gen_next float_to_uint8 g = (Throw e, g') ->
  gen_next float_to_uint8 g' = (Throw StopIteration, g').
Proof.
  intros Hstep. assert (Hpc : g_pc g' = Closed).
  { unfold gen_next in Hstep. destruct (g_pc g) eqn:Hg.
    - by apply loop_from_throw in Hstep.
    - by apply loop_from_throw in Hstep.
    - by injection Hstep as <- <-.
    - injection Hstep as <- <-. done. }
  unfold gen_next. by rewrite Hpc.
Qed.

(** X7. [__next__] when the generator does not yield: for an extractor
    of any class whose [images] attribute is a plain attribute, the
    exception of the generator ([StopIteration], or [ValueError] or
    [ZeroDivisionError] from the batching) comes out of [__next__]
    unchanged, nothing is extracted and the store is as before; after
    that the extractor is exhausted, every later [__next__] raises
    [StopIteration]. *)
Theorem next_exhausted {Self : Type} `{!Extractor.ExtractorClass F TS Self}
    (self : Self) (e : exn) (g' : generator F TS) :
  (forall s g, Extractor.images (Extractor.set_images s g) = g) ->
  gen_next float_to_uint8 (Extractor.images self) = (Throw e, g') ->
  let self' := (Extractor.__next__ float_to_uint8 self).2 in
  (forall h, (Extractor.__next__ float_to_uint8 self).1 h = (Raise e, h)) /\
  Extractor.images self' = g' /\
  (forall h, (Extractor.__next__ float_to_uint8 self').1 h = (Raise StopIteration, h)) /\
  Extractor.images (Extractor.__next__ float_to_uint8 self').2 = g'.
Proof.
  intros Hlaw Hstep self'. unfold self', Extractor.__next__. rewrite Hstep. cbn [fst snd].
  rewrite Hlaw. rewrite (gen_next_throw _ _ _ Hstep). cbn [fst snd]. by rewrite Hlaw.
Qed.

End BatchingMore.

(** ** The count and the order of the batches *)

Section BatchingClaims.

Context {F TS : Type}.
Variable float_to_uint8 : F -> Z.

Abbreviation np_stack := (np_array_uint8 float_to_uint8).
Abbreviation run := (run_loop float_to_uint8).
Abbreviation batch_of := (batch_of_group float_to_uint8).
Abbreviation batches_of images bs := (list_gen float_to_uint8 (_batch_images images bs)).

Lemma np_stack_ragged (arrays : list (ndarray F)) e :
  np_stack arrays = Raise e ->
  exists a1 a2, a1 ∈ arrays /\ a2 ∈ arrays /\ nd_shape a1 <> nd_shape a2.
Proof.
  unfold np_array_uint8. destruct arrays as [|a rest]; [discriminate|].
  destruct (forallb _ rest) eqn:Hall; [discriminate|]. intros _.
  assert (Hex : exists b, b ∈ rest /\ nd_shape a <> nd_shape b).
  { clear -Hall. induction rest as [|b rest IH]; [discriminate|]. cbn [forallb] in Hall.
    apply andb_false_iff in Hall as [Hb|Hrest].
    - exists b. split; [apply list_elem_of_here|].
      unfold shape_eqb in Hb. by apply bool_decide_eq_false in Hb.
    - destruct (IH Hrest) as (b' & Hin & Hne). exists b'.
      split; [by apply list_elem_of_further|done]. }
  destruct Hex as (b & Hin & Hne). exists a, b.
  split; [apply list_elem_of_here|]. split; [by apply list_elem_of_further|done].
Qed.

(** A run that does not reach the end of the stream: the batches it
    emitted are full, and the group that follows them cannot be
    stacked. *)
Lemma fresh_failure bs (batches : list (batch F TS)) :
  1 <= bs -> forall (images : list (plot_tuple F TS)) e,
  batches_of images bs = (batches, e) -> e <> StopIteration ->
  Forall (fun b => batch_len b = Z.to_nat bs) batches /\
  (length batches * Z.to_nat bs < length images)%nat /\
  np_stack (map tuple_image
              (take (Z.to_nat bs) (drop (length batches * Z.to_nat bs) images)))
    = Raise e.
Proof.
  intros Hbs. induction batches as [|b batches IH]; intros images e Hrun He.
  - destruct images as [|t images]; [by injection Hrun as <-|].
    pose proof (run_loop_fill float_to_uint8 (t :: images) bs [] 0 Hbs ltac:(lia)) as H.
    cbn [length map app] in H. rewrite Z.mod_0_l, Nat.sub_0_r in H by lia.
    specialize (H eq_refl ltac:(done)). cbv zeta in H.
    change (batches_of (t :: images) bs) with (run (t :: images) bs [] [] [] 0) in Hrun.
    rewrite H in Hrun. cbn [length Nat.mul drop].
    destruct (np_stack _) as [a|e0]; [|injection Hrun as <-; split; [done|split; [lia|done]]].
    by destruct (run (drop _ _) bs [] [] [] 0).
  - destruct images as [|t images]; [discriminate Hrun|].
    pose proof (run_loop_fill float_to_uint8 (t :: images) bs [] 0 Hbs ltac:(lia)) as H.
    cbn [length map app] in H. rewrite Z.mod_0_l, Nat.sub_0_r in H by lia.
    specialize (H eq_refl ltac:(done)). cbv zeta in H.
    change (batches_of (t :: images) bs) with (run (t :: images) bs [] [] [] 0) in Hrun.
    rewrite H in Hrun.
    destruct (np_stack _) as [a|e0]; [|discriminate Hrun].
    destruct (run (drop _ _) bs [] [] [] 0) as [out e'] eqn:Hrest.
    injection Hrun as <- <- <-.
    destruct (IH (drop (Z.to_nat bs) (t :: images)) e' Hrest He) as (Hall & Hlen & Hstack).
    rewrite length_drop in Hlen. rewrite drop_drop in Hstack. cbn [length] in Hlen.
    split; [|split].
    + constructor; [|done]. unfold batch_len, batch_names. cbn [fst].
      rewrite length_map, length_take. cbn [length]. lia.
    + cbn [length]. lia.
    + cbn [length]. by replace (S (length out) * Z.to_nat bs)%nat
        with (Z.to_nat bs + length out * Z.to_nat bs)%nat by lia.
Qed.

(** C1, as the code has it. Take a stream of [N] tuples and a batch size
    of at least one. Whatever the run does, each batch it emits holds as
    many identifiers as timestamps as image rows, every batch but the
    last holds [batch_size] samples, and an empty stream gives no batch.
    When [_batch_images] runs to its end without raising, it has emitted
    [ceil (N / batch_size)] batches and the last holds
    [(N - 1) mod batch_size + 1] samples. When it does not, it has
    raised [ValueError]: the batches emitted before are all full, fewer
    than [ceil (N / batch_size)], and the [batch_size] images that follow
    them in the stream (fewer at its end) include two of different
    shapes, which [np.array] does not stack; nothing after them is
    emitted. It runs to its end whenever the images of the stream share
    one shape. *)
Theorem batch_images_count (images : list (plot_tuple F TS)) (batch_size : Z) :
  1 <= batch_size ->
  let r := batches_of images batch_size in
  let group :=
    take (Z.to_nat batch_size) (drop (length r.1 * Z.to_nat batch_size) images) in
  Forall (fun b => length (batch_ts b) = batch_len b /\
                   exists inner, nd_shape (batch_images b) = batch_len b :: inner) r.1 /\
  (forall i b, (i + 1 < length r.1)%nat -> r.1 !! i = Some b ->
     Z.of_nat (batch_len b) = batch_size) /\
  (images = [] -> r.1 = []) /\
  (r.2 = StopIteration ->
   Z.of_nat (length r.1) = ceil_div (Z.of_nat (length images)) batch_size /\
   (images <> [] -> exists b, last r.1 = Some b /\
      Z.of_nat (batch_len b) = (Z.of_nat (length images) - 1) mod batch_size + 1)) /\
  (r.2 <> StopIteration ->
   r.2 = ValueError /\
   Forall (fun b => Z.of_nat (batch_len b) = batch_size) r.1 /\
   Z.of_nat (length r.1) < ceil_div (Z.of_nat (length images)) batch_size /\
   (length r.1 * Z.to_nat batch_size < length images)%nat /\
   np_stack (map tuple_image group) = Raise ValueError /\
   exists t1 t2, t1 ∈ group /\ t2 ∈ group /\
     nd_shape (tuple_image t1) <> nd_shape (tuple_image t2)) /\
  (forall shp,
     Forall (fun t => nd_shape (tuple_image t) = shp) images -> r.2 = StopIteration).
Proof.
  intros Hbs r group.
  pose proof (fresh_sizes float_to_uint8 images batch_size Hbs) as Hchunk.
  destruct (fresh_cover float_to_uint8 images batch_size)
    as (groups & leftover & Heq & Hall & Hdone).
  fold r in Hchunk, Hall, Hdone.
  split; [|split; [|split; [|split; [|split]]]].
  - clear -Hall. induction Hall as [|g b groups out Hb _ IH]; [constructor|].
    constructor; [|done].
    pose proof (batch_of_len float_to_uint8 g b Hb) as Hlen.
    destruct Hb as (Hne & Hn & Ht & Hst).
    apply np_stack_ok in Hst as (_ & Hshape & _); [|by destruct g].
    split; [by rewrite Ht, Hlen, length_map|].
    eexists. by rewrite Hshape, Hlen, length_map.
  - intros i b Hi Hb. apply (chunked_full batch_size (map batch_len r.1) i).
    + done.
    + by rewrite length_map.
    + by rewrite list_lookup_fmap, Hb.
  - intros ->. done.
  - intros Hret. rewrite (Hdone Hret), app_nil_r in Heq.
    pose proof (groups_sizes float_to_uint8 groups r.1 Hall) as Hsizes.
    assert (Hsum : sum_list (map batch_len r.1) = length images)
      by (by rewrite Hsizes, sum_list_lengths, Heq).
    destruct (chunked_count batch_size _ Hbs Hchunk) as [Hcount Hlast].
    rewrite length_map, Hsum in Hcount. rewrite Hsum in Hlast.
    split; [done|].
    intros Hne. destruct (last r.1) as [b|] eqn:Hb.
    + exists b. split; [done|]. apply Hlast. by rewrite fmap_last, Hb.
    + apply last_None in Hb. rewrite Hb in Hcount.
      destruct images; [done|]. cbn [length] in Hcount.
      pose proof (ceil_div_spec (Z.of_nat (S (length images))) batch_size ltac:(lia)).
      lia.
  - intros He.
    destruct (fresh_failure batch_size r.1 Hbs images r.2) as (Hfull & Hlen & Hstack);
      [apply surjective_pairing|done|].
    fold group in Hstack.
    assert (Hv : r.2 = ValueError) by (by apply np_stack_raises in Hstack).
    rewrite Hv in Hstack.
    split; [done|]. split; [|split; [|split; [done|split; [done|]]]].
    + eapply Forall_impl; [exact Hfull|]. intros b Hb. cbv beta in Hb. lia.
    + pose proof (ceil_div_spec (Z.of_nat (length images)) batch_size ltac:(lia)). nia.
    + apply np_stack_ragged in Hstack as (a1 & a2 & H1 & H2 & Hne).
      apply list_elem_of_fmap in H1 as (t1 & -> & H1).
      apply list_elem_of_fmap in H2 as (t2 & -> & H2). by exists t1, t2.
  - intros shp Hshape. apply (fresh_returns float_to_uint8 shp); [lia|done].
Qed.

(** Fewer identifiers than tuples come out of a run that does not reach
    the end of the stream. *)
Lemma fresh_failure_short (images : list (plot_tuple F TS)) bs :
  (batches_of images bs).2 <> StopIteration ->
  (length (concat (map batch_names (batches_of images bs).1)) < length images)%nat.
Proof.
  intros He. destruct (Z.eq_dec bs 0) as [->|Hnz].
  { destruct images as [|[[? ?] ?] ?]; [done|]. cbn. lia. }
  assert (Habs : batches_of images bs = batches_of images (Z.abs bs)).
  { destruct (Z.abs_spec bs) as [[_ ->]|[_ ->]]; [done|]. symmetry. apply run_loop_opp. }
  rewrite Habs in He |- *.
  destruct (fresh_failure (Z.abs bs) (batches_of images (Z.abs bs)).1 ltac:(lia) images
              (batches_of images (Z.abs bs)).2) as (Hfull & Hlen & _);
    [apply surjective_pairing|done|].
  enough (Hsum : length (concat (map batch_names (batches_of images (Z.abs bs)).1))
                 = (length (batches_of images (Z.abs bs)).1 * Z.to_nat (Z.abs bs))%nat) by lia.
  clear -Hfull. induction Hfull as [|b out Hb _ IH]; [done|].
  cbn [map concat length]. rewrite length_app, IH. unfold batch_len in Hb. lia.
Qed.

(** C2, as the code has it. Whatever the stream and the batch size, the
    identifiers of the successive batches, put end to end, are the
    identifiers of the input tuples at the same positions, and so are
    the timestamps: nothing is reordered. They are all the identifiers
    and all the timestamps of the input when the generator runs to its
    end without raising, which it does when the batch size is not zero
    and the images share one shape; when it raises, the identifiers
    emitted are fewer than the tuples of the input. *)
Theorem batch_images_order (images : list (plot_tuple F TS)) (batch_size : Z) :
  let r := batches_of images batch_size in
  (forall i name,
     concat (map batch_names r.1) !! i = Some name ->
     tuple_name <$> images !! i = Some name) /\
  (forall i ts,
     concat (map batch_ts r.1) !! i = Some ts ->
     tuple_ts <$> images !! i = Some ts) /\
  (r.2 = StopIteration ->
   concat (map batch_names r.1) = map tuple_name images /\
   concat (map batch_ts r.1) = map tuple_ts images) /\
  (r.2 <> StopIteration ->
   (length (concat (map batch_names r.1)) < length images)%nat /\
   concat (map batch_names r.1) <> map tuple_name images) /\
  (batch_size <> 0 ->
   forall shp, Forall (fun t => nd_shape (tuple_image t) = shp) images ->
     concat (map batch_names r.1) = map tuple_name images /\
     concat (map batch_ts r.1) = map tuple_ts images).
Proof.
  intros r.
  destruct (fresh_cover float_to_uint8 images batch_size)
    as (groups & leftover & Heq & Hall & Hdone).
  fold r in Hall, Hdone.
  destruct (groups_names float_to_uint8 groups r.1 Hall) as [Hn Ht].
  assert (Hend : r.2 = StopIteration ->
            concat (map batch_names r.1) = map tuple_name images /\
            concat (map batch_ts r.1) = map tuple_ts images).
  { intros Hret. by rewrite Hn, Ht, Heq, (Hdone Hret), app_nil_r. }
  split; [|split; [|split; [done|split]]].
  - intros i name Hi. rewrite Hn in Hi. rewrite Heq, <- list_lookup_fmap, fmap_app.
    by apply lookup_app_l_Some.
  - intros i ts Hi. rewrite Ht in Hi. rewrite Heq, <- list_lookup_fmap, fmap_app.
    by apply lookup_app_l_Some.
  - intros He. pose proof (fresh_failure_short images batch_size He) as Hshort.
    fold r in Hshort. split; [done|]. intros Hsame.
    rewrite Hsame, length_map in Hshort. lia.
  - intros Hnz shp Hshape. apply Hend.
    by apply (fresh_returns float_to_uint8 shp).
Qed.

End BatchingClaims.

(** The two samples of the generator again: five images of one shape,
    two at a time, and the two images of different shapes. *)
Lemma batch_images_count_witness :
  Z.of_nat (length (list_gen Sample.cast (_batch_images Sample.five 2)).1) = 3 /\
  (list_gen Sample.cast (_batch_images Sample.ragged 2)).2 = ValueError.
Proof.
  split.
  - destruct (batch_images_count Sample.cast Sample.five 2 ltac:(lia))
      as (_ & _ & _ & Hend & _ & Hreturns).
    refine (proj1 (Hend (Hreturns [1; 1; 3]%nat _))). repeat constructor.
  - destruct (batch_images_count Sample.cast Sample.ragged 2 ltac:(lia))
      as (_ & _ & _ & _ & Hfails & _).
    refine (proj1 (Hfails _)). vm_compute. discriminate.
Defined.

(** C2 as the spec words it fails on the same two images: nothing is
    emitted, so the identifiers of the batches are not those of the
    stream. *)
Lemma batch_images_order_ragged :
  concat (map batch_names (list_gen Sample.cast (_batch_images Sample.ragged 2)).1) = [] /\
  map tuple_name Sample.ragged = ["a"; "b"]%string /\
  concat (map batch_names (list_gen Sample.cast (_batch_images Sample.ragged 2)).1)
    <> map tuple_name Sample.ragged.
Proof. split; [reflexivity|]. split; [reflexivity|]. vm_compute. discriminate. Qed.

(** * More about the constructors *)

Section GraphConstruction.

Import TensorFlowExtractor.

Context {F TS : Type}.

Abbreviation kept_ops ops := (filter (fun op => __ignore_tensor (op_name op) = false) ops).

Lemma append_assoc (s t u : string) : (s +:+ t) +:+ u = s +:+ (t +:+ u).
Proof. induction s as [|c s IH]; [by rewrite !append_nil|]. by rewrite !append_cons, IH. Qed.

Lemma append_inj_l (s s' t : string) : s +:+ t = s' +:+ t -> s = s'.
Proof.
  intros H. apply (f_equal (py_drop_end (String.length t))) in H.
  by rewrite !py_drop_end_append in H.
Qed.

Lemma py_in_trailing ending name :
  py_in ending (trailing_segment name) = true -> py_in ending name = true.
Proof.
  rewrite !py_in_spec. intros (pre & post & Hseg).
  destruct (trailing_segment_spec name) as [_ [Hname|[p Hname]]].
  - exists pre, post. congruence.
  - exists (p +:+ String "/" pre), post. rewrite Hname at 1. rewrite Hseg.
    by rewrite append_assoc, append_cons.
Qed.

Lemma ignore_trailing name :
  __ignore_tensor (trailing_segment name) = true -> __ignore_tensor name = true.
Proof.
  unfold __ignore_tensor. rewrite !existsb_exists.
  intros (ending & Hin & Hsub). exists ending. split; [done|]. by apply py_in_trailing.
Qed.

Lemma get_tensor_by_name_inv ops name t :
  get_tensor_by_name ops name = Ok t ->
  t = NodeOutput name /\
  exists op, op ∈ ops /\ tensor_of op = name /\ (0 < op_outputs op)%nat.
Proof.
  unfold get_tensor_by_name. destruct (existsb _ ops) eqn:Hex; [|discriminate].
  intros [= <-]. split; [done|].
  apply existsb_exists in Hex as (op & Hin & Hop).
  apply andb_true_iff in Hop as [Hname Hout].
  exists op. split; [by apply list_elem_of_In|]. split; [by apply String.eqb_eq|].
  by apply Nat.ltb_lt.
Qed.

Lemma get_tensor_by_name_raise ops name e :
  get_tensor_by_name ops name = Raise e -> e = KeyError name.
Proof. unfold get_tensor_by_name. destruct (existsb _ ops); [discriminate|]. by intros [= <-]. Qed.

Lemma layer_dict_of_inv ops kept : forall acc d,
  layer_dict_of ops (map tensor_of kept) acc = Ok d -> d = foldl add_layer acc kept.
Proof.
  induction kept as [|op kept IH]; intros acc d; cbn [map layer_dict_of foldl].
  - by intros [= <-].
  - unfold mbind at 1, result_bind at 1.
    destruct (get_tensor_by_name ops (tensor_of op)) as [t|] eqn:Hget; [|discriminate].
    apply get_tensor_by_name_inv in Hget as [-> _].
    intros H. apply IH in H. rewrite H. unfold add_layer, tensor_of.
    by rewrite label_of_tensor_name.
Qed.

Lemma loaded_name graph_def op :
  op ∈ __load_graph graph_def ->
  exists raw, raw ∈ graph_def /\ op_name op = "extractor/" +:+ op_name raw /\
              op_outputs op = op_outputs raw.
Proof.
  unfold __load_graph. intros Hin. apply list_elem_of_fmap in Hin as (raw & -> & Hraw).
  by exists raw.
Qed.

Lemma loaded_prefix graph_def op :
  op ∈ __load_graph graph_def -> re_match_prefix (tensor_of op) = Some "extractor"%string.
Proof.
  intros Hin. apply loaded_name in Hin as (raw & _ & Hname & _).
  unfold tensor_of. rewrite Hname. unfold re_match_prefix.
  by rewrite !append_cons, append_nil.
Qed.

Lemma kept_spec (ops : list operation) op :
  op ∈ kept_ops ops <-> __ignore_tensor (op_name op) = false /\ op ∈ ops.
Proof. exact (list_elem_of_filter (fun op => __ignore_tensor (op_name op) = false) ops op). Qed.

(** What a successful run of [__input_and_layers] on an imported graph
    has computed. *)
Lemma input_and_layers_inv graph_def input layers :
  __input_and_layers (__load_graph graph_def) = Ok (input, layers) ->
  kept_ops (__load_graph graph_def) <> [] /\
  layers = foldl add_layer ∅ (kept_ops (__load_graph graph_def)) /\
  get_tensor_by_name (__load_graph graph_def) "extractor/input:0" = Ok input.
Proof.
  unfold __input_and_layers. fold tensor_of.
  pose proof (kept_spec (__load_graph graph_def)) as Hkept.
  destruct (kept_ops (__load_graph graph_def)) as [|op0 kept'] eqn:Hk; [discriminate|].
  assert (Hop0 : op0 ∈ __load_graph graph_def) by (apply Hkept, list_elem_of_here).
  cbn [map]. unfold mbind at 1, result_bind at 1.
  rewrite (loaded_prefix _ _ Hop0).
  unfold mbind at 1, result_bind at 1.
  destruct (layer_dict_of _ _ ∅) as [d|] eqn:Hdict; [|discriminate].
  unfold mbind at 1, result_bind at 1.
  change ("extractor" +:+ "/input:0") with "extractor/input:0"%string.
  destruct (get_tensor_by_name _ "extractor/input:0") as [t|] eqn:Hget; [|discriminate].
  unfold mbind, result_bind. intros [= <- <-]. split; [done|]. split; [|done].
  exact (layer_dict_of_inv (__load_graph graph_def) (op0 :: kept') ∅ d Hdict).
Qed.

(** What a successful constructor has computed. *)
Lemma tf_init_inv (images : list (plot_tuple F TS)) (model_path : @frozen_graph F)
    layer batch_size gpu self :
  __init__ images model_path layer batch_size gpu = Ok self ->
  exists input layers net_output,
    __input_and_layers (__load_graph (fg_nodes model_path)) = Ok (input, layers) /\
    layers !! layer = Some net_output /\
    self = Make (_batch_images images batch_size) batch_size
             (__load_graph (fg_nodes model_path)) (fg_eval model_path) layer input
             (FlattenRows net_output) (dom layers).
Proof.
  unfold __init__. unfold mbind, result_bind.
  destruct (__input_and_layers _) as [[input layers]|]; [|discriminate].
  destruct (layers !! layer) as [t|] eqn:Hl; [|discriminate].
  intros [= <-]. by exists input, layers, t.
Qed.

Lemma input_node graph_def t :
  get_tensor_by_name (__load_graph graph_def) "extractor/input:0" = Ok t ->
  t = NodeOutput "extractor/input:0" /\
  exists op, op ∈ graph_def /\ op_name op = "input"%string /\ (0 < op_outputs op)%nat.
Proof.
  intros Hget. apply get_tensor_by_name_inv in Hget as [-> (op & Hin & Hname & Hout)].
  split; [done|]. apply loaded_name in Hin as (raw & Hraw & Hn & Ho).
  exists raw. split; [done|]. split; [|lia].
  unfold tensor_of in Hname. rewrite Hn in Hname.
  change "extractor/input:0"%string with (("extractor/" +:+ "input") +:+ ":0") in Hname.
  apply append_inj_l in Hname. rewrite !append_cons, !append_nil in Hname. congruence.
Qed.

(** X8. What a graph-based extractor is once its constructor has
    returned: the generator has not been started, the layer is one of
    [self.layers], the input tensor is [extractor/input:0], so the frozen
    graph holds a node called [input] that has an output, and the feature
    tensor is the flattening of the first output of a node of the graph
    that the filter keeps and whose trailing name segment is the
    layer. *)
Theorem tf_init_spec (images : list (plot_tuple F TS)) (model_path : @frozen_graph F)
    (layer : string) (batch_size : Z) (gpu : bool) (self : @t F TS) :
  __init__ images model_path layer batch_size gpu = Ok self ->
  TensorFlowExtractor.images self = _batch_images images batch_size /\
  TensorFlowExtractor.layer self = layer /\
  layer ∈ layers self /\
  graph self = __load_graph (fg_nodes model_path) /\
  input self = NodeOutput "extractor/input:0" /\
  (exists op, op ∈ fg_nodes model_path /\ op_name op = "input"%string /\
              (0 < op_outputs op)%nat) /\
  (exists op, op ∈ fg_nodes model_path /\
     __ignore_tensor ("extractor/" +:+ op_name op) = false /\
     trailing_segment ("extractor/" +:+ op_name op) = layer /\
     features self = FlattenRows (NodeOutput (("extractor/" +:+ op_name op) +:+ ":0"))).
Proof.
  intros Hinit. apply tf_init_inv in Hinit as (inp & lmap & out & Hrun & Hlayer & ->).
  cbn [TensorFlowExtractor.images TensorFlowExtractor.layer layers graph input features].
  apply input_and_layers_inv in Hrun as (_ & -> & Hget).
  apply input_node in Hget as [-> Hinput].
  split; [done|]. split; [done|]. split; [by apply elem_of_dom|].
  split; [done|]. split; [done|]. split; [done|].
  apply foldl_add_layer_lookup in Hlayer as [Hl|(op & Hin & Hseg & ->)].
  { by rewrite lookup_empty in Hl. }
  apply kept_spec in Hin as [Hign Hin].
  apply loaded_name in Hin as (raw & Hraw & Hn & _).
  exists raw. unfold tensor_of. rewrite Hn in *. done.
Qed.

(** X9. No layer of a graph-based extractor contains one of the
    filtered strings, or a slash: the requested layer is among
    [self.layers], and a name such as [prob], [concat] or [fc7/weights]
    never is. *)
Theorem tf_layers_never_ignored (images : list (plot_tuple F TS))
    (model_path : @frozen_graph F) (layer : string) (batch_size : Z) (gpu : bool)
    (self : @t F TS) :
  __init__ images model_path layer batch_size gpu = Ok self ->
  layer ∈ layers self /\
  forall label, label ∈ layers self ->
    __ignore_tensor label = false /\ no_sep "/"%char label.
Proof.
  intros Hinit. apply tf_init_inv in Hinit as (inp & lmap & out & Hrun & Hlayer & ->).
  cbn [layers]. split; [by apply elem_of_dom|].
  intros label Hlabel. apply elem_of_dom in Hlabel as [t Ht].
  apply input_and_layers_inv in Hrun as (_ & -> & _).
  apply foldl_add_layer_lookup in Ht as [Hl|(op & Hin & <- & _)].
  { by rewrite lookup_empty in Hl. }
  apply kept_spec in Hin as [Hign _]. split.
  - destruct (__ignore_tensor (trailing_segment _)) eqn:Hseg; [|done].
    apply ignore_trailing in Hseg. congruence.
  - apply trailing_segment_spec.
Qed.

Lemma foldl_add_layer_skip post : forall acc label,
  Forall (fun o => trailing_segment (op_name o) <> label) post ->
  foldl add_layer acc post !! label = acc !! label.
Proof.
  induction post as [|o post IH]; intros acc label Hall; [done|].
  inversion Hall as [|? ? Ho Hpost]; subst. cbn [foldl]. rewrite IH by done.
  unfold add_layer. by rewrite lookup_insert_ne.
Qed.

(** X10. When several kept nodes have the same trailing name segment,
    the layer is read from the last of them, in the order of the graph's
    nodes. *)
Theorem tf_layer_last_wins (images : list (plot_tuple F TS))
    (model_path : @frozen_graph F) (layer : string) (batch_size : Z) (gpu : bool)
    (self : @t F TS) (pre : list operation) (op : operation) (post : list operation) :
  __init__ images model_path layer batch_size gpu = Ok self ->
  kept_ops (__load_graph (fg_nodes model_path)) = pre ++ op :: post ->
  trailing_segment (op_name op) = layer ->
  Forall (fun o => trailing_segment (op_name o) <> layer) post ->
  features self = FlattenRows (NodeOutput (tensor_of op)).
Proof.
  intros Hinit Hkept Hseg Hpost.
  apply tf_init_inv in Hinit as (inp & lmap & out & Hrun & Hlayer & ->).
  cbn [features]. apply input_and_layers_inv in Hrun as (_ & -> & _).
  rewrite Hkept, foldl_app in Hlayer. cbn [foldl] in Hlayer.
  rewrite foldl_add_layer_skip in Hlayer by done.
  unfold add_layer in Hlayer. rewrite Hseg, lookup_insert_eq in Hlayer. congruence.
Qed.

(** X11. Graphs the graph-based constructor cannot take. When the filter
    keeps no node (the empty graph among them), it raises [IndexError],
    whatever the layer. When it keeps nodes, each with an output, and the
    graph has no node called [input] with an output, it raises
    [KeyError] for [extractor/input:0], whatever the layer. *)
Theorem tf_init_errors (images : list (plot_tuple F TS))
    (model_path : @frozen_graph F) (layer : string) (batch_size : Z) (gpu : bool) :
  let kept := kept_ops (__load_graph (fg_nodes model_path)) in
  (kept = [] ->
   __init__ images model_path layer batch_size gpu = Raise IndexError) /\
  (kept <> [] -> Forall (fun op => (0 < op_outputs op)%nat) kept ->
   (forall op, op ∈ fg_nodes model_path -> op_name op = "input"%string ->
      op_outputs op = 0%nat) ->
   __init__ images model_path layer batch_size gpu
     = Raise (KeyError "extractor/input:0")).
Proof.
  intros kept. split.
  - intros Hnil. unfold __init__, __input_and_layers. fold kept. by rewrite Hnil.
  - intros Hne Hout Hnoinput.
    cut (__input_and_layers (__load_graph (fg_nodes model_path))
         = Raise (KeyError "extractor/input:0")).
    { intros Hrun. unfold __init__. by rewrite Hrun. }
    unfold __input_and_layers. fold tensor_of. fold kept.
    assert (Hk : Forall (fun op => op ∈ __load_graph (fg_nodes model_path)
                                   /\ (0 < op_outputs op)%nat) kept).
    { apply Forall_forall. intros op Hop. split; [by apply kept_spec in Hop as [_ ?]|].
      rewrite Forall_forall in Hout. by apply Hout. }
    pose proof (layer_dict_of_ok _ kept ∅ Hk) as Hdict.
    assert (Hfirst : forall op0, head kept = Some op0 ->
              re_match_prefix (tensor_of op0) = Some "extractor"%string).
    { intros op0 Hhead. apply (loaded_prefix (fg_nodes model_path)).
      apply head_Some_elem_of in Hhead. by apply kept_spec in Hhead as [_ ?]. }
    clearbody kept. destruct kept as [|op0 kept']; [done|].
    cbn [map] in *. unfold mbind at 1, result_bind at 1.
    rewrite (Hfirst op0 eq_refl). unfold mbind at 1, result_bind at 1.
    rewrite Hdict. unfold mbind at 1, result_bind at 1.
    change ("extractor" +:+ "/input:0") with "extractor/input:0"%string.
    destruct (get_tensor_by_name _ "extractor/input:0") as [t|e] eqn:Hget.
    + apply input_node in Hget as [_ (op & Hin & Hname & Hpos)].
      specialize (Hnoinput op Hin Hname). lia.
    + apply get_tensor_by_name_raise in Hget as ->. reflexivity.
Qed.

End GraphConstruction.

Section Constructors.

Context {F TS : Type}.

(** X12. When the named-architecture constructor returns. A key outside
    the thirteen of [self.models] raises [KeyError]; the key
    [inception_v3], which both tables map to a module instead of a
    callable, raises [TypeError]; otherwise it returns exactly when the
    model can be built and has the layer, and the instance then holds the
    unstarted generator, the layer names of the model and the
    preprocessing of the key, the class's channel reversal for [vgg16]
    and [vgg19] and the library's [preprocess_input] for the others. *)
Theorem keras_init_spec (tf : @KerasExtractor.library F) (images : list (plot_tuple F TS))
    (model_key layer weights_path : string) (batch_size : Z) (gpu : bool) :
  let r := KerasExtractor.__init__ tf images model_key layer weights_path batch_size gpu in
  (model_key ∉ KerasExtractor.model_keys -> r = Raise (KeyError model_key)) /\
  (model_key = "inception_v3"%string -> r = Raise TypeError) /\
  (forall self, r = Ok self <->
     model_key ∈ KerasExtractor.model_keys /\ model_key <> "inception_v3"%string /\
     exists base_model,
       KerasExtractor.applications tf model_key weights_path = Ok base_model /\
       layer ∈ KerasExtractor.km_layers base_model /\
       self = KerasExtractor.Make (_batch_images images batch_size) tf batch_size layer
                (KerasExtractor.km_layers base_model) base_model
                (if decide (model_key = "vgg16" \/ model_key = "vgg19")%string
                 then KerasExtractor.preprocess_vgg
                 else KerasExtractor.preprocess_input model_key)).
Proof.
  intros r. subst r. unfold KerasExtractor.__init__, KerasExtractor.models,
    KerasExtractor.preprocessors.
  split; [|split].
  - intros Hkey. destruct (decide (model_key = "inception_v3"%string)) as [->|_].
    { exfalso. apply Hkey. unfold KerasExtractor.model_keys. set_solver. }
    by destruct (decide (model_key ∈ KerasExtractor.model_keys)).
  - intros ->. reflexivity.
  - intros self. destruct (decide (model_key = "inception_v3"%string)) as [->|Hinc].
    { split; [discriminate|]. by intros (_ & ? & _). }
    destruct (decide (model_key ∈ KerasExtractor.model_keys)) as [Hkey|Hkey].
    2:{ split; [discriminate|]. by intros (? & _). }
    cbn [from_option]. unfold mbind, result_bind.
    destruct (KerasExtractor.applications tf model_key weights_path) as [m|e].
    2:{ split; [discriminate|]. by intros (_ & _ & m & ? & _). }
    destruct (decide (layer ∈ KerasExtractor.km_layers m)) as [Hlayer|Hlayer].
    2:{ split; [discriminate|]. intros (_ & _ & m' & [= <-] & ? & _). done. }
    destruct (decide (model_key = "vgg16" \/ model_key = "vgg19")%string); cbn [from_option].
    + split; [intros [= <-]; eauto 10|]. by intros (_ & _ & m' & [= <-] & _ & ->).
    + split; [intros [= <-]; eauto 10|]. by intros (_ & _ & m' & [= <-] & _ & ->).
Qed.

(** X13. The records of the graph-based and of the named-architecture
    extractor carry flat vectors: whenever [extract_features] of a
    constructed extractor returns, all its records hold one-dimensional
    arrays of one common length. *)
Theorem constructed_features_flat :
  (forall (images : list (plot_tuple F TS)) model_path layer batch_size gpu self
          tuple_batch (h h' : store F TS) fs,
     TensorFlowExtractor.__init__ images model_path layer batch_size gpu = Ok self ->
     TensorFlowExtractor.extract_features self tuple_batch h = (Ok fs, h') ->
     exists D, Forall (fun f : @FeatureTuple F TS => nd_shape f.2 = [D]) fs) /\
  (forall tf (images : list (plot_tuple F TS)) model_key layer weights_path batch_size
          gpu self tuple_batch (h h' : store F TS) fs,
     KerasExtractor.__init__ tf images model_key layer weights_path batch_size gpu
       = Ok self ->
     KerasExtractor.extract_features self tuple_batch h = (Ok fs, h') ->
     exists D, Forall (fun f : @FeatureTuple F TS => nd_shape f.2 = [D]) fs).
Proof.
  split.
  - intros images model_path layer batch_size gpu self tuple_batch h h' fs Hinit Hrun.
    apply tf_init_features in Hinit as [t Ht]. by apply (tf_features_flat _ _ _ _ _ _ Ht Hrun).
  - intros tf images model_key layer weights_path batch_size gpu self tuple_batch h h' fs _.
    apply keras_features_flat.
Qed.

End Constructors.

Section LegacyConstruction.

Import CaffeExtractor.

Local Open Scope nat_scope.

Context {F TS : Type}.

Lemma alloc_blobs_spec (bs : list (string * ndarray F)) : forall h : store F TS,
  alloc_blobs bs h
    = (Ok (zip (map fst bs) (seq (length h) (length bs))),
       h ++ map (fun kv => OArray kv.2) bs).
Proof.
  induction bs as [|[name a] bs IH]; intros h; cbn [alloc_blobs].
  - unfold ret. by rewrite app_nil_r.
  - unfold mbind, M_bind, mbind_M, alloc. rewrite IH. unfold ret.
    rewrite length_app. cbn [length map zip zip_with seq fst snd].
    by rewrite Nat.add_1_r, <- app_assoc.
Qed.

Lemma assoc_names name kvs l : assoc name kvs = Some l -> name ∈ map fst kvs.
Proof.
  induction kvs as [|[k v] kvs IH]; cbn [assoc map fst]; [done|].
  destruct (decide (k = name)) as [->|].
  - intros _. apply list_elem_of_here.
  - intros H. apply list_elem_of_further. by apply IH.
Qed.

Lemma assoc_zip_seq name (bs : list (string * ndarray F)) : forall n l,
  assoc name (zip (map fst bs) (seq n (length bs))) = Some l ->
  exists i a, l = n + i /\ bs !! i = Some (name, a).
Proof.
  induction bs as [|[k a] bs IH]; intros n l; cbn [map length seq zip zip_with assoc fst];
    [done|].
  destruct (decide (k = name)) as [->|].
  - intros [= <-]. exists 0, a. split; [lia|done].
  - intros H. apply IH in H as (i & a' & -> & Hi). exists (S i), a'. split; [lia|done].
Qed.

Lemma map_fst_zip_seq (bs : list (string * ndarray F)) n :
  map fst (zip (map fst bs) (seq n (length bs))) = map fst bs.
Proof.
  revert n. induction bs as [|[k a] bs IH]; intros n; [done|].
  cbn [map length seq zip zip_with fst]. by rewrite IH.
Qed.

(** What the constructor has done by the time it looks at the input
    blob. *)
Lemma caffe_init_unfold caffe (images : list (plot_tuple F TS)) (d : @net_def F)
    layer batch_size gpu (h : store F TS) :
  let h' := h ++ map (fun kv => OArray kv.2) (nd_blobs d) in
  let n := Net (zip (map fst (nd_blobs d)) (seq (length h) (length (nd_blobs d))))
             (nd_layers d) in
  __init__ caffe images d layer batch_size gpu h =
    match blob n "data" with
    | Ok data =>
        match h' !! data with
        | Some (OArray a) =>
            match set_transpose (new_transformer (nd_shape a)) [2; 0; 1] with
            | Ok tr =>
                match set_channel_swap tr [2; 1; 0] with
                | Ok tr' =>
                    (Ok (Make (_batch_images images batch_size) caffe layer n tr'
                           (map fst (blobs n))), h')
                | Raise e => (Raise e, h')
                end
            | Raise e => (Raise e, h')
            end
        | Some _ => (Raise TypeError, h')
        | None => (Raise AttributeError, h')
        end
    | Raise e => (Raise e, h')
    end.
Proof.
  intros h' n. unfold __init__, load_net.
  unfold mbind, M_bind, mbind_M. rewrite alloc_blobs_spec. fold h'.
  unfold ret at 1. fold n. unfold lift at 1.
  destruct (blob n "data") as [data|e]; [|done].
  unfold load_array, load, mbind, M_bind, mbind_M.
  by destruct (h' !! data) as [[| |a]|].
Qed.

(** X14. What the legacy constructor has done when it returns: the
    store is the one before with the arrays of the network's blobs
    appended, in definition order, and nothing else changed; the
    generator has not been started; [self.layers] is the list of blob
    names; and the network has a blob [data] whose array has four
    dimensions, the second being 3, for which the transformer
    transposes and swaps channels. *)
Theorem caffe_init_spec caffe (images : list (plot_tuple F TS)) (d : @net_def F)
    (layer : string) (batch_size : Z) (gpu : bool) (h h' : store F TS) (self : @t F TS) :
  __init__ caffe images d layer batch_size gpu h = (Ok self, h') ->
  h' = h ++ map (fun kv => OArray kv.2) (nd_blobs d) /\
  CaffeExtractor.images self = _batch_images images batch_size /\
  CaffeExtractor.layer self = layer /\
  layers self = map fst (nd_blobs d) /\
  blobs (self_net self)
    = zip (map fst (nd_blobs d)) (seq (length h) (length (nd_blobs d))) /\
  layer_fns (self_net self) = nd_layers d /\
  exists a n0 hh ww,
    ("data"%string, a) ∈ nd_blobs d /\ nd_shape a = [n0; 3; hh; ww] /\
    self_transformer self = built n0 hh ww.
Proof.
  rewrite caffe_init_unfold. cbv zeta. unfold blob. cbn [blobs].
  destruct (assoc "data" _) as [data|] eqn:Hassoc; [|discriminate]. cbn [from_option].
  apply assoc_zip_seq in Hassoc as (i & a & -> & Hi).
  rewrite lookup_app_r by lia.
  replace (length h + i - length h) with i by lia.
  rewrite list_lookup_fmap, Hi. cbn [fmap option_fmap option_map snd].
  unfold set_transpose, new_transformer. cbn [inputs length].
  destruct (decide (3 = length (nd_shape a) - 1)) as [Hlen|]; [|discriminate].
  unfold set_channel_swap. cbn [inputs length].
  destruct (decide (nd_shape a !! 1 = Some 3)) as [Hch|]; [|discriminate].
  intros [= <- <-]. cbn [CaffeExtractor.images CaffeExtractor.layer layers blobs self_net
    layer_fns self_transformer transpose channel_swap raw_scale mean input_scale].
  split; [done|]. split; [done|]. split; [done|].
  split; [apply map_fst_zip_seq|]. split; [done|]. split; [done|].
  destruct (nd_shape a) as [|n0 [|c [|hh [|ww [|? ?]]]]] eqn:Hshape;
    cbn [length] in Hlen; try lia.
  injection Hch as ->. exists a, n0, hh, ww.
  split; [by apply list_elem_of_lookup_2 in Hi|]. done.
Qed.

Lemma assoc_absent name (kvs : list (string * loc)) :
  name ∉ map fst kvs -> assoc name kvs = None.
Proof.
  intros Hnot. destruct (assoc name kvs) as [l|] eqn:Hl; [|done].
  by apply assoc_names in Hl.
Qed.

Lemma assoc_zip_first name (pre post : list (string * ndarray F)) a n :
  name ∉ map fst pre ->
  assoc name (zip (map fst (pre ++ (name, a) :: post))
                (seq n (length (pre ++ (name, a) :: post))))
    = Some (n + length pre).
Proof.
  revert n. induction pre as [|[k b] pre IH]; intros n Hnot.
  - cbn [app map length seq zip zip_with assoc fst]. rewrite decide_True by done.
    f_equal. lia.
  - cbn [app map length seq zip zip_with assoc fst] in *.
    apply not_elem_of_cons in Hnot as [Hk Hnot].
    rewrite decide_False by done. rewrite IH by done. f_equal. lia.
Qed.

(** X15. Networks the legacy constructor cannot take; in each case the
    blobs have been allocated by then. Without a blob [data] it raises
    [KeyError]; with a [data] blob that does not have four dimensions
    the transformer rejects the transposition, and with four dimensions
    of which the second is not 3 it rejects the channel swap. *)
Theorem caffe_init_errors caffe (images : list (plot_tuple F TS)) (d : @net_def F)
    (layer : string) (batch_size : Z) (gpu : bool) (h : store F TS) :
  let r := __init__ caffe images d layer batch_size gpu h in
  r.2 = h ++ map (fun kv => OArray kv.2) (nd_blobs d) /\
  ("data"%string ∉ map fst (nd_blobs d) -> r.1 = Raise (KeyError "data")) /\
  (forall pre a post,
     nd_blobs d = pre ++ ("data"%string, a) :: post -> "data"%string ∉ map fst pre ->
     (length (nd_shape a) <> 4 ->
      r.1 = Raise (Exception
        "Transpose order needs to have the same number of dimensions as the input.")) /\
     (length (nd_shape a) = 4 -> nd_shape a !! 1 <> Some 3 ->
      r.1 = Raise (Exception
        "Channel swap needs to have the same number of dimensions as the input channels."))).
Proof.
  intros r. subst r. rewrite caffe_init_unfold. cbv zeta. split; [|split].
  - destruct (blob _ _) as [data|]; [|done].
    destruct (_ !! data) as [[| |a]|]; try done.
    destruct (set_transpose _ _); [|done]. by destruct (set_channel_swap _ _).
  - intros Hnot. unfold blob. cbn [blobs]. rewrite assoc_absent; [done|].
    by rewrite map_fst_zip_seq.
  - intros pre a post Hblobs Hpre.
    assert (Hdata : blob (Net (zip (map fst (nd_blobs d))
                                 (seq (length h) (length (nd_blobs d)))) (nd_layers d))
                      "data" = Ok (length h + length pre)).
    { unfold blob. cbn [blobs]. rewrite Hblobs. by rewrite assoc_zip_first. }
    assert (Hlook : (h ++ map (fun kv => OArray kv.2) (nd_blobs d))
                      !! (length h + length pre) = Some (OArray a)).
    { rewrite lookup_app_r by lia.
      replace (length h + length pre - length h) with (length pre) by lia.
      rewrite Hblobs, map_app, lookup_app_r by (by rewrite length_map).
      by rewrite length_map, Nat.sub_diag. }
    rewrite Hdata, Hlook.
    unfold set_transpose, set_channel_swap, new_transformer. cbn [inputs length].
    split.
    + intros Hlen. by rewrite decide_False by lia.
    + intros Hlen Hch. rewrite decide_True by lia. cbn [inputs].
      by rewrite decide_False.
Qed.

Lemma bind_fails {A B} (m : M F TS A) (k : A -> M F TS B) :
  (forall a h1, exists e, (k a h1).1 = Raise e) ->
  forall h, exists e, ((m ≫= k) h).1 = Raise e.
Proof.
  intros Hk h. unfold mbind, M_bind, mbind_M.
  destruct (m h) as [[a|e] h1]; [apply Hk|by exists e].
Qed.

(** X16. The legacy constructor accepts a layer the network does not
    have, and the extractor it returns is of no use: [extract_features]
    returns for no batch and no store. *)
Theorem caffe_absent_layer_fails caffe (images : list (plot_tuple F TS)) (d : @net_def F)
    (layer : string) (batch_size : Z) (gpu : bool) (h0 h1 : store F TS) (self : @t F TS) :
  __init__ caffe images d layer batch_size gpu h0 = (Ok self, h1) ->
  layer ∉ map fst (nd_blobs d) ->
  forall tuple_batch h, exists e, (extract_features self tuple_batch h).1 = Raise e.
Proof.
  intros Hinit Hnot.
  assert (Hblob : blob (self_net self) (CaffeExtractor.layer self) = Raise (KeyError layer)).
  { rewrite caffe_init_unfold in Hinit. cbv zeta in Hinit.
    destruct (blob _ "data") as [data|]; [|discriminate].
    destruct (_ !! data) as [[| |a]|]; try discriminate.
    destruct (set_transpose _ _); [|discriminate].
    destruct (set_channel_swap _ _); [|discriminate].
    injection Hinit as <- _. cbn [self_net CaffeExtractor.layer]. unfold blob. cbn [blobs].
    rewrite assoc_absent; [done|]. by rewrite map_fst_zip_seq. }
  intros [[name_batch ts_batch] image_batch]. unfold extract_features.
  apply bind_fails. intros data. apply bind_fails. intros dd.
  apply bind_fails. intros batch.
  destruct (nd_shape dd) as [|? [|c [|hh [|ww [|? ?]]]]]; try (intros h; by eexists).
  destruct (nd_shape batch) as [|nb ?]; try (intros h; by eexists).
  apply bind_fails. intros _. apply bind_fails. intros rows.
  apply bind_fails. intros imgs. apply bind_fails. intros stacked.
  apply bind_fails. intros _. apply bind_fails. intros d'.
  apply bind_fails. intros _. rewrite Hblob. intros h. by eexists.
Qed.

End LegacyConstruction.

(** * More about one step of the iteration *)

Section NextFrames.

Local Open Scope nat_scope.

Context {F TS : Type}.
Variable float_to_uint8 : F -> Z.

Lemma np_stack_dtype (arrays : list (ndarray F)) a :
  np_array_uint8 float_to_uint8 arrays = Ok a -> nd_dtype a = uint8.
Proof.
  unfold np_array_uint8. destruct arrays as [|a0 rest]; [by intros [= <-]|].
  destruct (forallb _ rest); [|discriminate]. by intros [= <-].
Qed.

Lemma loop_from_dtype (pending : list (plot_tuple F TS)) :
  forall bs names tss imgs index (b : batch F TS) g',
  loop_from float_to_uint8 pending bs names tss imgs index = (Yield b, g') ->
  nd_dtype (batch_images b) = uint8.
Proof.
  induction pending as [|[[name ts] image] rest IH]; intros bs names tss imgs index b g'.
  - cbn [loop_from]. destruct names; [discriminate|].
    destruct (np_array_uint8 _ _) eqn:Hstack; [|discriminate].
    intros [= <- _]. by apply np_stack_dtype in Hstack.
  - cbn [loop_from]. destruct (bs =? 0)%Z; [discriminate|].
    destruct (_ =? 0)%Z; [|apply IH].
    destruct (np_array_uint8 _ _) eqn:Hstack; [|discriminate].
    intros [= <- _]. by apply np_stack_dtype in Hstack.
Qed.

Lemma gen_next_dtype (g : generator F TS) (b : batch F TS) g' :
  gen_next float_to_uint8 g = (Yield b, g') -> nd_dtype (batch_images b) = uint8.
Proof.
  unfold gen_next. destruct (g_pc g); [apply loop_from_dtype|apply loop_from_dtype| |];
    discriminate.
Qed.

Lemma backend_next_yield (b : @backend F TS) (yielded : batch F TS) g' :
  gen_next float_to_uint8 (backend_images b) = (Yield yielded, g') ->
  exists b',
    backend_next float_to_uint8 b
      = (alloc_batch yielded ≫= backend_extract b', b') /\
    backend_images b' = g' /\ (forall l, owned b' l <-> owned b l).
Proof.
  intros Hstep. destruct b as [self|self|self|self];
    cbn [backend_next backend_images] in *; unfold Extractor.__next__; rewrite Hstep.
  - by exists (GraphBackend (Extractor.set_images self g')).
  - by exists (HubBackend (Extractor.set_images self g')).
  - by exists (KerasBackend (Extractor.set_images self g')).
  - by exists (CaffeBackend (Extractor.set_images self g')).
Qed.

Lemma alloc_batch_spec (b : batch F TS) (h : store F TS) :
  alloc_batch b h
    = (Ok (length h, S (length h), S (S (length h))),
       h ++ [ONames (batch_names b); OTimes (batch_ts b); OArray (batch_images b)]).
Proof.
  unfold alloc_batch, mbind, M_bind, mbind_M, alloc, ret.
  rewrite !length_app. cbn [length]. rewrite <- !app_assoc. cbn [app].
  by rewrite !Nat.add_1_r.
Qed.

(** X17. One [next] on a backend whose network blobs all lie in the
    store, when the generator yields: the batch becomes three new
    objects at the end of the store; afterwards, whatever the extraction
    returned or raised, every object that was in the store before is
    unchanged, the backend's own blobs excepted, and the three new
    objects still hold the identifiers, the timestamps and the image
    array that were yielded. No dtype is assumed: the array of a yielded
    batch is [uint8]. *)
Theorem next_keeps_batch (b : @backend F TS) (h : store F TS) (yielded : batch F TS)
    (g' : generator F TS) :
  (forall l, owned b l -> l < length h) ->
  gen_next float_to_uint8 (backend_images b) = (Yield yielded, g') ->
  let h' := ((backend_next float_to_uint8 b).1 h).2 in
  backend_images (backend_next float_to_uint8 b).2 = g' /\
  length h + 3 <= length h' /\
  (forall l, l < length h -> ~ owned b l -> h' !! l = h !! l) /\
  h' !! length h = Some (ONames (batch_names yielded)) /\
  h' !! S (length h) = Some (OTimes (batch_ts yielded)) /\
  h' !! S (S (length h)) = Some (OArray (batch_images yielded)).
Proof.
  intros Hown Hstep h'.
  destruct (backend_next_yield b yielded g' Hstep) as (b' & Hnext & Himages & Hb').
  subst h'. rewrite Hnext. cbn [fst snd]. split; [done|].
  unfold mbind, M_bind, mbind_M. rewrite alloc_batch_spec.
  set (h1 := h ++ _).
  assert (Hlen1 : length h1 = length h + 3) by (unfold h1; rewrite length_app; done).
  assert (Hfresh : forall l, length h <= l -> ~ owned b' l).
  { intros l Hl Ho. apply Hb', Hown in Ho. lia. }
  assert (Hl2 : h1 !! S (S (length h)) = Some (OArray (batch_images yielded))).
  { unfold h1. rewrite lookup_app_r by lia.
    by replace (S (S (length h)) - length h) with 2 by lia. }
  assert (Hl1 : h1 !! S (length h) = Some (OTimes (batch_ts yielded))).
  { unfold h1. rewrite lookup_app_r by lia.
    by replace (S (length h) - length h) with 1 by lia. }
  assert (Hl0 : h1 !! length h = Some (ONames (batch_names yielded))).
  { unfold h1. rewrite lookup_app_r by lia. by rewrite Nat.sub_diag. }
  pose proof (backend_keeps b' h1 (length h) (S (length h)) (S (S (length h)))
                (batch_images yielded) Hl2 (Hfresh (S (S (length h))) ltac:(lia))) as Hkeeps.
  rewrite (gen_next_dtype _ _ _ Hstep) in Hkeeps.
  specialize (Hkeeps eq_refl h1 (frame_refl _ h1)).
  assert (Hframe : frame (owned b') h1
            (backend_extract b' (length h, S (length h), S (S (length h))) h1).2).
  { by destruct (backend_extract b' _ h1) as [[fs|e] h2]. }
  destruct Hframe as [Hlen Hframe].
  split; [lia|]. split; [|split; [|split]].
  - intros l Hl Ho. rewrite Hframe; [|lia|by rewrite Hb'].
    unfold h1. by rewrite lookup_app_l.
  - rewrite Hframe; [done|lia|]. apply Hfresh. lia.
  - rewrite Hframe; [done|lia|]. apply Hfresh. lia.
  - rewrite Hframe; [done|lia|]. apply Hfresh. lia.
Qed.

End NextFrames.

Section Pairing.

Local Open Scope nat_scope.

Context {F TS : Type}.

Section Paired.

Variable W : loc -> Prop.
Variable h0 : store F TS.
Variables name_batch ts_batch : loc.

Abbreviation inv := (frame W h0).
Abbreviation paired :=
  (fun (fs : list (@FeatureTuple F TS)) (h : store F TS) =>
     frame W h0 h /\
     exists names tss rows,
       h !! name_batch = Some (ONames names) /\ h !! ts_batch = Some (OTimes tss) /\
       fs = zip_with (fun nt row => (nt.1, nt.2, row)) (zip names tss) rows).

Lemma triple_zip_features f :
  triple inv (zip_features name_batch ts_batch f) paired inv.
Proof.
  intros h HI. unfold zip_features, load_names, load_times, load_array, load, lift.
  unfold mbind, M_bind, mbind_M, ret, raise.
  destruct (h !! name_batch) as [[names| |]|] eqn:Hn; try exact HI.
  destruct (h !! ts_batch) as [[|tss|]|] eqn:Ht; try exact HI.
  destruct (h !! f) as [[| |a]|]; try exact HI.
  destruct (nd_rows a) as [rows|]; [|exact HI].
  split; [exact HI|]. by exists names, tss, rows.
Qed.

Lemma paired_tf (self : TensorFlowExtractor.t) image_batch :
  triple inv (TensorFlowExtractor.extract_features self (name_batch, ts_batch, image_batch))
    paired inv.
Proof.
  unfold TensorFlowExtractor.extract_features, TensorFlowExtractor.session_run.
  eapply triple_bind; [|intros f; apply triple_zip_features].
  apply keeps_bind; [apply keeps_load_array|intros a].
  apply keeps_bind; [apply keeps_lift|intros v]. apply keeps_alloc.
Qed.

Lemma paired_hub (self : TensorflowHubExtractor.t) image_batch :
  triple inv
    (TensorflowHubExtractor.extract_features self (name_batch, ts_batch, image_batch))
    paired inv.
Proof.
  unfold TensorflowHubExtractor.extract_features.
  eapply triple_bind; [apply keeps_lift|intros s].
  eapply triple_bind; [apply keeps_lift|intros f].
  eapply triple_bind; [apply keeps_load_array|intros a].
  eapply triple_bind; [apply keeps_lift|intros v].
  eapply triple_bind; [apply keeps_alloc|intros fb]. apply triple_zip_features.
Qed.

Lemma keeps_call_preprocess_owned tf p x :
  W x \/ length h0 <= x -> keeps W h0 (KerasExtractor.call_preprocess tf p x).
Proof.
  intros Hx. destruct p as [|key|]; cbn [KerasExtractor.call_preprocess].
  - unfold KerasExtractor.__preprocess_vgg.
    apply keeps_bind; [apply keeps_load_array|intros a].
    apply keeps_bind; [apply keeps_lift|intros reversed]. apply keeps_alloc.
  - apply keeps_bind; [apply keeps_load_array|intros a].
    destruct (is_floating (nd_dtype a)); [|apply keeps_alloc].
    apply keeps_bind; [apply triple_write; tauto|intros _; apply keeps_alloc].
  - apply keeps_raise.
Qed.

Lemma paired_keras (self : KerasExtractor.t) image_batch :
  W image_batch ->
  triple inv (KerasExtractor.extract_features self (name_batch, ts_batch, image_batch))
    paired inv.
Proof.
  intros HW. unfold KerasExtractor.extract_features.
  eapply triple_bind; [apply triple_resize|intros x]. cbn beta.
  intros h [HI Hx]. revert h HI.
  change (triple inv
            (KerasExtractor.call_preprocess (KerasExtractor.tf self)
                (KerasExtractor.preprocess self) x ≫= fun image_batch0 =>
              KerasExtractor.predict self image_batch0 ≫= fun feature_batch =>
              load_array feature_batch ≫= fun a =>
              lift (np_flatten_rows a) ≫= fun flat =>
              alloc (OArray flat) ≫= fun feature_batch0 =>
              zip_features name_batch ts_batch feature_batch0) paired inv).
  eapply triple_bind.
  { apply keeps_call_preprocess_owned. destruct Hx as [->|?]; auto. }
  intros y. eapply triple_bind.
  { unfold KerasExtractor.predict.
    apply keeps_bind; [apply keeps_load_array|intros a].
    apply keeps_bind; [apply keeps_lift|intros v]. apply keeps_alloc. }
  intros fb.
  eapply triple_bind; [apply keeps_load_array|intros a].
  eapply triple_bind; [apply keeps_lift|intros flat].
  eapply triple_bind; [apply keeps_alloc|intros fb']. apply triple_zip_features.
Qed.

Lemma triple_lift_bind {A B} (r : result A) (k : A -> M F TS B) Q :
  (forall a, r = Ok a -> triple inv (k a) Q inv) -> triple inv (lift r ≫= k) Q inv.
Proof.
  intros Hk. eapply triple_bind; [apply triple_lift|intros a].
  intros h [Hr HI]. by apply Hk.
Qed.

Lemma paired_caffe (self : CaffeExtractor.t) image_batch :
  (forall name l, CaffeExtractor.blob (CaffeExtractor.self_net self) name = Ok l -> W l) ->
  triple inv (CaffeExtractor.extract_features self (name_batch, ts_batch, image_batch))
    paired inv.
Proof.
  intros Hown. unfold CaffeExtractor.extract_features.
  apply triple_lift_bind. intros data Hdata.
  eapply triple_bind; [apply keeps_load_array|intros d].
  eapply triple_bind; [apply keeps_load_array|intros batch].
  destruct (nd_shape d) as [|? [|c [|hh [|ww [|? ?]]]]]; try apply triple_raise.
  destruct (nd_shape batch) as [|nb ?]; try apply triple_raise.
  eapply triple_bind; [apply keeps_write_owned; by apply (Hown "data"%string)|intros ?].
  eapply triple_bind; [apply keeps_lift|intros rows].
  eapply triple_bind; [apply keeps_lift|intros imgs].
  eapply triple_bind; [apply keeps_lift|intros stacked].
  eapply triple_bind.
  { destruct (decide _); [|apply keeps_raise].
    apply keeps_write_owned. by apply (Hown "data"%string). }
  intros ?.
  eapply triple_bind; [apply keeps_load_array|intros d'].
  eapply triple_bind; [by apply keeps_forward|intros ?].
  apply triple_lift_bind. intros fb _. apply triple_zip_features.
Qed.

End Paired.

Lemma blob_owned (self : @CaffeExtractor.t F TS) name l :
  CaffeExtractor.blob (CaffeExtractor.self_net self) name = Ok l ->
  owned (CaffeBackend self) l.
Proof.
  unfold CaffeExtractor.blob. cbn [owned].
  destruct (CaffeExtractor.assoc name _) as [l'|] eqn:Ha; [|done].
  intros [= <-]. by apply (assoc_owned name).
Qed.

Lemma zip_features_length (names : list string) (tss : list TS) (rows : list (ndarray F)) :
  length (zip_with (fun nt row => (nt.1, nt.2, row)) (zip names tss) rows)
    = Nat.min (Nat.min (length names) (length tss)) (length rows).
Proof. by rewrite !length_zip_with. Qed.

End Pairing.

(** * Channel reversal *)

Section ChannelReversal.

Local Open Scope nat_scope.

Context {F TS : Type}.

(** Where [a[:, :, :, ::-1]] takes the element at row-major position [i]
    from. *)
Abbreviation source d3 m i :=
  (i / (d3 * m) * (d3 * m) + (d3 - 1 - i mod (d3 * m) / m) * m + i mod m).

Lemma source_spec d3 m o j r :
  j < d3 -> r < m ->
  source d3 m ((o * d3 + j) * m + r) = (o * d3 + (d3 - 1 - j)) * m + r.
Proof.
  intros Hj Hr.
  assert (Hin : j * m + r < d3 * m) by nia.
  assert (Hdiv : ((o * d3 + j) * m + r) / (d3 * m) = o).
  { symmetry. apply (Nat.div_unique _ _ _ (j * m + r)); [done|nia]. }
  assert (Hmod : ((o * d3 + j) * m + r) mod (d3 * m) = j * m + r).
  { symmetry. apply (Nat.mod_unique _ _ o); [done|nia]. }
  assert (Hj' : (j * m + r) / m = j).
  { symmetry. apply (Nat.div_unique _ _ _ r); [done|nia]. }
  assert (Hr' : ((o * d3 + j) * m + r) mod m = r).
  { symmetry. apply (Nat.mod_unique _ _ (o * d3 + j)); [done|nia]. }
  rewrite Hdiv, Hmod, Hj', Hr'. nia.
Qed.

Lemma position_split d3 m i :
  0 < d3 * m ->
  exists o j r, i = (o * d3 + j) * m + r /\ j < d3 /\ r < m /\ o = i / (d3 * m).
Proof.
  intros Hpos. assert (Hm : 0 < m) by nia.
  exists (i / (d3 * m)), (i mod (d3 * m) / m), (i mod (d3 * m) mod m).
  pose proof (Nat.div_mod_eq i (d3 * m)) as H1.
  pose proof (Nat.div_mod_eq (i mod (d3 * m)) m) as H2.
  pose proof (Nat.mod_upper_bound i (d3 * m) ltac:(lia)) as H3.
  pose proof (Nat.mod_upper_bound (i mod (d3 * m)) m ltac:(lia)) as H4.
  split; [nia|]. split; [|split; [done|done]].
  apply Nat.Div0.div_lt_upper_bound. lia.
Qed.

Lemma position_bound outer d3 m o j r :
  o < outer -> j < d3 -> r < m -> (o * d3 + j) * m + r < outer * (d3 * m).
Proof.
  intros Ho Hj Hr.
  assert (H1 : o * d3 + j + 1 <= outer * d3).
  { assert ((o + 1) * d3 <= outer * d3) by (apply Nat.mul_le_mono_r; lia). lia. }
  assert (H2 : (o * d3 + j + 1) * m <= outer * d3 * m) by (by apply Nat.mul_le_mono_r).
  lia.
Qed.

Lemma reverse_axis3_data (a b : ndarray F) d0 d1 d2 d3 rest :
  nd_shape a = d0 :: d1 :: d2 :: d3 :: rest -> well_formed a ->
  reverse_axis3 a = Ok b ->
  nd_dtype b = nd_dtype a /\ nd_shape b = nd_shape a /\
  length (nd_data b) = length (nd_data a) /\
  forall o j r, o < d0 * d1 * d2 -> j < d3 -> r < product rest ->
    nd_data b !! ((o * d3 + j) * product rest + r)
      = nd_data a !! ((o * d3 + (d3 - 1 - j)) * product rest + r).
Proof.
  intros Hshape Hwf. unfold reverse_axis3. rewrite Hshape. intros [= <-].
  cbn [nd_dtype nd_shape nd_data]. split; [done|]. split; [done|].
  split; [by rewrite length_map, length_seq|].
  intros o j r Ho Hj Hr.
  assert (Hlen : length (nd_data a) = d0 * d1 * d2 * (d3 * product rest)).
  { unfold well_formed, nd_size in Hwf. rewrite Hwf, Hshape. unfold product. cbn [foldr]. lia. }
  assert (Hi : (o * d3 + j) * product rest + r < length (nd_data a))
    by (rewrite Hlen; apply position_bound; lia).
  assert (Hs : (o * d3 + (d3 - 1 - j)) * product rest + r < length (nd_data a))
    by (rewrite Hlen; apply position_bound; lia).
  rewrite list_lookup_fmap, lookup_seq_lt by done. cbn [fmap option_fmap option_map Nat.add].
  rewrite source_spec by done.
  destruct (lookup_lt_is_Some_2 _ _ Hs) as [v ->]. done.
Qed.

Lemma reverse_axis3_involutive (a b : ndarray F) d0 d1 d2 d3 rest :
  nd_shape a = d0 :: d1 :: d2 :: d3 :: rest -> well_formed a ->
  reverse_axis3 a = Ok b -> reverse_axis3 b = Ok a.
Proof.
  intros Hshape Hwf Hb.
  destruct (reverse_axis3_data a b d0 d1 d2 d3 rest Hshape Hwf Hb)
    as (Hdt & Hsh & Hlenb & Hdata).
  assert (Hlen : length (nd_data a) = d0 * d1 * d2 * (d3 * product rest)).
  { unfold well_formed, nd_size in Hwf. rewrite Hwf, Hshape. unfold product. cbn [foldr]. lia. }
  unfold reverse_axis3. rewrite Hsh, Hshape, Hdt. destruct a as [dt shape data].
  cbn [nd_dtype nd_shape nd_data] in *. subst shape. do 2 f_equal.
  apply list_eq. intros i. rewrite list_lookup_fmap.
  destruct (decide (i < length data)) as [Hi|Hi].
  2:{ rewrite lookup_seq_ge by lia. symmetry. apply lookup_ge_None. lia. }
  rewrite lookup_seq_lt by lia. cbn [fmap option_fmap option_map Nat.add].
  assert (Hpos : 0 < d3 * product rest) by nia.
  destruct (position_split d3 (product rest) i Hpos) as (o & j & r & -> & Hj & Hr & Ho).
  assert (Hout : o < d0 * d1 * d2).
  { rewrite Ho. apply Nat.Div0.div_lt_upper_bound. lia. }
  rewrite source_spec by done. rewrite Hdata by (done || lia).
  replace (d3 - 1 - (d3 - 1 - j)) with j by lia.
  destruct (lookup_lt_is_Some_2 data _ Hi) as [v ->]. done.
Qed.

(** X19. The channel reversal [__preprocess_vgg], [x[:, :, :, ::-1]]. On
    an array of fewer than four axes it raises [IndexError] and leaves
    the store as it was. On an array of at least four axes it returns a
    new array of the same dtype and shape in which the positions of the
    fourth axis are in reverse order (position [j] holds what position
    [d3 - 1 - j] of the argument holds, for every position of the other
    axes), it leaves the argument alone, and applied to its own result
    it gives the argument back. *)
Theorem preprocess_vgg_round_trip (x : loc) (a : ndarray F) (h : store F TS) :
  h !! x = Some (OArray a) -> well_formed a ->
  (length (nd_shape a) < 4 ->
   KerasExtractor.__preprocess_vgg x h = (Raise IndexError, h)) /\
  (forall d0 d1 d2 d3 rest,
     nd_shape a = d0 :: d1 :: d2 :: d3 :: rest ->
     exists b,
       reverse_axis3 a = Ok b /\
       KerasExtractor.__preprocess_vgg x h = (Ok (length h), h ++ [OArray b]) /\
       (KerasExtractor.__preprocess_vgg x ≫= KerasExtractor.__preprocess_vgg) h
         = (Ok (S (length h)), h ++ [OArray b; OArray a]) /\
       nd_dtype b = nd_dtype a /\ nd_shape b = nd_shape a /\
       forall o j r, o < d0 * d1 * d2 -> j < d3 -> r < product rest ->
         nd_data b !! ((o * d3 + j) * product rest + r)
           = nd_data a !! ((o * d3 + (d3 - 1 - j)) * product rest + r)).
Proof.
  intros Hx Hwf. split.
  - intros Hrank. unfold KerasExtractor.__preprocess_vgg, load_array, load, lift.
    unfold mbind, M_bind, mbind_M, ret. rewrite Hx. unfold reverse_axis3.
    destruct (nd_shape a) as [|? [|? [|? [|? ?]]]]; try done. cbn [length] in Hrank. lia.
  - intros d0 d1 d2 d3 rest Hshape.
    destruct (reverse_axis3 a) as [b|e] eqn:Hb.
    2:{ unfold reverse_axis3 in Hb. rewrite Hshape in Hb. discriminate. }
    destruct (reverse_axis3_data a b d0 d1 d2 d3 rest Hshape Hwf Hb)
      as (Hdt & Hsh & _ & Hdata).
    pose proof (reverse_axis3_involutive a b d0 d1 d2 d3 rest Hshape Hwf Hb) as Hinv.
    assert (Hone : KerasExtractor.__preprocess_vgg x h = (Ok (length h), h ++ [OArray b])).
    { unfold KerasExtractor.__preprocess_vgg, load_array, load, lift, alloc.
      unfold mbind, M_bind, mbind_M, ret. by rewrite Hx, Hb. }
    exists b. split; [done|]. split; [done|]. split; [|done].
    unfold mbind at 1, M_bind at 1, mbind_M at 1. rewrite Hone.
    unfold KerasExtractor.__preprocess_vgg, load_array, load, lift, alloc.
    unfold mbind, M_bind, mbind_M, ret.
    rewrite lookup_app_r by done. rewrite Nat.sub_diag. cbn [lookup list_lookup].
    rewrite Hinv, length_app, Nat.add_1_r, <- app_assoc. done.
Qed.

End ChannelReversal.

(** * Iterating an extractor *)

Section Iteration.

Local Open Scope nat_scope.

Context {F TS : Type}.
Variable float_to_uint8 : F -> Z.

Abbreviation zipped names tss rows :=
  (zip_with (fun (nt : string * TS) (row : ndarray F) => (nt.1, nt.2, row))
     (zip names tss) rows).

Lemma loop_from_step (pending : list (plot_tuple F TS)) :
  forall bs names tss imgs index,
  match loop_from float_to_uint8 pending bs names tss imgs index with
  | (Yield b, g') =>
      run_loop float_to_uint8 pending bs names tss imgs index
        = (b :: (list_gen float_to_uint8 g').1, (list_gen float_to_uint8 g').2) /\
      (g_pc g' = AtTail \/
       g_pc g' = InLoop /\ length (g_images g') < length pending)
  | (Throw e, _) => run_loop float_to_uint8 pending bs names tss imgs index = ([], e)
  end.
Proof.
  induction pending as [|[[name ts] image] rest IH]; intros bs names tss imgs index.
  - cbn [loop_from run_loop]. destruct names; [done|].
    destruct (np_array_uint8 _ _); [|done]. split; [done|by left].
  - cbn [loop_from run_loop]. destruct (bs =? 0)%Z; [done|].
    destruct (_ =? 0)%Z.
    + destruct (np_array_uint8 _ _); [|done]. unfold list_gen. cbn [g_pc g_images
        g_batch_size current_name_batch current_ts_batch current_image_batch g_index].
      destruct (run_loop _ rest bs [] [] [] _). split; [done|]. right. cbn [length]. split; [done|lia].
    + specialize (IH bs (names ++ [name]) (tss ++ [ts]) (imgs ++ [image]) (index + 1)%Z).
      destruct (loop_from _ rest _ _ _ _ _) as [[b|e] g']; [|done].
      destruct IH as [Hrun Hpc]. split; [done|].
      destruct Hpc as [?|[? ?]]; [by left|right]. cbn [length]. split; [done|lia].
Qed.

Abbreviation remaining g :=
  (match g_pc g with
   | Unstarted | InLoop => S (length (g_images g))
   | AtTail | Closed => 0
   end).

Lemma gen_next_step (g : generator F TS) :
  match gen_next float_to_uint8 g with
  | (Yield b, g') =>
      list_gen float_to_uint8 g
        = (b :: (list_gen float_to_uint8 g').1, (list_gen float_to_uint8 g').2) /\
      remaining g' < remaining g
  | (Throw e, _) => list_gen float_to_uint8 g = ([], e)
  end.
Proof.
  unfold gen_next, list_gen. destruct (g_pc g) eqn:Hpc; try done.
  - pose proof (loop_from_step (g_images g) (g_batch_size g) (current_name_batch g)
                  (current_ts_batch g) (current_image_batch g) (g_index g)) as H.
    destruct (loop_from _ _ _ _ _ _ _) as [[b|e] g']; [|done].
    destruct H as [Hrun [Ht|[Hl Hlen]]]; (split; [done|]).
    + rewrite Ht. lia.
    + rewrite Hl. lia.
  - pose proof (loop_from_step (g_images g) (g_batch_size g) (current_name_batch g)
                  (current_ts_batch g) (current_image_batch g) (g_index g + 1)%Z) as H.
    destruct (loop_from _ _ _ _ _ _ _) as [[b|e] g']; [|done].
    destruct H as [Hrun [Ht|[Hl Hlen]]]; (split; [done|]).
    + rewrite Ht. lia.
    + rewrite Hl. lia.
Qed.

Lemma backend_next_throw (b : @backend F TS) e g' :
  gen_next float_to_uint8 (backend_images b) = (Throw e, g') ->
  exists b', backend_next float_to_uint8 b = (raise e, b').
Proof.
  intros Hstep. destruct b as [self|self|self|self];
    cbn [backend_next backend_images] in *; unfold Extractor.__next__; rewrite Hstep;
    by eexists.
Qed.

(** X20. Iterating a backend ends: with [N] tuples left in the input of
    its generator, [N + 2] calls of [next] reach the exception that ends
    the iteration, and no more record lists have come out by then than
    the generator has batches. *)
Theorem iteration_terminates (b : @backend F TS) (h : store F TS) :
  exists outs e h',
    backend_drain float_to_uint8 (S (S (length (g_images (backend_images b))))) b h
      = Some (outs, e, h') /\
    length outs <= length (list_gen float_to_uint8 (backend_images b)).1.
Proof.
  assert (Hgen : forall fuel (b : @backend F TS) h,
            remaining (backend_images b) < fuel ->
            exists outs e h',
              backend_drain float_to_uint8 fuel b h = Some (outs, e, h') /\
              length outs <= length (list_gen float_to_uint8 (backend_images b)).1).
  { clear b h. induction fuel as [|fuel IH]; intros b h Hfuel; [lia|].
    cbn [backend_drain].
    pose proof (gen_next_step (backend_images b)) as Hstep.
    destruct (gen_next float_to_uint8 (backend_images b)) as [[y|e] g'] eqn:Hnext.
    - destruct Hstep as [Hrun Hless].
      destruct (backend_next_yield float_to_uint8 b y g' Hnext) as (b' & -> & Himages & _).
      destruct ((alloc_batch y ≫= backend_extract b') h) as [[fs|e] h1].
      + destruct (IH b' h1) as (outs & e & h' & -> & Hlen); [rewrite Himages; lia|].
        exists (fs :: outs), e, h'. split; [done|].
        rewrite Hrun, Himages in *. cbn [fst length]. lia.
      + exists [], e, h1. split; [done|]. cbn [length]. lia.
    - destruct (backend_next_throw b e g' Hnext) as (b' & ->).
      exists [], e, h. split; [done|]. cbn [length]. lia. }
  apply Hgen. destruct (g_pc (backend_images b)); lia.
Qed.

Lemma backend_paired (b : @backend F TS) (h0 : store F TS)
    (name_batch ts_batch image_batch : loc) :
  let W := fun l => owned b l \/ l = image_batch in
  triple (frame W h0) (backend_extract b (name_batch, ts_batch, image_batch))
    (fun fs h1 =>
       frame W h0 h1 /\
       exists names tss rows,
         h1 !! name_batch = Some (ONames names) /\
         h1 !! ts_batch = Some (OTimes tss) /\
         fs = zipped names tss rows)
    (frame W h0).
Proof.
  intros W. destruct b as [self|self|self|self]; cbn [backend_extract
    Extractor.extract_features TensorFlowExtractor.class TensorflowHubExtractor.class
    KerasExtractor.class CaffeExtractor.class].
  - apply paired_tf.
  - apply paired_hub.
  - apply paired_keras. by right.
  - apply paired_caffe. intros name l Hl. left. by apply (blob_owned self name).
Qed.

End Iteration.

(** * What the legacy backend extracts *)

Section LegacyExtraction.

Import CaffeExtractor.

Local Open Scope nat_scope.

Context {F TS : Type}.

Lemma bind_Ok {A B} (m : M F TS A) (k : A -> M F TS B) h b h' :
  (m ≫= k) h = (Ok b, h') -> exists a h1, m h = (Ok a, h1) /\ k a h1 = (Ok b, h').
Proof.
  unfold mbind, M_bind, mbind_M. destruct (m h) as [[a|e] h1]; [|discriminate]. eauto.
Qed.

Lemma lift_Ok {A} (r : result A) (h h1 : store F TS) a :
  lift r h = (Ok a, h1) -> r = Ok a /\ h1 = h.
Proof. unfold lift. by intros [= -> ->]. Qed.

Lemma load_array_Ok l (h h1 : store F TS) a :
  load_array l h = (Ok a, h1) -> h !! l = Some (OArray a) /\ h1 = h.
Proof.
  unfold load_array, load, mbind, M_bind, mbind_M, ret, raise.
  destruct (h !! l) as [[| |a']|]; try discriminate. by intros [= -> ->].
Qed.

Lemma forward_spec (n : @net F) fns data : forall h h' : store F TS,
  forward n fns data h = (Ok tt, h') ->
  length h' = length h /\
  (forall l, (forall name, name ∈ map fst fns -> assoc name (blobs n) <> Some l) ->
     h' !! l = h !! l) /\
  (forall name f l,
     NoDup (map fst fns) ->
     (forall n1 n2 l', assoc n1 (blobs n) = Some l' -> assoc n2 (blobs n) = Some l' ->
        n1 = n2) ->
     (name, f) ∈ fns -> assoc name (blobs n) = Some l -> l < length h ->
     h' !! l = Some (OArray (f data))).
Proof.
  induction fns as [|[name0 f0] fns IH]; intros h h'; cbn [forward].
  - intros [= <-]. split; [done|]. split; [done|]. intros ? ? ? _ _ Hin. by apply elem_of_nil in Hin.
  - intros Hrun. apply bind_Ok in Hrun as (l0 & hx & Hl0 & Hrun).
    apply lift_Ok in Hl0 as [Hl0 ->].
    apply bind_Ok in Hrun as ([] & h1 & Hw & Hrun).
    unfold write in Hw. injection Hw as <-.
    apply IH in Hrun as (Hlen & Hother & Hset). rewrite length_insert in Hlen.
    unfold blob in Hl0. destruct (assoc name0 (blobs n)) as [l0'|] eqn:Ha0; [|discriminate].
    injection Hl0 as ->.
    split; [done|]. split.
    + intros l Hl. rewrite (Hother l).
      * apply list_lookup_insert_ne. intros ->. apply (Hl name0); [|done].
        cbn [map fst]. apply list_elem_of_here.
      * intros name Hin. apply Hl. cbn [map]. by apply list_elem_of_further.
    + intros name f l Hnd Hinj Hin Ha Hlt. cbn [map fst] in Hnd.
      apply NoDup_cons in Hnd as [Hnot Hnd].
      apply elem_of_cons in Hin as [[= -> ->]|Hin].
      * rewrite Ha in Ha0. injection Ha0 as ->. rewrite (Hother l0).
        { by apply list_lookup_insert_eq. }
        intros name Hname Hsame. apply Hnot.
        by rewrite (Hinj name0 name l0 Ha Hsame).
      * apply (Hset name f l); [done|done|done|done|by rewrite length_insert].
Qed.

Lemma zip_features_Ok name_batch ts_batch feature_batch (h h' : store F TS) fs :
  zip_features name_batch ts_batch feature_batch h = (Ok fs, h') ->
  exists names tss v rows,
    h !! name_batch = Some (ONames names) /\ h !! ts_batch = Some (OTimes tss) /\
    h !! feature_batch = Some (OArray v) /\ nd_rows v = Ok rows /\
    fs = zip_with (fun nt row => (nt.1, nt.2, row)) (zip names tss) rows /\ h' = h.
Proof.
  unfold zip_features, load_names, load_times, load_array, load, lift.
  unfold mbind, M_bind, mbind_M, ret, raise.
  destruct (h !! name_batch) as [[names| |]|]; try discriminate.
  destruct (h !! ts_batch) as [[|tss|]|]; try discriminate.
  destruct (h !! feature_batch) as [[| |v]|]; try discriminate.
  destruct (nd_rows v) as [rows|] eqn:Hrows; [|discriminate].
  intros [= <- <-]. exists names, tss, v, rows. by split_and!.
Qed.

Lemma caffe_init_net caffe (images : list (plot_tuple F TS)) (d : @net_def F)
    layer batch_size gpu (h0 h1 : store F TS) (self : @t F TS) :
  __init__ caffe images d layer batch_size gpu h0 = (Ok self, h1) ->
  self_net self
    = Net (zip (map fst (nd_blobs d)) (seq (length h0) (length (nd_blobs d))))
        (nd_layers d) /\
  CaffeExtractor.layer self = layer /\ CaffeExtractor.caffe self = caffe.
Proof.
  rewrite caffe_init_unfold. cbv zeta.
  destruct (blob _ "data") as [data|]; [|discriminate].
  destruct (_ !! data) as [[| |a]|]; try discriminate.
  destruct (set_transpose _ _); [|discriminate].
  destruct (set_channel_swap _ _); [|discriminate].
  by intros [= <- _].
Qed.

Lemma assoc_zip_seq_inj (bs : list (string * ndarray F)) base n1 n2 l :
  assoc n1 (zip (map fst bs) (seq base (length bs))) = Some l ->
  assoc n2 (zip (map fst bs) (seq base (length bs))) = Some l ->
  n1 = n2.
Proof.
  intros H1 H2. apply assoc_zip_seq in H1 as (i1 & a1 & -> & Hi1).
  apply assoc_zip_seq in H2 as (i2 & a2 & Heq & Hi2).
  assert (i1 = i2) as -> by lia. congruence.
Qed.

Lemma layer_fn_elem name (fns : list (string * (ndarray F -> ndarray F))) f :
  layer_fn name fns = Some f -> (name, f) ∈ fns.
Proof.
  induction fns as [|[k g] fns IH]; cbn [layer_fn]; [done|].
  destruct (decide (k = name)) as [->|].
  - intros [= <-]. apply list_elem_of_here.
  - intros H. apply list_elem_of_further. by apply IH.
Qed.

(** What a call of [extract_features] that returns has done: the records
    are zipped from the two lists and the rows of the array [v] that the
    blob of the requested layer holds after the forward pass. On a
    network in which no two layers compute the same blob and every blob
    has one name, [v] is what the layer of that name computes from the
    input blob. *)
Lemma caffe_extract_inv (self : @t F TS) (name_batch ts_batch image_batch : loc)
    (h h' : store F TS) batch fs :
  h !! image_batch = Some (OArray batch) ->
  extract_features self (name_batch, ts_batch, image_batch) h = (Ok fs, h') ->
  exists rows imgs stacked v frows names tss,
    nd_rows batch = Ok rows /\
    mapM (preprocess (CaffeExtractor.caffe self) (self_transformer self)) rows = Ok imgs /\
    np_array imgs = Ok stacked /\
    nd_rows v = Ok frows /\
    h' !! name_batch = Some (ONames names) /\ h' !! ts_batch = Some (OTimes tss) /\
    fs = zip_with (fun nt row => (nt.1, nt.2, row)) (zip names tss) frows /\
    (forall x, x ∉ map snd (blobs (self_net self)) -> h' !! x = h !! x) /\
    forall f : ndarray F -> ndarray F,
      NoDup (map fst (layer_fns (self_net self))) ->
      (CaffeExtractor.layer self, f) ∈ layer_fns (self_net self) ->
      (forall n1 n2 l, assoc n1 (blobs (self_net self)) = Some l ->
         assoc n2 (blobs (self_net self)) = Some l -> n1 = n2) ->
      v = f (NdArray float32 (nd_shape stacked) (nd_data stacked)).
Proof.
  intros Hi Hrun.
  unfold extract_features in Hrun.
  apply bind_Ok in Hrun as (ld & ? & Hld & Hrun). apply lift_Ok in Hld as [Hld ->].
  apply bind_Ok in Hrun as (dd & ? & Hdd & Hrun). apply load_array_Ok in Hdd as [Hdd ->].
  apply bind_Ok in Hrun as (batch' & ? & Hb & Hrun). apply load_array_Ok in Hb as [Hb ->].
  rewrite Hi in Hb. injection Hb as <-.
  destruct (nd_shape dd) as [|? [|c [|hh [|ww [|? ?]]]]]; try discriminate Hrun.
  destruct (nd_shape batch) as [|nb ?]; try discriminate Hrun.
  apply bind_Ok in Hrun as ([] & ? & Hw & Hrun). unfold write in Hw. injection Hw as <-.
  apply bind_Ok in Hrun as (rows & ? & Hrows & Hrun). apply lift_Ok in Hrows as [Hrows ->].
  apply bind_Ok in Hrun as (imgs & ? & Himgs & Hrun). apply lift_Ok in Himgs as [Himgs ->].
  apply bind_Ok in Hrun as (stacked & ? & Hst & Hrun). apply lift_Ok in Hst as [Hst ->].
  apply bind_Ok in Hrun as ([] & h2 & Hw & Hrun).
  destruct (decide (nd_shape stacked = [nb; c; hh; ww])) as [Hshape|]; [|discriminate Hw].
  unfold write in Hw. injection Hw as <-.
  apply bind_Ok in Hrun as (d' & ? & Hd' & Hrun). apply load_array_Ok in Hd' as [Hd' ->].
  assert (Hldlt : ld < length h) by (by apply lookup_lt_Some in Hdd).
  rewrite list_lookup_insert_eq in Hd' by (by rewrite length_insert).
  injection Hd' as <-.
  apply bind_Ok in Hrun as ([] & h3 & Hfw & Hrun).
  apply forward_spec in Hfw as (Hlen & Hother & Hset). rewrite !length_insert in Hlen.
  apply bind_Ok in Hrun as (ll & ? & Hll & Hrun). apply lift_Ok in Hll as [Hll ->].
  apply zip_features_Ok in Hrun
    as (names & tss & v & frows & Hn & Ht & Hv & Hfrows & -> & ->).
  unfold blob in Hld, Hll.
  destruct (assoc "data" _) as [ld'|] eqn:Hadata; [|discriminate]. injection Hld as ->.
  destruct (assoc (CaffeExtractor.layer self) _) as [ll'|] eqn:Halayer; [|discriminate].
  injection Hll as ->.
  exists rows, imgs, stacked, v, frows, names, tss. split_and!; try done.
  - intros x Hl. rewrite Hother.
    + rewrite !list_lookup_insert_ne; [done| |]; intros ->; apply Hl;
        by apply (assoc_owned "data").
    + intros name _ Ha. apply Hl. by apply (assoc_owned name).
  - intros f Hnd Hin Hinj.
    rewrite (Hset (CaffeExtractor.layer self) f ll) in Hv; [|done|done|done|done|].
    2:{ rewrite !length_insert. apply lookup_lt_Some in Hv. lia. }
    injection Hv as <-. by rewrite <- Hshape.
Qed.

(** X22. What the legacy backend extracts. For an extractor returned by
    the constructor on a network whose layers compute distinct blobs,
    and a batch whose two lists are not blobs of the network: when
    [extract_features] returns, its records are the identifiers and the
    timestamps of the batch zipped with the rows of what the requested
    layer computes from the input blob, the input blob holding, as
    [float32], the stack of the preprocessed images of the batch. *)
Theorem caffe_features_spec caffe (images : list (plot_tuple F TS)) (d : @net_def F)
    (layer : string) (batch_size : Z) (gpu : bool) (h0 h1 : store F TS) (self : @t F TS)
    (name_batch ts_batch image_batch : loc) (h h' : store F TS)
    names tss batch (f : ndarray F -> ndarray F) fs :
  __init__ caffe images d layer batch_size gpu h0 = (Ok self, h1) ->
  NoDup (map fst (nd_layers d)) -> (layer, f) ∈ nd_layers d ->
  h !! name_batch = Some (ONames names) ->
  h !! ts_batch = Some (OTimes tss) ->
  h !! image_batch = Some (OArray batch) ->
  ~ owned (CaffeBackend self) name_batch -> ~ owned (CaffeBackend self) ts_batch ->
  extract_features self (name_batch, ts_batch, image_batch) h = (Ok fs, h') ->
  exists rows imgs stacked frows,
    nd_rows batch = Ok rows /\
    mapM (preprocess caffe (self_transformer self)) rows = Ok imgs /\
    np_array imgs = Ok stacked /\
    nd_rows (f (NdArray float32 (nd_shape stacked) (nd_data stacked))) = Ok frows /\
    fs = zip_with (fun nt row => (nt.1, nt.2, row)) (zip names tss) frows.
Proof.
  intros Hinit Hnd Hin Hn Ht Hi Hon Hot Hrun.
  destruct (caffe_init_net _ _ _ _ _ _ _ _ _ Hinit) as (Hnet & Hlayer & Hcaffe).
  cbn [owned] in Hon, Hot.
  destruct (caffe_extract_inv self name_batch ts_batch image_batch h h' batch fs Hi Hrun)
    as (rows & imgs & stacked & v & frows & names' & tss' & Hrows & Himgs & Hst & Hfrows
        & Hn' & Ht' & -> & Hkeep & Hv).
  rewrite Hkeep, Hn in Hn' by done. rewrite Hkeep, Ht in Ht' by done.
  injection Hn' as <-. injection Ht' as <-. rewrite Hcaffe in Himgs.
  rewrite (Hv f) in Hfrows.
  - exists rows, imgs, stacked, frows. by split_and!.
  - by rewrite Hnet.
  - by rewrite Hnet, Hlayer.
  - rewrite Hnet. cbn [blobs]. intros n1 n2 l. apply assoc_zip_seq_inj.
Qed.

End LegacyExtraction.

(** * In-place preprocessing *)

Section InPlace.

Import KerasExtractor.

Local Open Scope nat_scope.

Context {F TS : Type}.

Lemma resize_same_size (tf : @library F) x (size : nat * nat) (h : store F TS) a nn rest :
  h !! x = Some (OArray a) -> nd_shape a = nn :: size.1 :: size.2 :: rest ->
  __resize tf x size h = (Ok x, h).
Proof.
  intros Hx Hshape. unfold __resize, load_array, load, mbind, M_bind, mbind_M, ret.
  rewrite Hx, Hshape. rewrite decide_True; [done|by destruct size].
Qed.

Lemma keras_tail_keeps W (h0 : store F TS) (self : @t F TS) name_batch ts_batch y :
  keeps W h0
    (predict self y ≫= fun feature_batch =>
     load_array feature_batch ≫= fun a =>
     lift (np_flatten_rows a) ≫= fun flat =>
     alloc (OArray flat) ≫= fun feature_batch0 =>
     zip_features name_batch ts_batch feature_batch0).
Proof.
  apply keeps_bind.
  { unfold predict.
    apply keeps_bind; [apply keeps_load_array|intros a].
    apply keeps_bind; [apply keeps_lift|intros v]. apply keeps_alloc. }
  intros fb.
  apply keeps_bind; [apply keeps_load_array|intros a].
  apply keeps_bind; [apply keeps_lift|intros flat].
  apply keeps_bind; [apply keeps_alloc|intros fb']. apply keeps_zip_features.
Qed.

Lemma keras_in_place (self : @t F TS) (key : string)
    (name_batch ts_batch image_batch : loc) (h : store F TS) (a : ndarray F)
    (nn : nat) (rest : list nat) (l : loc) :
  preprocess self = preprocess_input key ->
  h !! image_batch = Some (OArray a) ->
  is_floating (nd_dtype a) = true ->
  nd_shape a = nn :: (km_input_size (model self)).1 :: (km_input_size (model self)).2 :: rest ->
  l <= length h ->
  (extract_features self (name_batch, ts_batch, image_batch) h).2 !! l
    = (<[image_batch := OArray (preprocess_residue (tf self) key a)]> h
         ++ [OArray (preprocess_value (tf self) key a)]) !! l.
Proof.
  intros Hpre Hx Hfl Hshape Hl. unfold extract_features.
  unfold mbind at 1, M_bind at 1, mbind_M at 1.
  rewrite (resize_same_size _ _ _ _ a nn rest Hx Hshape).
  unfold mbind at 1, M_bind at 1, mbind_M at 1.
  rewrite Hpre. cbn [call_preprocess].
  unfold load_array at 1, load at 1, mbind at 1, M_bind at 1, mbind_M at 1.
  unfold mbind at 1, M_bind at 1, mbind_M at 1. rewrite Hx. unfold ret at 1.
  rewrite Hfl. unfold mbind at 1, M_bind at 1, mbind_M at 1. unfold write, alloc at 1.
  rewrite length_insert.
  set (h1 := <[image_batch := _]> h ++ _).
  set (tail := predict self (length h) ≫= _).
  pose proof (keras_tail_keeps (fun _ => False) h1 self name_batch ts_batch (length h))
    as Hkeeps.
  fold tail in Hkeeps. unfold keeps, triple in Hkeeps.
  specialize (Hkeeps h1 (frame_refl _ h1)).
  assert (Hlen1 : length h1 = S (length h)).
  { unfold h1. rewrite length_app, length_insert. cbn [length]. lia. }
  destruct (tail h1) as [[fs|e] h2]; destruct Hkeeps as [_ Hk];
    (apply Hk; [lia|by intros []]).
Qed.

(** X23. The named-architecture backend on an image array of a float
    dtype that already has the model's input size, under a key whose
    preprocessing is the library's [preprocess_input]: whatever happens
    later in [extract_features], the caller's array has been overwritten
    with what [preprocess_input] leaves in its argument, and the
    preprocessed array is the first new object of the store. A batch of
    [_batch_images] is [uint8] and never takes this path. *)
Theorem keras_float_batch_overwritten (self : @t F TS) (key : string)
    (name_batch ts_batch image_batch : loc) (h : store F TS) (a : ndarray F)
    (nn : nat) (rest : list nat) :
  preprocess self = preprocess_input key ->
  h !! image_batch = Some (OArray a) ->
  is_floating (nd_dtype a) = true ->
  nd_shape a = nn :: (km_input_size (model self)).1 :: (km_input_size (model self)).2 :: rest ->
  let h' := (extract_features self (name_batch, ts_batch, image_batch) h).2 in
  h' !! image_batch = Some (OArray (preprocess_residue (tf self) key a)) /\
  h' !! length h = Some (OArray (preprocess_value (tf self) key a)).
Proof.
  intros Hpre Hx Hfl Hshape h'. subst h'.
  assert (Hlt : image_batch < length h) by (by apply lookup_lt_Some in Hx).
  split.
  - rewrite (keras_in_place self key _ _ _ h a nn rest) by (done || lia).
    rewrite lookup_app_l by (by rewrite length_insert).
    by apply list_lookup_insert_eq.
  - rewrite (keras_in_place self key _ _ _ h a nn rest) by (done || lia).
    rewrite lookup_app_r by (by rewrite length_insert).
    by rewrite length_insert, Nat.sub_diag.
Qed.

End InPlace.

(** * Extraction leaves the batch alone, floats apart *)

Section BatchKept.

Local Open Scope nat_scope.

Context {F TS : Type}.
Variable float_to_uint8 : F -> Z.

Lemma keeps_call_preprocess_pure W (h0 : store F TS) tf p x :
  (forall key, p <> KerasExtractor.preprocess_input key) ->
  keeps W h0 (KerasExtractor.call_preprocess tf p x).
Proof.
  intros Hp. destruct p as [|key|]; cbn [KerasExtractor.call_preprocess].
  - unfold KerasExtractor.__preprocess_vgg.
    apply keeps_bind; [apply keeps_load_array|intros a].
    apply keeps_bind; [apply keeps_lift|intros reversed]. apply keeps_alloc.
  - by destruct (Hp key).
  - apply keeps_raise.
Qed.

Lemma keeps_keras_pure W (h0 : store F TS) (self : KerasExtractor.t) tuple_batch :
  (forall key, KerasExtractor.preprocess self <> KerasExtractor.preprocess_input key) ->
  keeps W h0 (KerasExtractor.extract_features self tuple_batch).
Proof.
  intros Hp. destruct tuple_batch as [[name_batch ts_batch] image_batch].
  unfold KerasExtractor.extract_features.
  apply keeps_bind.
  { eapply triple_weaken; [apply triple_resize|done|]. by intros x h [? _]. }
  intros x. apply keeps_bind; [by apply keeps_call_preprocess_pure|intros y].
  apply keras_tail_keeps.
Qed.

Lemma batches_not_floating (images : list (plot_tuple F TS)) bs :
  Forall (fun y => nd_dtype (batch_images y) = uint8 /\
                   is_floating (nd_dtype (batch_images y)) = false)
    (list_gen float_to_uint8 (_batch_images images bs)).1.
Proof.
  destruct (fresh_cover float_to_uint8 images bs) as (groups & leftover & _ & Hall & _).
  apply Forall_forall. intros y Hy. apply list_elem_of_lookup in Hy as [k Hk].
  destruct (Forall2_lookup_r _ _ _ _ _ Hall Hk) as (group & _ & _ & _ & _ & Hstack).
  apply np_stack_dtype in Hstack. by rewrite Hstack.
Qed.

(** C8, as the code has it. Take any of the four backends and a batch
    held in the store, none of its three objects being one of the
    backend's own blobs. Whatever [extract_features] returns or raises,
    the store afterwards holds the same identifier list and the same
    timestamp list at the batch's references. It holds the same image
    array too when the array is not of a float dtype, and, whatever the
    dtype, when the backend is not a named-architecture extractor that
    preprocesses with the library's [preprocess_input]. The image array
    of every batch [_batch_images] emits is [uint8], not a float
    dtype. *)
Theorem extract_features_keeps_batch (b : @backend F TS) (h : store F TS)
    (name_batch ts_batch image_batch : loc) names tss a :
  h !! name_batch = Some (ONames names) ->
  h !! ts_batch = Some (OTimes tss) ->
  h !! image_batch = Some (OArray a) ->
  ~ owned b name_batch -> ~ owned b ts_batch -> ~ owned b image_batch ->
  let h' := (backend_extract b (name_batch, ts_batch, image_batch) h).2 in
  h' !! name_batch = Some (ONames names) /\
  h' !! ts_batch = Some (OTimes tss) /\
  (is_floating (nd_dtype a) = false -> h' !! image_batch = Some (OArray a)) /\
  (match b with
   | KerasBackend self =>
       forall key, KerasExtractor.preprocess self <> KerasExtractor.preprocess_input key
   | _ => True
   end -> h' !! image_batch = Some (OArray a)) /\
  (forall (images : list (plot_tuple F TS)) batch_size,
     Forall (fun y => nd_dtype (batch_images y) = uint8 /\
                      is_floating (nd_dtype (batch_images y)) = false)
       (list_gen float_to_uint8 (_batch_images images batch_size)).1).
Proof.
  intros Hn Ht Hi Hon Hot Hoi h'.
  assert (Hframe : forall W, keeps W h (backend_extract b (name_batch, ts_batch, image_batch)) ->
            frame W h h').
  { intros W Hk. specialize (Hk h (frame_refl _ h)). unfold h'.
    by destruct (backend_extract b _ h) as [[fs|e] h1]. }
  assert (Hlists : frame (fun l => owned b l \/ l = image_batch) h h').
  { pose proof (backend_paired b h name_batch ts_batch image_batch h (frame_refl _ h)) as Hk.
    unfold h'. destruct (backend_extract b _ h) as [[fs|e] h1]; [by destruct Hk|done]. }
  split; [|split; [|split; [|split]]].
  - destruct Hlists as [_ Hl]. rewrite Hl; [done|by eapply lookup_lt_Some|].
    intros [?| ->]; [done|congruence].
  - destruct Hlists as [_ Hl]. rewrite Hl; [done|by eapply lookup_lt_Some|].
    intros [?| ->]; [done|congruence].
  - intros Hfl. destruct (Hframe (owned b)) as [_ Hl].
    { by apply (backend_keeps b h name_batch ts_batch image_batch a). }
    rewrite Hl; [done|by eapply lookup_lt_Some|done].
  - intros Hpure. destruct (Hframe (owned b)) as [_ Hl].
    { destruct b as [self|self|self|self]; cbn [backend_extract].
      - apply keeps_tf.
      - apply keeps_hub.
      - by apply keeps_keras_pure.
      - apply keeps_caffe. intros name l. apply blob_owned. }
    rewrite Hl; [done|by eapply lookup_lt_Some|done].
  - apply batches_not_floating.
Qed.

End BatchKept.

(** * The feature array behind the records *)

Section FeatureArrays.

Local Open Scope nat_scope.

Context {F TS : Type}.
Variable float_to_uint8 : F -> Z.

Abbreviation zipped names tss rows :=
  (zip_with (fun (nt : string * TS) (row : ndarray F) => (nt.1, nt.2, row))
     (zip names tss) rows).

Lemma alloc_Ok (o : obj F TS) (h h1 : store F TS) l :
  alloc o h = (Ok l, h1) -> h1 !! l = Some o.
Proof.
  unfold alloc. intros [= <- <-]. by rewrite lookup_app_r, Nat.sub_diag.
Qed.

Lemma session_run_Ok run fetch feed (h h1 : store F TS) a l :
  h !! feed = Some (OArray a) ->
  TensorFlowExtractor.session_run run fetch feed h = (Ok l, h1) ->
  exists v, TensorFlowExtractor.eval_tensor run fetch a = Ok v /\
            h1 !! l = Some (OArray v).
Proof.
  intros Hfeed Hrun. unfold TensorFlowExtractor.session_run in Hrun.
  apply bind_Ok in Hrun as (a' & ? & Ha & Hrun). apply load_array_Ok in Ha as [Ha ->].
  rewrite Hfeed in Ha. injection Ha as <-.
  apply bind_Ok in Hrun as (v & ? & Hv & Hrun). apply lift_Ok in Hv as [Hv ->].
  exists v. split; [done|]. by apply alloc_Ok in Hrun.
Qed.

Lemma resize_Ok (tf : @KerasExtractor.library F) x target_size (h h1 : store F TS) a l :
  h !! x = Some (OArray a) ->
  KerasExtractor.__resize tf x target_size h = (Ok l, h1) ->
  exists v, KerasExtractor.resized tf a target_size = Ok v /\
            h1 !! l = Some (OArray v).
Proof.
  intros Hx Hrun. unfold KerasExtractor.__resize in Hrun.
  apply bind_Ok in Hrun as (a' & ? & Ha & Hrun). apply load_array_Ok in Ha as [Ha ->].
  rewrite Hx in Ha. injection Ha as <-. unfold KerasExtractor.resized.
  destruct (nd_shape a) as [|? [|hh [|ww ?]]]; try discriminate Hrun.
  destruct (decide ((hh, ww) = target_size)).
  - injection Hrun as <- <-. by exists a.
  - apply bind_Ok in Hrun as (rows & ? & Hrows & Hrun). apply lift_Ok in Hrows as [-> ->].
    apply bind_Ok in Hrun as (imgs & ? & Himgs & Hrun). apply lift_Ok in Himgs as [Himgs ->].
    apply bind_Ok in Hrun as (st & ? & Hst & Hrun). apply lift_Ok in Hst as [Hst ->].
    exists st. cbn. rewrite Himgs. cbn. split; [done|]. by apply alloc_Ok in Hrun.
Qed.

Lemma call_preprocess_Ok (tf : @KerasExtractor.library F) p x (h h1 : store F TS) a l :
  h !! x = Some (OArray a) ->
  KerasExtractor.call_preprocess tf p x h = (Ok l, h1) ->
  exists v, KerasExtractor.preprocessed tf p a = Ok v /\
            h1 !! l = Some (OArray v).
Proof.
  intros Hx Hrun. destruct p as [|key|]; cbn [KerasExtractor.call_preprocess
    KerasExtractor.preprocessed] in *; [| |discriminate].
  - unfold KerasExtractor.__preprocess_vgg in Hrun.
    apply bind_Ok in Hrun as (a' & ? & Ha & Hrun). apply load_array_Ok in Ha as [Ha ->].
    rewrite Hx in Ha. injection Ha as <-.
    apply bind_Ok in Hrun as (v & ? & Hv & Hrun). apply lift_Ok in Hv as [Hv ->].
    exists v. split; [done|]. by apply alloc_Ok in Hrun.
  - apply bind_Ok in Hrun as (a' & ? & Ha & Hrun). apply load_array_Ok in Ha as [Ha ->].
    rewrite Hx in Ha. injection Ha as <-. eexists. split; [done|].
    destruct (is_floating (nd_dtype a)); [|by apply alloc_Ok in Hrun].
    apply bind_Ok in Hrun as ([] & ? & _ & Hrun). by apply alloc_Ok in Hrun.
Qed.

Lemma predict_Ok (self : @KerasExtractor.t F TS) x (h h1 : store F TS) a l :
  h !! x = Some (OArray a) ->
  KerasExtractor.predict self x h = (Ok l, h1) ->
  exists v, KerasExtractor.km_predict (KerasExtractor.model self)
              (KerasExtractor.layer self) a = Ok v /\
            h1 !! l = Some (OArray v).
Proof.
  intros Hx Hrun. unfold KerasExtractor.predict in Hrun.
  apply bind_Ok in Hrun as (a' & ? & Ha & Hrun). apply load_array_Ok in Ha as [Ha ->].
  rewrite Hx in Ha. injection Ha as <-.
  apply bind_Ok in Hrun as (v & ? & Hv & Hrun). apply lift_Ok in Hv as [Hv ->].
  exists v. split; [done|]. by apply alloc_Ok in Hrun.
Qed.

(** What a call of [extract_features] that returns has done, for any
    backend: the records are zipped from the two lists, as the store has
    them afterwards, and the rows of an array that is the feature array
    of the backend. *)
Lemma backend_extract_inv (b : @backend F TS) (h h' : store F TS)
    (name_batch ts_batch image_batch : loc) a fs :
  h !! image_batch = Some (OArray a) ->
  backend_extract b (name_batch, ts_batch, image_batch) h = (Ok fs, h') ->
  exists names tss v rows,
    h' !! name_batch = Some (ONames names) /\ h' !! ts_batch = Some (OTimes tss) /\
    nd_rows v = Ok rows /\ fs = zipped names tss rows /\
    (backend_computes_layer b -> backend_features b a = Ok v).
Proof.
  intros Hi Hrun. destruct b as [self|self|self|self]; cbn [backend_extract
    Extractor.extract_features TensorFlowExtractor.class TensorflowHubExtractor.class
    KerasExtractor.class CaffeExtractor.class backend_features backend_computes_layer] in *.
  - unfold TensorFlowExtractor.extract_features in Hrun.
    apply bind_Ok in Hrun as (fb & h1 & Hfb & Hrun).
    destruct (session_run_Ok _ _ _ _ _ _ _ Hi Hfb) as (v & Hv & Hl).
    apply zip_features_Ok in Hrun as (names & tss & v' & rows & Hn & Ht & Hv' & Hrows & -> & ->).
    rewrite Hl in Hv'. injection Hv' as <-.
    exists names, tss, v, rows. by split_and!.
  - unfold TensorflowHubExtractor.extract_features in Hrun.
    apply bind_Ok in Hrun as (session & ? & Hs & Hrun). apply lift_Ok in Hs as [Hs ->].
    apply bind_Ok in Hrun as (features & ? & Hf & Hrun). apply lift_Ok in Hf as [Hf ->].
    apply bind_Ok in Hrun as (a' & ? & Ha & Hrun). apply load_array_Ok in Ha as [Ha ->].
    rewrite Hi in Ha. injection Ha as <-.
    apply bind_Ok in Hrun as (v & ? & Hv & Hrun). apply lift_Ok in Hv as [Hv ->].
    apply bind_Ok in Hrun as (fb & h1 & Hfb & Hrun). apply alloc_Ok in Hfb.
    apply zip_features_Ok in Hrun as (names & tss & v' & rows & Hn & Ht & Hv' & Hrows & -> & ->).
    rewrite Hfb in Hv'. injection Hv' as <-.
    exists names, tss, v, rows. split_and!; try done. intros _.
    unfold TensorflowHubExtractor.feature_batch. rewrite Hs. cbn. rewrite Hf. by cbn.
  - unfold KerasExtractor.extract_features in Hrun.
    apply bind_Ok in Hrun as (x1 & h1 & Hx1 & Hrun).
    destruct (resize_Ok _ _ _ _ _ _ _ Hi Hx1) as (a1 & Ha1 & Hl1).
    apply bind_Ok in Hrun as (x2 & h2 & Hx2 & Hrun).
    destruct (call_preprocess_Ok _ _ _ _ _ _ _ Hl1 Hx2) as (a2 & Ha2 & Hl2).
    apply bind_Ok in Hrun as (x3 & h3 & Hx3 & Hrun).
    destruct (predict_Ok _ _ _ _ _ _ Hl2 Hx3) as (a3 & Ha3 & Hl3).
    apply bind_Ok in Hrun as (a3' & ? & Hld & Hrun). apply load_array_Ok in Hld as [Hld ->].
    rewrite Hl3 in Hld. injection Hld as <-.
    apply bind_Ok in Hrun as (flat & ? & Hflat & Hrun). apply lift_Ok in Hflat as [Hflat ->].
    apply bind_Ok in Hrun as (fb & h4 & Hfb & Hrun). apply alloc_Ok in Hfb.
    apply zip_features_Ok in Hrun as (names & tss & v' & rows & Hn & Ht & Hv' & Hrows & -> & ->).
    rewrite Hfb in Hv'. injection Hv' as <-.
    exists names, tss, flat, rows. split_and!; try done. intros _.
    unfold KerasExtractor.feature_batch. rewrite Ha1. cbn. rewrite Ha2. cbn.
    rewrite Ha3. by cbn.
  - destruct (caffe_extract_inv self name_batch ts_batch image_batch h h' a fs Hi Hrun)
      as (rows & imgs & stacked & v & frows & names & tss & Hrows & Himgs & Hst & Hfrows
          & Hn & Ht & -> & _ & Hv).
    exists names, tss, v, frows. split_and!; try done.
    intros (Hnd & [f Hf] & Hinj).
    unfold CaffeExtractor.feature_batch. rewrite Hrows. cbn. rewrite Himgs. cbn.
    rewrite Hst. cbn. rewrite Hf. cbn.
    by rewrite (Hv f Hnd (layer_fn_elem _ _ _ Hf) Hinj).
Qed.

(** The same, for a batch whose two lists are not blobs of the backend:
    the lists are those the store had before the call. *)
Lemma backend_extract_spec (b : @backend F TS) (h h' : store F TS)
    (name_batch ts_batch image_batch : loc) names tss a fs :
  h !! name_batch = Some (ONames names) ->
  h !! ts_batch = Some (OTimes tss) ->
  h !! image_batch = Some (OArray a) ->
  ~ owned b name_batch -> ~ owned b ts_batch ->
  backend_extract b (name_batch, ts_batch, image_batch) h = (Ok fs, h') ->
  exists v rows,
    nd_rows v = Ok rows /\ fs = zipped names tss rows /\
    (backend_computes_layer b -> backend_features b a = Ok v).
Proof.
  intros Hn Ht Hi Hon Hot Hrun.
  destruct (backend_extract_inv b h h' name_batch ts_batch image_batch a fs Hi Hrun)
    as (names' & tss' & v & rows & Hn' & Ht' & Hrows & -> & Hv).
  pose proof (backend_paired b h name_batch ts_batch image_batch h (frame_refl _ h))
    as Hframe.
  rewrite Hrun in Hframe. destruct Hframe as [[_ Hframe] _].
  rewrite Hframe, Hn in Hn'; [|eauto using lookup_lt_Some|intros [?| ->]; [done|congruence]].
  rewrite Hframe, Ht in Ht'; [|eauto using lookup_lt_Some|intros [?| ->]; [done|congruence]].
  injection Hn' as <-. injection Ht' as <-. by exists v, rows.
Qed.

(** X18. Records are paired by position with the rows of the feature
    array. For any backend and any batch in the store whose identifier
    and timestamp lists are not blobs of the backend, the records
    [extract_features] returns are the identifiers and the timestamps of
    the batch zipped with the rows of an array: record [k] carries
    identifier [k], timestamp [k] and row [k], and there are as many
    records as the shortest of the three. That array is the feature
    array the backend computes from the image array of the batch; for
    the legacy backend this holds on a network in which the requested
    layer is computed by one layer and every blob has one name. *)
Theorem features_paired (b : @backend F TS) (h h' : store F TS)
    (name_batch ts_batch image_batch : loc) names tss a fs :
  h !! name_batch = Some (ONames names) ->
  h !! ts_batch = Some (OTimes tss) ->
  h !! image_batch = Some (OArray a) ->
  ~ owned b name_batch -> ~ owned b ts_batch ->
  backend_extract b (name_batch, ts_batch, image_batch) h = (Ok fs, h') ->
  exists feature_batch rows,
    nd_rows feature_batch = Ok rows /\
    (backend_computes_layer b -> backend_features b a = Ok feature_batch) /\
    fs = zip_with (fun nt row => (nt.1, nt.2, row)) (zip names tss) rows /\
    length fs = Nat.min (Nat.min (length names) (length tss)) (length rows) /\
    forall k f, fs !! k = Some f ->
      names !! k = Some f.1.1 /\ tss !! k = Some f.1.2 /\ rows !! k = Some f.2.
Proof.
  intros Hn Ht Hi Hon Hot Hrun.
  destruct (backend_extract_spec b h h' name_batch ts_batch image_batch names tss a fs)
    as (v & rows & Hrows & -> & Hv); try done.
  exists v, rows. split_and!; try done; [apply zip_features_length|].
  apply zip_features_pairs.
Qed.

Lemma backend_next_features (b : @backend F TS) (yielded : batch F TS) g' :
  gen_next float_to_uint8 (backend_images b) = (Yield yielded, g') ->
  exists b',
    backend_next float_to_uint8 b
      = (alloc_batch yielded ≫= backend_extract b', b') /\
    backend_images b' = g' /\ (forall l, owned b' l <-> owned b l) /\
    (forall a, backend_features b' a = backend_features b a) /\
    (backend_computes_layer b' <-> backend_computes_layer b).
Proof.
  intros Hstep. destruct b as [self|self|self|self];
    cbn [backend_next backend_images] in *; unfold Extractor.__next__; rewrite Hstep.
  - by exists (GraphBackend (Extractor.set_images self g')).
  - by exists (HubBackend (Extractor.set_images self g')).
  - by exists (KerasBackend (Extractor.set_images self g')).
  - by exists (CaffeBackend (Extractor.set_images self g')).
Qed.

(** One step of the iteration that pulls a batch. *)
Lemma backend_next_step (b : @backend F TS) (h : store F TS) (y : batch F TS) g' :
  (forall l, owned b l -> l < length h) ->
  gen_next float_to_uint8 (backend_images b) = (Yield y, g') ->
  match (backend_next float_to_uint8 b).1 h with
  | (Ok fs, h1) =>
      (exists feature_batch rows,
         nd_rows feature_batch = Ok rows /\
         (backend_computes_layer b -> backend_features b (batch_images y) = Ok feature_batch) /\
         fs = zipped (batch_names y) (batch_ts y) rows) /\
      frame (owned b) h h1
  | (Raise _, h1) => frame (owned b) h h1
  end.
Proof.
  intros Hown Hstep.
  destruct (backend_next_features b y g' Hstep) as (b' & -> & _ & Hb' & Hfeat & Hcomp).
  cbn [fst]. unfold mbind, M_bind, mbind_M. rewrite alloc_batch_spec.
  set (h1 := h ++ _).
  assert (Hlen1 : length h1 = length h + 3) by (unfold h1; rewrite length_app; done).
  assert (Hfresh : forall l, length h <= l -> ~ owned b' l).
  { intros l Hl Ho. apply Hb', Hown in Ho. lia. }
  pose proof (backend_paired b' h1 (length h) (S (length h)) (S (S (length h)))
                h1 (frame_refl _ h1)) as Hrun.
  assert (Hback : forall h2, frame (fun l => owned b' l \/ l = S (S (length h))) h1 h2 ->
            frame (owned b) h h2).
  { intros h2 [Hlen2 Hl2]. split; [lia|]. intros l Hl Ho.
    rewrite Hl2; [unfold h1; by rewrite lookup_app_l|lia|].
    intros [Ho'| ->]; [by apply Ho, Hb'|lia]. }
  destruct (backend_extract b' _ h1) as [[fs|e] h2] eqn:Hext; [|by apply Hback].
  destruct Hrun as [Hframe _]. split; [|by apply Hback].
  destruct (backend_extract_spec b' h1 h2 (length h) (S (length h)) (S (S (length h)))
              (batch_names y) (batch_ts y) (batch_images y) fs)
    as (v & rows & Hrows & -> & Hv); try done.
  - unfold h1. rewrite lookup_app_r by lia. by rewrite Nat.sub_diag.
  - unfold h1. rewrite lookup_app_r by lia.
    by replace (S (length h) - length h) with 1 by lia.
  - unfold h1. rewrite lookup_app_r by lia.
    by replace (S (S (length h)) - length h) with 2 by lia.
  - apply Hfresh. lia.
  - apply Hfresh. lia.
  - exists v, rows. split_and!; try done. intros Hc. rewrite <- Hfeat. by apply Hv, Hcomp.
Qed.

(** X21. Iterating a backend whose network blobs all lie in the store
    follows the batches of its generator: the lists of records that
    came out, in order, are built from the first batches of the
    generator, in order, each list being the identifiers and the
    timestamps of its batch zipped with the rows of an array. That
    array is the feature array the backend computes from the image
    array of that batch; for the legacy backend this holds on a network
    in which the requested layer is computed by one layer and every
    blob has one name. Every object that was in the store before the
    iteration is unchanged afterwards, the backend's own blobs
    excepted. *)
Theorem iteration_follows_batches (fuel : nat) (b : @backend F TS) (h : store F TS)
    (outs : list (list (@FeatureTuple F TS))) (e : exn) (h' : store F TS) :
  (forall l, owned b l -> l < length h) ->
  backend_drain float_to_uint8 fuel b h = Some (outs, e, h') ->
  exists batches,
    batches `prefix_of` (list_gen float_to_uint8 (backend_images b)).1 /\
    Forall2 (fun fs y =>
               exists feature_batch rows,
                 nd_rows feature_batch = Ok rows /\
                 (backend_computes_layer b ->
                    backend_features b (batch_images y) = Ok feature_batch) /\
                 fs = zipped (batch_names y) (batch_ts y) rows)
      outs batches /\
    length h <= length h' /\
    (forall l, l < length h -> ~ owned b l -> h' !! l = h !! l).
Proof.
  revert b h outs e h'. induction fuel as [|fuel IH]; intros b h outs e h' Hown; [done|].
  cbn [backend_drain].
  pose proof (gen_next_step float_to_uint8 (backend_images b)) as Hgen.
  destruct (gen_next float_to_uint8 (backend_images b)) as [[y|e0] g'] eqn:Hnext.
  - destruct Hgen as [Hrun _].
    pose proof (backend_next_step b h y g' Hown Hnext) as Hstep.
    destruct (backend_next_features b y g' Hnext)
      as (b' & Hb & Himages & Hb' & Hfeat & Hcomp).
    rewrite Hb in Hstep |- *. cbn [fst] in Hstep.
    destruct ((alloc_batch y ≫= backend_extract b') h) as [[fs|e1] h1].
    + destruct Hstep as [Hfs [Hlen1 Hl1]].
      destruct (backend_drain float_to_uint8 fuel b' h1) as [[[outs' e'] h2]|] eqn:Hrest;
        [|done].
      intros [= <- <- <-].
      destruct (IH b' h1 outs' e' h2) as (batches & Hpre & Hall & Hlen2 & Hl2); [|done|].
      { intros l Hl. apply Hb', Hown in Hl. lia. }
      exists (y :: batches). rewrite Hrun, <- Himages. cbn [fst].
      split; [by apply prefix_cons|]. split; [|split; [lia|]].
      * constructor; [done|]. eapply Forall2_impl; [exact Hall|].
        intros fs' y' (v & rows & Hrows & Hv & ->). exists v, rows. split_and!; try done.
        intros Hc. rewrite <- Hfeat. by apply Hv, Hcomp.
      * intros l Hl Ho. rewrite Hl2; [by apply Hl1|lia|by rewrite Hb'].
    + intros [= <- <- <-]. exists []. split; [apply prefix_nil|].
      split; [constructor|]. destruct Hstep as [? ?]. done.
  - destruct (backend_next_throw float_to_uint8 b e0 g' Hnext) as (b' & ->).
    intros [= <- <- <-]. exists []. split; [apply prefix_nil|]. split; [constructor|]. done.
Qed.

End FeatureArrays.

(** * The further properties on sample data *)

Lemma batch_images_unfold_witness :
  list_gen Sample.cast (_batch_images Sample.five 2) =
    let '(batches, e) := list_gen Sample.cast (_batch_images (drop 2 Sample.five) 2) in
    ((["a"; "b"]%string, [0; 1],
      NdArray uint8 [2; 1; 1; 3]%nat
        [SInt 44; SInt 255; SInt 7; SInt 1; SInt 2; SInt 3]) :: batches, e).
Proof.
  exact (batch_images_unfold Sample.cast Sample.five 2 ltac:(lia) ltac:(discriminate)).
Defined.

(** Images of different shapes are batched as long as each batch is of
    one shape. *)
Example mixed_shapes_by_one :
  (list_gen Sample.cast (_batch_images Sample.ragged 1)).2 = StopIteration /\
  length (list_gen Sample.cast (_batch_images Sample.ragged 1)).1 = 2%nat.
Proof. by vm_compute. Qed.

Lemma gen_next_consumes_witness :
  exists group b g',
    gen_next Sample.cast (_batch_images Sample.five 2) = (Yield b, g') /\
    Sample.five = group ++ g_images g' /\
    batch_names b = map tuple_name group.
Proof.
  destruct (gen_next Sample.cast (_batch_images Sample.five 2)) as [[b|e] g'] eqn:Hstep.
  - destruct (gen_next_consumes Sample.cast (_batch_images Sample.five 2) b g'
                eq_refl eq_refl eq_refl Hstep) as (group & Himages & (_ & Hnames & _) & _).
    exists group, b, g'. split; [reflexivity|]. split; [exact Himages|exact Hnames].
  - vm_compute in Hstep. discriminate.
Defined.

Lemma next_exhausted_witness :
  ((Extractor.__next__ Sample.cast (Extractor.__init__ Sample.ragged 2)).1 []).1
    = Raise ValueError /\
  ((Extractor.__next__ Sample.cast
      (Extractor.__next__ Sample.cast (Extractor.__init__ Sample.ragged 2)).2).1 []).1
    = Raise StopIteration.
Proof.
  destruct (@next_exhausted Z Z Sample.cast Extractor.t Extractor.base_class
              (Extractor.__init__ Sample.ragged 2) ValueError
              (Generator Closed [] 2 ["a"; "b"]%string [0; 1]
                 (map tuple_image Sample.ragged) 1)
              (fun _ _ => eq_refl) eq_refl) as (Hfirst & _ & Hlater & _).
  split; [by rewrite Hfirst|by rewrite Hlater].
Defined.

Lemma tf_init_spec_witness :
  exists self,
    @TensorFlowExtractor.__init__ Z Z Sample.five Sample.frozen "fc7" 2 true = Ok self /\
    TensorFlowExtractor.input self = TensorFlowExtractor.NodeOutput "extractor/input:0" /\
    "fc7"%string ∈ TensorFlowExtractor.layers self.
Proof.
  destruct (@TensorFlowExtractor.__init__ Z Z Sample.five Sample.frozen "fc7" 2 true)
    as [self|e] eqn:Hinit.
  - destruct (tf_init_spec Sample.five Sample.frozen "fc7" 2 true self Hinit)
      as (_ & _ & Hlayer & _ & Hinput & _).
    exists self. split; [reflexivity|]. split; [exact Hinput|exact Hlayer].
  - vm_compute in Hinit. discriminate.
Defined.

Lemma tf_layers_never_ignored_witness :
  exists self,
    @TensorFlowExtractor.__init__ Z Z Sample.five Sample.frozen "fc7" 2 true = Ok self /\
    TensorFlowExtractor.__ignore_tensor "fc7" = false.
Proof.
  destruct (@TensorFlowExtractor.__init__ Z Z Sample.five Sample.frozen "fc7" 2 true)
    as [self|e] eqn:Hinit.
  - destruct (tf_layers_never_ignored Sample.five Sample.frozen "fc7" 2 true self Hinit)
      as [Hlayer Hall].
    exists self. split; [reflexivity|]. exact (proj1 (Hall _ Hlayer)).
  - vm_compute in Hinit. discriminate.
Defined.

Lemma tf_layer_last_wins_witness :
  exists self,
    @TensorFlowExtractor.__init__ Z Z Sample.five Sample.frozen_relu "Relu" 2 true
      = Ok self /\
    TensorFlowExtractor.features self
      = TensorFlowExtractor.FlattenRows
          (TensorFlowExtractor.NodeOutput "extractor/conv2/Relu:0").
Proof.
  destruct (@TensorFlowExtractor.__init__ Z Z Sample.five Sample.frozen_relu "Relu" 2 true)
    as [self|e] eqn:Hinit.
  - exists self. split; [reflexivity|].
    apply (tf_layer_last_wins Sample.five Sample.frozen_relu "Relu" 2 true self
             [TensorFlowExtractor.Operation "extractor/conv1/Relu" 1]
             (TensorFlowExtractor.Operation "extractor/conv2/Relu" 1) [] Hinit).
    + reflexivity.
    + reflexivity.
    + constructor.
  - vm_compute in Hinit. discriminate.
Defined.

Lemma tf_init_errors_witness :
  @TensorFlowExtractor.__init__ Z Z Sample.five
      (TensorFlowExtractor.FrozenGraph [] (fun _ a => Ok a)) "fc7" 2 true
    = Raise IndexError /\
  @TensorFlowExtractor.__init__ Z Z Sample.five Sample.frozen_headless "fc7" 2 true
    = Raise (KeyError "extractor/input:0").
Proof.
  split.
  - exact (proj1 (tf_init_errors Sample.five
                    (TensorFlowExtractor.FrozenGraph [] (fun _ a => Ok a)) "fc7" 2 true)
             eq_refl).
  - apply (proj2 (tf_init_errors Sample.five Sample.frozen_headless "fc7" 2 true)).
    + discriminate.
    + repeat constructor.
    + intros op Hin Hname. apply list_elem_of_In in Hin. simpl in Hin.
      destruct Hin as [<-|[]]. discriminate.
Defined.

(** The sample zoo under each kind of key. *)
Example keras_keys :
  @KerasExtractor.__init__ Z Z Sample.keras Sample.five "inception_v3" "fc2" "imagenet"
      2 true = Raise TypeError /\
  @KerasExtractor.__init__ Z Z Sample.keras Sample.five "alexnet" "fc2" "imagenet"
      2 true = Raise (KeyError "alexnet") /\
  KerasExtractor.preprocess <$>
    (match @KerasExtractor.__init__ Z Z Sample.keras Sample.five "vgg19" "fc2" "imagenet"
             2 true with
     | Ok self => Some self
     | Raise _ => None
     end) = Some KerasExtractor.preprocess_vgg.
Proof. by vm_compute. Qed.

Lemma constructed_features_flat_witness :
  exists self fs h' D,
    @TensorFlowExtractor.__init__ Z Z Sample.five Sample.frozen "fc7" 2 true = Ok self /\
    TensorFlowExtractor.extract_features self (3, 4, 5)%nat Sample.caffe_store
      = (Ok fs, h') /\
    length fs = 2%nat /\
    Forall (fun f : @FeatureTuple Z Z => nd_shape f.2 = [D]) fs.
Proof.
  destruct (@TensorFlowExtractor.__init__ Z Z Sample.five Sample.frozen "fc7" 2 true)
    as [self|e] eqn:Hinit; [|vm_compute in Hinit; discriminate].
  destruct (TensorFlowExtractor.extract_features self (3, 4, 5)%nat Sample.caffe_store)
    as [[fs|e] h'] eqn:Hrun.
  - destruct (proj1 (@constructed_features_flat Z Z) Sample.five Sample.frozen "fc7" 2
                true self (3, 4, 5)%nat Sample.caffe_store h' fs Hinit Hrun) as [D HD].
    exists self, fs, h', D. split; [reflexivity|]. split; [exact Hrun|].
    split; [|exact HD].
    vm_compute in Hinit. injection Hinit as <-. vm_compute in Hrun.
    injection Hrun as <- _. reflexivity.
  - vm_compute in Hinit. injection Hinit as <-. vm_compute in Hrun. discriminate.
Defined.

Lemma caffe_init_spec_witness :
  exists self h',
    @CaffeExtractor.__init__ Z Z Sample.caffe Sample.five Sample.net_def "fc7" 2 true []
      = (Ok self, h') /\
    CaffeExtractor.layers self = ["data"; "pool5"; "fc7"]%string /\
    length h' = 3%nat.
Proof.
  destruct (@CaffeExtractor.__init__ Z Z Sample.caffe Sample.five Sample.net_def
              "fc7" 2 true []) as [[self|e] h'] eqn:Hinit.
  - destruct (caffe_init_spec Sample.caffe Sample.five Sample.net_def "fc7" 2 true
                [] h' self Hinit) as (Hstore & _ & _ & Hlayers & _).
    exists self, h'. split; [reflexivity|]. split; [exact Hlayers|].
    rewrite Hstore. reflexivity.
  - vm_compute in Hinit. discriminate.
Defined.

(** A network whose input blob has one channel is turned down. *)
Example caffe_grayscale_rejected :
  (@CaffeExtractor.__init__ Z Z Sample.caffe Sample.five
     (CaffeExtractor.NetDef
        [("data"%string, NdArray float32 [1; 1; 1; 1]%nat [SFloat 0])] [] [])
     "data" 2 true []).1
    = Raise (Exception
        "Channel swap needs to have the same number of dimensions as the input channels.").
Proof. reflexivity. Qed.

Lemma caffe_absent_layer_fails_witness :
  exists self h1 e,
    @CaffeExtractor.__init__ Z Z Sample.caffe Sample.five Sample.net_def "nope" 2 true []
      = (Ok self, h1) /\
    (CaffeExtractor.extract_features self (3, 4, 5)%nat Sample.caffe_store).1 = Raise e.
Proof.
  destruct (@CaffeExtractor.__init__ Z Z Sample.caffe Sample.five Sample.net_def
              "nope" 2 true []) as [[self|e] h1] eqn:Hinit.
  - destruct (caffe_absent_layer_fails Sample.caffe Sample.five Sample.net_def "nope" 2
                true [] h1 self Hinit) with (tuple_batch := (3, 4, 5)%nat)
                                            (h := Sample.caffe_store) as [e He].
    + intros Hin. apply list_elem_of_In in Hin. simpl in Hin. intuition discriminate.
    + exists self, h1, e. split; [reflexivity|exact He].
  - vm_compute in Hinit. discriminate.
Defined.

Lemma next_keeps_batch_witness :
  exists yielded : batch Z Z,
    ((backend_next Sample.cast (CaffeBackend Sample.caffe_self)).1
       (take 3 Sample.caffe_store)).2 !! 5%nat
      = Some (OArray (batch_images yielded)).
Proof.
  destruct (gen_next Sample.cast (backend_images (CaffeBackend Sample.caffe_self)))
    as [[yielded|e] g'] eqn:Hstep.
  - exists yielded.
    refine (proj2 (proj2 (proj2 (proj2 (proj2
              (next_keeps_batch Sample.cast (CaffeBackend Sample.caffe_self)
                 (take 3 Sample.caffe_store) yielded g' _ Hstep)))))).
    intros l Hin. apply list_elem_of_In in Hin. simpl in Hin. simpl. lia.
  - vm_compute in Hstep. discriminate.
Defined.

Lemma preprocess_vgg_round_trip_witness :
  (KerasExtractor.__preprocess_vgg 2%nat ≫= KerasExtractor.__preprocess_vgg)
    Sample.float_store
    = (Ok 4%nat,
       Sample.float_store
         ++ [OArray (NdArray float32 [2; 1; 1; 3]%nat
                       [SFloat 7; SFloat 255; SFloat 44; SFloat 3; SFloat 2; SFloat 1]);
             OArray Sample.float_batch]).
Proof.
  destruct (proj2 (preprocess_vgg_round_trip 2%nat Sample.float_batch Sample.float_store
                     eq_refl eq_refl) 2%nat 1%nat 1%nat 3%nat [] eq_refl)
    as (b & Hb & _ & Htwice & _).
  injection Hb as <-. exact Htwice.
Defined.

(** A single image, of three axes, cannot go through the channel
    reversal. *)
Example preprocess_vgg_rank_three :
  KerasExtractor.__preprocess_vgg 0%nat [OArray (Sample.pixel 1 2 3)]
    = (Raise IndexError, [OArray (Sample.pixel 1 2 3)] : store Z Z).
Proof. reflexivity. Qed.

(** The legacy extractor iterated over the five sample images, two at a
    time. *)
Example caffe_iterated :
  (fun r => (r.1.1, r.1.2)) <$>
    backend_drain Sample.cast 5 (CaffeBackend Sample.caffe_self)
      (take 3 Sample.caffe_store)
  = Some ([[("a"%string, 0, NdArray float32 [1]%nat [SFloat 306]);
            ("b"%string, 1, NdArray float32 [1]%nat [SFloat 6])];
           [("c"%string, 2, NdArray float32 [1]%nat [SFloat 256]);
            ("d"%string, 3, NdArray float32 [1]%nat [SFloat 0])];
           [("e"%string, 4, NdArray float32 [1]%nat [SFloat 24])]],
          StopIteration).
Proof. by vm_compute. Qed.

(** The sample network of the legacy backend is one in which the layer
    [fc7] is computed by one layer and every blob has one name. *)
Example caffe_sample_computes_layer :
  backend_computes_layer (CaffeBackend Sample.caffe_self).
Proof.
  split; [|split].
  - by apply (bool_decide_unpack _).
  - by eexists.
  - intros n1 n2 l. cbn [CaffeExtractor.assoc CaffeExtractor.blobs
      CaffeExtractor.self_net Sample.caffe_self].
    repeat case_decide; congruence.
Qed.

Lemma features_paired_witness :
  exists fs feature_batch rows,
    (backend_extract (CaffeBackend Sample.caffe_self) (3, 4, 5)%nat Sample.caffe_store).1
      = Ok fs /\
    backend_features (CaffeBackend Sample.caffe_self) Sample.image_batch
      = Ok feature_batch /\
    nd_rows feature_batch = Ok rows /\
    fs = zip_with (fun nt row => (nt.1, nt.2, row)) (zip ["a"; "b"]%string [0; 1]) rows.
Proof.
  destruct (backend_extract (CaffeBackend Sample.caffe_self) (3, 4, 5)%nat
              Sample.caffe_store) as [[fs|e] h'] eqn:Hrun.
  - destruct (features_paired (CaffeBackend Sample.caffe_self) Sample.caffe_store h'
                3 4 5 ["a"; "b"]%string [0; 1] Sample.image_batch fs
                eq_refl eq_refl eq_refl) as (v & rows & Hrows & Hv & Hfs & _).
    + intros Hin. apply list_elem_of_In in Hin. simpl in Hin. intuition discriminate.
    + intros Hin. apply list_elem_of_In in Hin. simpl in Hin. intuition discriminate.
    + exact Hrun.
    + exists fs, v, rows. split; [reflexivity|]. split; [|split; [exact Hrows|exact Hfs]].
      exact (Hv caffe_sample_computes_layer).
  - vm_compute in Hrun. discriminate.
Defined.

Lemma iteration_follows_batches_witness :
  exists outs e h' batches,
    backend_drain Sample.cast 5 (CaffeBackend Sample.caffe_self)
      (take 3 Sample.caffe_store) = Some (outs, e, h') /\
    batches `prefix_of`
      (list_gen Sample.cast (backend_images (CaffeBackend Sample.caffe_self))).1 /\
    Forall2 (fun fs y =>
               exists feature_batch rows,
                 backend_features (CaffeBackend Sample.caffe_self) (batch_images y)
                   = Ok feature_batch /\
                 nd_rows feature_batch = Ok rows /\
                 fs = zip_with (fun nt row => (nt.1, nt.2, row))
                        (zip (batch_names y) (batch_ts y)) rows)
      outs batches /\
    length outs = 3%nat.
Proof.
  destruct (backend_drain Sample.cast 5 (CaffeBackend Sample.caffe_self)
              (take 3 Sample.caffe_store)) as [[[outs e] h']|] eqn:Hrun.
  - destruct (iteration_follows_batches Sample.cast 5 (CaffeBackend Sample.caffe_self)
                (take 3 Sample.caffe_store) outs e h') as (batches & Hpre & Hall & _).
    + intros l Hin. apply list_elem_of_In in Hin. simpl in Hin. simpl. lia.
    + exact Hrun.
    + exists outs, e, h', batches. split; [reflexivity|]. split; [exact Hpre|].
      split.
      * eapply Forall2_impl; [exact Hall|].
        intros fs y (v & rows & Hrows & Hv & Hfs). exists v, rows.
        split; [exact (Hv caffe_sample_computes_layer)|]. split; [exact Hrows|exact Hfs].
      * vm_compute in Hrun. injection Hrun as <- _ _. reflexivity.
  - vm_compute in Hrun. discriminate.
Defined.

Lemma caffe_features_spec_witness :
  exists fs frows,
    (CaffeExtractor.extract_features Sample.caffe_self (3, 4, 5)%nat Sample.caffe_store).1
      = Ok fs /\
    fs = zip_with (fun nt row => (nt.1, nt.2, row)) (zip ["a"; "b"]%string [0; 1]) frows.
Proof.
  destruct (CaffeExtractor.extract_features Sample.caffe_self (3, 4, 5)%nat
              Sample.caffe_store) as [[fs|e] h'] eqn:Hrun.
  - destruct (caffe_features_spec Sample.caffe Sample.five Sample.net_def "fc7" 2 true
                [] (take 3 Sample.caffe_store) Sample.caffe_self 3 4 5
                Sample.caffe_store h' ["a"; "b"]%string [0; 1] Sample.image_batch
                Sample.fc7 fs) as (rows & imgs & stacked & frows & _ & _ & _ & _ & Hfs).
    + reflexivity.
    + by apply (bool_decide_unpack _).
    + apply list_elem_of_further, list_elem_of_here.
    + reflexivity.
    + reflexivity.
    + reflexivity.
    + intros Hin. apply list_elem_of_In in Hin. simpl in Hin. intuition discriminate.
    + intros Hin. apply list_elem_of_In in Hin. simpl in Hin. intuition discriminate.
    + exact Hrun.
    + exists fs, frows. split; [reflexivity|exact Hfs].
  - vm_compute in Hrun. discriminate.
Defined.

Lemma keras_float_batch_overwritten_witness :
  (KerasExtractor.extract_features
     (KerasExtractor.Make (_batch_images Sample.five 2) Sample.keras_shifting 2 "fc2"
        (KerasExtractor.km_layers Sample.zoo_model) Sample.zoo_model
        (KerasExtractor.preprocess_input "resnet50"))
     (0, 1, 2)%nat Sample.float_store).2 !! 2%nat
    = Some (OArray (Sample.shifted Sample.float_batch)).
Proof.
  exact (proj1 (keras_float_batch_overwritten
                  (KerasExtractor.Make (_batch_images Sample.five 2) Sample.keras_shifting
                     2 "fc2" (KerasExtractor.km_layers Sample.zoo_model) Sample.zoo_model
                     (KerasExtractor.preprocess_input "resnet50"))
                  "resnet50" 0 1 2 Sample.float_store Sample.float_batch 2 [3]%nat
                  eq_refl eq_refl eq_refl eq_refl)).
Defined.

Lemma extract_features_keeps_batch_witness :
  (backend_extract (CaffeBackend Sample.caffe_self) (3, 4, 5)%nat Sample.caffe_store).2
    !! 5%nat = Some (OArray Sample.image_batch).
Proof.
  refine (proj1 (proj2 (proj2 (extract_features_keeps_batch Sample.cast
            (CaffeBackend Sample.caffe_self) Sample.caffe_store 3 4 5
            ["a"; "b"]%string [0; 1] Sample.image_batch _ _ _ _ _ _))) _); try reflexivity.
  all: intros Hin; apply list_elem_of_In in Hin; simpl in Hin; intuition discriminate.
Defined.

(** C8 as the spec words it fails on a batch whose image array is of a
    float dtype, handed to a named-architecture extractor of the key
    [resnet50]: after the call the caller's array holds other values. *)
Lemma extract_features_keeps_batch_float :
  match @KerasExtractor.__init__ Z Z Sample.keras_shifting Sample.five
          "resnet50" "fc2" "imagenet" 2 true with
  | Ok self =>
      Sample.float_store !! 2%nat = Some (OArray Sample.float_batch) /\
      (backend_extract (KerasBackend self) (0, 1, 2)%nat Sample.float_store).2 !! 2%nat
        = Some (OArray (Sample.shifted Sample.float_batch)) /\
      Sample.shifted Sample.float_batch <> Sample.float_batch
  | Raise _ => False
  end.
Proof. vm_compute. split; [reflexivity|]. split; [reflexivity|discriminate]. Qed.
